(** * coolerWidget: the thermal monitoring core, embedded and verified

    A shallow embedding of [coolerwidget/core/thermal_service.py] and of
    [coolerwidget/core/hardware_monitor.py]: the sensor source first as the
    service sees it, then as it is written.

    Conventions of the embedding.
    - Python [int] is [Z]; [len] is [length] (a [nat]) and is injected into
      [Z] wherever the source compares it with an [int].
    - A [datetime] is the number of microseconds elapsed since
      0001-01-01T00:00:00 (naive, as [datetime.now()] returns it); the range
      checks of the [datetime] module are written out.
    - A call either returns or raises an instance of [Exception]
      ([outcome]): a call that never returns, or that raises outside
      [Exception] ([KeyboardInterrupt], [SystemExit]), is not modelled.
      [datetime.now()] is an input of the operation that reads the clock.
    - A callback is consumer code: it acts on the consumer's own state and
      does not reach back into the service that calls it.
    - A [dict] is an insertion-ordered association list with unique keys.
    - [queue.SimpleQueue] is a list: [put] appends at the back,
      [get_nowait] removes the front or signals [queue.Empty].
    - An operation on the data of a service is given as it runs with no
      other thread in between; the lifecycle ([start_monitoring],
      [stop_monitoring], the background thread) is followed turn by turn,
      a block under the lock being one turn. *)

From Stdlib Require Import String ZArith List Bool Arith Lia Floats Sorted.
From Equations Require Import Equations.
Import ListNotations.
Open Scope string_scope.
Open Scope list_scope.

Set Implicit Arguments.

Declare Scope stmt_scope.
Delimit Scope stmt_scope with stmt.
Reserved Notation "x <- m ;; k" (at level 61, m at next level, right associativity).
Reserved Notation "m ;; k" (at level 61, right associativity).

(** ** The Python runtime as far as the program uses it *)

Module Py.

(** An instance of a subclass of [Exception]: its class, the classes
    between that class and [Exception], and its message. *)
Record Exception : Type := mkException {
  exc_class : string;
  exc_bases : list string;
  exc_msg : string
}.

(** [isinstance(exc, cls)] for a class [cls] below [Exception] *)
Definition isinstance (exc : Exception) (cls : string) : bool :=
  String.eqb (exc_class exc) cls || existsb (String.eqb cls) (exc_bases exc).

Definition RuntimeError (msg : string) : Exception :=
  mkException "RuntimeError" [] msg.

Definition ValueError (msg : string) : Exception :=
  mkException "ValueError" [] msg.

Inductive outcome (A : Type) : Type :=
| Returned (a : A)
| Raised (e : Exception).
Arguments Returned {A} a.
Arguments Raised {A} e.

Definition OverflowError (msg : string) : Exception :=
  mkException "OverflowError" ["ArithmeticError"] msg.

(** *** Slices

    [slice_stop stop len] is the adjusted upper index of the slice
    [[:stop]] on a sequence of [len] items: a negative [stop] counts from
    the end and is clamped at 0, a non-negative one is clamped at [len]. *)
Definition slice_stop (stop : Z) (len : nat) : nat :=
  if (stop <? 0)%Z
  then Z.to_nat (Z.max 0 (stop + Z.of_nat len))
  else Nat.min (Z.to_nat stop) len.

(** [del l[:stop]] *)
Definition del_slice_to {A : Type} (stop : Z) (l : list A) : list A :=
  skipn (slice_stop stop (length l)) l.

(** *** datetime and timedelta *)

Definition datetime := Z.
Definition timedelta := Z.

Definition us_per_minute : Z := 60000000%Z.
Definition us_per_day : Z := 86400000000%Z.

(** [datetime.max] is 9999-12-31T23:59:59.999999, the last microsecond of
    day 3652059 of the proleptic Gregorian calendar:
    3652059 * 86400000000 - 1. *)
Definition datetime_max : datetime := 315537897599999999%Z.

(** The instants a [datetime] can hold. *)
Definition representable (t : Z) : Prop := (0 <= t <= datetime_max)%Z.

(** [timedelta] keeps [-999999999 <= days <= 999999999]. *)
Definition timedelta_max_days : Z := 999999999%Z.

(** [timedelta(minutes=m)]; the message of the error, which quotes the
    number of days, is shortened. *)
Definition timedelta_of_minutes (m : Z) : outcome timedelta :=
  let us := (m * us_per_minute)%Z in
  let days := (us / us_per_day)%Z in
  if ((- timedelta_max_days <=? days) && (days <=? timedelta_max_days))%Z
  then Returned us
  else Raised (OverflowError "days out of range; must have magnitude <= 999999999").

(** [dt - td] *)
Definition datetime_sub (dt : datetime) (td : timedelta) : outcome datetime :=
  let r := (dt - td)%Z in
  if ((0 <=? r) && (r <=? datetime_max))%Z
  then Returned r
  else Raised (OverflowError "date value out of range").

(** *** dict, insertion-ordered *)

Section Dict.
Variable V : Type.

Definition dict := list (string * V).

(** [d.get(k)] *)
Fixpoint get (d : dict) (k : string) : option V :=
  match d with
  | [] => None
  | (k', v) :: d' => if String.eqb k' k then Some v else get d' k
  end.

(** [d[k] = v]: in place when the key is present, at the end when not. *)
Fixpoint setitem (d : dict) (k : string) (v : V) : dict :=
  match d with
  | [] => [(k, v)]
  | (k', v') :: d' =>
      if String.eqb k' k then (k', v) :: d' else (k', v') :: setitem d' k v
  end.
End Dict.

End Py.

Import Py.

(** ** hardware_monitor.py: the reading *)

Module SensorReading.
Record t : Type := mk {
  name : string;
  label : string;
  value : float;
  unit : string;
  timestamp : datetime;
  sensor_type : string
}.
End SensorReading.

(** ** thermal_service.py: TemperatureHistory *)

Record TemperatureHistory : Type := mkTemperatureHistory {
  readings : list SensorReading.t;
  max_size : Z
}.

(** [TemperatureHistory([])]: [max_size] takes its default. *)
Definition new_history : TemperatureHistory :=
  {| readings := []; max_size := 1000%Z |}.

(** [add_reading]: append, then [del self.readings[:-self.max_size]] when the
    list has become longer than [max_size]. *)
Definition add_reading (h : TemperatureHistory) (reading : SensorReading.t)
  : TemperatureHistory :=
  let appended := readings h ++ [reading] in
  if (Z.of_nat (length appended) >? max_size h)%Z
  then {| readings := del_slice_to (- max_size h) appended; max_size := max_size h |}
  else {| readings := appended; max_size := max_size h |}.

(** [get_readings_for_timeframe], with the value [datetime.now()] returns as
    [now].  The list comprehension builds a fresh list and leaves
    [self.readings] as it is. *)
Definition get_readings_for_timeframe (now : datetime) (h : TemperatureHistory)
    (minutes : Z) : outcome (list SensorReading.t) :=
  match timedelta_of_minutes minutes with
  | Raised e => Raised e
  | Returned td =>
      match datetime_sub now td with
      | Raised e => Raised e
      | Returned timeframe =>
          Returned (filter (fun reading => (timeframe <=? SensorReading.timestamp reading)%Z)
                           (readings h))
      end
  end.

(** The instant [minutes] minutes before [now]. *)
Definition minutes_before (now : datetime) (minutes : Z) : Z :=
  (now - minutes * us_per_minute)%Z.

(** A history that starts empty with capacity [C] and receives [rs] one by
    one. *)
Definition appended_all (C : Z) (rs : list SensorReading.t) : TemperatureHistory :=
  fold_left add_reading rs {| readings := []; max_size := C |}.

(** The last [n] items of a list. *)
Definition last_n {A : Type} (n : nat) (l : list A) : list A :=
  skipn (length l - n) l.

(** ** hardware_monitor.py: HardwareMonitor

    The sensor tool and the clock are outside the program: [Env] is the
    state of the machine they live on.  [get_raw_sensor_data] stands for the
    call that runs [sensors -j] and decodes its output, [parse_sensor_data]
    for the traversal that stamps each reading with [datetime.now()]. *)

Module HardwareMonitor.
Section Monitor.
Context {Env RawData : Type}.

Record t : Type := mk {
  get_raw_sensor_data : Env -> outcome (option RawData) * Env;
  (** [bool(raw_data)]: a dict is true when it has an item *)
  truth : RawData -> bool;
  parse_sensor_data : RawData -> Env -> list SensorReading.t * Env
}.

Definition get_current_readings (self : t) (env : Env)
  : outcome (list SensorReading.t) * Env :=
  match get_raw_sensor_data self env with
  | (Raised e, env') => (Raised e, env')
  | (Returned None, env') => (Returned [], env')
  | (Returned (Some raw_data), env') =>
      if truth self raw_data
      then let (parsed, env'') := parse_sensor_data self raw_data env' in
           (Returned parsed, env'')
      else (Returned [], env')
  end.
End Monitor.
Arguments t : clear implicits.
End HardwareMonitor.

(** ** thermal_service.py: ThermalMonitoringService *)

Section Model.
Context {W Env : Type}.

(** Callbacks are code of the consumer: a call acts on the consumer's own
    state [W] and returns or raises. *)
Definition ReadingCallback : Type := list SensorReading.t -> W -> outcome unit * W.
Definition ErrorCallback : Type := Exception -> W -> outcome unit * W.

Record ThermalMonitoringService : Type := mkService {
  (** [self.monitor.get_current_readings] *)
  monitor : Env -> outcome (list SensorReading.t) * Env;
  polling_interval : float;
  (** [self._stop_event.is_set()] *)
  _stop_event : bool;
  (** the thread object, by its number in the table of threads *)
  _thread : option nat;
  is_running : bool;
  history : dict TemperatureHistory;
  reading_callbacks : list ReadingCallback;
  error_callbacks : list ErrorCallback;
  _pending_readings : list (list SensorReading.t);
  _pending_errors : list Exception
}.

(** [__init__] *)
Definition init (monitor : Env -> outcome (list SensorReading.t) * Env)
    (polling_interval : float) : ThermalMonitoringService :=
  {| monitor := monitor; polling_interval := polling_interval;
     _stop_event := false; _thread := None; is_running := false;
     history := []; reading_callbacks := []; error_callbacks := [];
     _pending_readings := []; _pending_errors := [] |}.

(** Observation of the calls the service makes into consumer code: which
    registration (its position in the registry), with which argument, and
    how the call ended.  The record of calls is kept next to the state; the
    program never reads it. *)
Inductive Call : Type :=
| ReadingCall (i : nat) (readings : list SensorReading.t) (o : outcome unit)
| ErrorCall (j : nat) (error : Exception) (o : outcome unit).

Record World : Type := mkWorld {
  service : ThermalMonitoringService;
  consumer : W;
  machine : Env;
  calls : list Call
}.

Definition with_service (s : ThermalMonitoringService) (w : World) : World :=
  {| service := s; consumer := consumer w; machine := machine w; calls := calls w |}.

Definition with_history (h : dict TemperatureHistory) (s : ThermalMonitoringService) :=
  {| monitor := monitor s; polling_interval := polling_interval s;
     _stop_event := _stop_event s; _thread := _thread s; is_running := is_running s;
     history := h; reading_callbacks := reading_callbacks s;
     error_callbacks := error_callbacks s;
     _pending_readings := _pending_readings s; _pending_errors := _pending_errors s |}.

Definition with_pending_readings (q : list (list SensorReading.t)) (s : ThermalMonitoringService) :=
  {| monitor := monitor s; polling_interval := polling_interval s;
     _stop_event := _stop_event s; _thread := _thread s; is_running := is_running s;
     history := history s; reading_callbacks := reading_callbacks s;
     error_callbacks := error_callbacks s;
     _pending_readings := q; _pending_errors := _pending_errors s |}.

Definition with_pending_errors (q : list Exception) (s : ThermalMonitoringService) :=
  {| monitor := monitor s; polling_interval := polling_interval s;
     _stop_event := _stop_event s; _thread := _thread s; is_running := is_running s;
     history := history s; reading_callbacks := reading_callbacks s;
     error_callbacks := error_callbacks s;
     _pending_readings := _pending_readings s; _pending_errors := q |}.

Definition with_reading_callbacks (l : list ReadingCallback) (s : ThermalMonitoringService) :=
  {| monitor := monitor s; polling_interval := polling_interval s;
     _stop_event := _stop_event s; _thread := _thread s; is_running := is_running s;
     history := history s; reading_callbacks := l;
     error_callbacks := error_callbacks s;
     _pending_readings := _pending_readings s; _pending_errors := _pending_errors s |}.

Definition with_error_callbacks (l : list ErrorCallback) (s : ThermalMonitoringService) :=
  {| monitor := monitor s; polling_interval := polling_interval s;
     _stop_event := _stop_event s; _thread := _thread s; is_running := is_running s;
     history := history s; reading_callbacks := reading_callbacks s;
     error_callbacks := l;
     _pending_readings := _pending_readings s; _pending_errors := _pending_errors s |}.

(** The three fields the lifecycle operations write. *)
Definition with_lifecycle (stop_event : bool) (thread : option nat) (running : bool)
    (s : ThermalMonitoringService) :=
  {| monitor := monitor s; polling_interval := polling_interval s;
     _stop_event := stop_event; _thread := thread; is_running := running;
     history := history s; reading_callbacks := reading_callbacks s;
     error_callbacks := error_callbacks s;
     _pending_readings := _pending_readings s; _pending_errors := _pending_errors s |}.

(** *** Statements that may raise *)

Definition M (A : Type) : Type := World -> outcome A * World.

Definition ret {A : Type} (a : A) : M A := fun w => (Returned a, w).

Definition bind {A B : Type} (m : M A) (k : A -> M B) : M B :=
  fun w => match m w with
           | (Returned a, w') => k a w'
           | (Raised e, w') => (Raised e, w')
           end.

Notation "x <- m ;; k" := (bind m (fun x => k)) : stmt_scope.
Notation "m ;; k" := (bind m (fun _ => k)) : stmt_scope.

(** [try: body  except Exception as exc: handler(exc)] *)
Definition try_except (body : M unit) (handler : Exception -> M unit) : M unit :=
  fun w => match body w with
           | (Returned a, w') => (Returned a, w')
           | (Raised exc, w') => handler exc w'
           end.

(** [try: body  except cls as exc: handler(exc)]: an exception of another
    class passes through. *)
Definition try_except_class (cls : string) (body : M unit)
    (handler : Exception -> M unit) : M unit :=
  fun w => match body w with
           | (Returned a, w') => (Returned a, w')
           | (Raised exc, w') =>
               if isinstance exc cls then handler exc w'
               else (Raised exc, w')
           end.

(** [for x in xs: body(x)] *)
Fixpoint for_each {A : Type} (body : A -> M unit) (xs : list A) : M unit :=
  match xs with
  | [] => ret tt
  | x :: xs' => (body x ;; for_each body xs')%stmt
  end.

Definition modify_service (f : ThermalMonitoringService -> ThermalMonitoringService)
  : M unit :=
  fun w => (Returned tt, with_service (f (service w)) w).

(** [self._pending_readings.put(readings)] *)
Definition put_readings (readings : list SensorReading.t) : M unit :=
  modify_service (fun s => with_pending_readings (_pending_readings s ++ [readings]) s).

(** [self._pending_errors.put(exc)] *)
Definition put_error (exc : Exception) : M unit :=
  modify_service (fun s => with_pending_errors (_pending_errors s ++ [exc]) s).

(** *** Registration *)

Definition register_reading_callback (callback : ReadingCallback) : M unit :=
  modify_service (fun s => with_reading_callbacks (reading_callbacks s ++ [callback]) s).

Definition register_error_callback (callback : ErrorCallback) : M unit :=
  modify_service (fun s => with_error_callbacks (error_callbacks s ++ [callback]) s).

(** *** _record_readings *)

(** One turn of the loop: look the history up, create and store it when the
    key is new, append to the stored object. *)
Definition record_one (hist : dict TemperatureHistory) (reading : SensorReading.t)
  : dict TemperatureHistory :=
  let sensor_key := SensorReading.name reading in
  match get hist sensor_key with
  | None => setitem hist sensor_key (add_reading new_history reading)
  | Some history => setitem hist sensor_key (add_reading history reading)
  end.

Definition _record_readings (readings : list SensorReading.t) : M unit :=
  modify_service (fun s => with_history (fold_left record_one readings (history s)) s).

(** *** process_pending_callbacks *)

(** A registry with the position of each registration. *)
Definition indexed {A : Type} (l : list A) : list (nat * A) :=
  combine (seq 0 (length l)) l.

(** [callback(readings)] *)
Definition call_reading_callback (i : nat) (callback : ReadingCallback)
    (readings : list SensorReading.t) : M unit :=
  fun w =>
    let (o, c) := callback readings (consumer w) in
    (o, {| service := service w; consumer := c; machine := machine w;
           calls := calls w ++ [ReadingCall i readings o] |}).

(** [error_callback(error)] *)
Definition call_error_callback (j : nat) (error_callback : ErrorCallback)
    (error : Exception) : M unit :=
  fun w =>
    let (o, c) := error_callback error (consumer w) in
    (o, {| service := service w; consumer := c; machine := machine w;
           calls := calls w ++ [ErrorCall j error o] |}).

(** The body of the first loop after a batch was taken from the queue. *)
Definition deliver_readings (readings : list SensorReading.t) : M unit :=
  fun w =>
    for_each (fun ic : nat * ReadingCallback =>
                try_except (call_reading_callback (fst ic) (snd ic) readings)
                           (fun exc => put_error exc))
             (indexed (reading_callbacks (service w))) w.

(** The body of the second loop after an error was taken from the queue;
    [continue] in the handler goes on with the next error-callback. *)
Definition deliver_error (error : Exception) : M unit :=
  fun w =>
    for_each (fun jc : nat * ErrorCallback =>
                try_except (call_error_callback (fst jc) (snd jc) error)
                           (fun _ => ret tt))
             (indexed (error_callbacks (service w))) w.

(** A value together with the equation that says what was matched. *)
Definition inspect {A : Type} (x : A) : {y : A | x = y} := exist _ x eq_refl.

(** [while True] over [_pending_readings]: [get_nowait] until
    [queue.Empty]. *)
Equations? drain_readings (w : World) : outcome unit * World
  by wf (length (_pending_readings (service w))) lt :=
  drain_readings w with inspect (_pending_readings (service w)) := {
    | exist _ [] _ => (Returned tt, w)
    | exist _ (batch :: rest) Hget
        with inspect (deliver_readings batch
                        (with_service (with_pending_readings rest (service w)) w)) := {
        | exist _ (Returned _, w') Hbody => drain_readings w'
        | exist _ (Raised e, w') Hbody => (Raised e, w') } }.
Proof.
  rewrite Hget. simpl.
  enough (Hkeep : forall (cbs : list (nat * ReadingCallback)) (w0 : World) o w1,
             for_each (fun ic : nat * ReadingCallback =>
                         try_except (call_reading_callback (fst ic) (snd ic) batch)
                                    (fun exc => put_error exc)) cbs w0 = (o, w1) ->
             _pending_readings (service w1) = _pending_readings (service w0)).
  { unfold deliver_readings in Hbody. apply Hkeep in Hbody.
    rewrite Hbody. simpl. lia. }
  clear. induction cbs as [|ic cbs IH]; intros w0 o w1 H; simpl in H.
  - inversion H. reflexivity.
  - unfold bind, try_except, call_reading_callback in H.
    destruct (snd ic batch (consumer w0)) as [[[]|exc] c].
    + apply IH in H. exact H.
    + simpl in H. apply IH in H. exact H.
Qed.

(** [while True] over [_pending_errors]. *)
Equations? drain_errors (w : World) : outcome unit * World
  by wf (length (_pending_errors (service w))) lt :=
  drain_errors w with inspect (_pending_errors (service w)) := {
    | exist _ [] _ => (Returned tt, w)
    | exist _ (error :: rest) Hget
        with inspect (deliver_error error
                        (with_service (with_pending_errors rest (service w)) w)) := {
        | exist _ (Returned _, w') Hbody => drain_errors w'
        | exist _ (Raised e, w') Hbody => (Raised e, w') } }.
Proof.
  rewrite Hget. simpl.
  enough (Hkeep : forall (cbs : list (nat * ErrorCallback)) (w0 : World) o w1,
             for_each (fun jc : nat * ErrorCallback =>
                         try_except (call_error_callback (fst jc) (snd jc) error)
                                    (fun _ => ret tt)) cbs w0 = (o, w1) ->
             _pending_errors (service w1) = _pending_errors (service w0)).
  { unfold deliver_error in Hbody. apply Hkeep in Hbody.
    rewrite Hbody. simpl. lia. }
  clear. induction cbs as [|jc cbs IH]; intros w0 o w1 H; simpl in H.
  - inversion H. reflexivity.
  - unfold bind, try_except, call_error_callback in H.
    destruct (snd jc error (consumer w0)) as [[[]|exc] c].
    + apply IH in H. exact H.
    + simpl in H. apply IH in H. exact H.
Qed.

Definition process_pending_callbacks : M unit :=
  (drain_readings ;; drain_errors)%stmt.

(** *** Direct reads *)

(** [get_current_readings]: [return self.monitor.get_current_readings()] *)
Definition get_current_readings : M (list SensorReading.t) :=
  fun w =>
    let (o, env) := monitor (service w) (machine w) in
    (o, {| service := service w; consumer := consumer w; machine := env;
           calls := calls w |}).

(** [get_historical_readings]; [now] is what [datetime.now()] returns when
    the history is asked. *)
Definition get_historical_readings (now : datetime) (s : ThermalMonitoringService)
    (sensor_name : string) (minutes : Z) : outcome (list SensorReading.t) :=
  match get (history s) sensor_name with
  | None => Returned []
  | Some history => get_readings_for_timeframe now history minutes
  end.

(** The loop of [get_all_historical_readings] over [self.history.items()];
    the clock is read once per history, [clock n] being its [n]-th
    reading during the call. *)
Fixpoint collect_histories (clock : nat -> datetime) (n : nat)
    (items : dict TemperatureHistory) (minutes : Z)
    (result : dict (list SensorReading.t)) : outcome (dict (list SensorReading.t)) :=
  match items with
  | [] => Returned result
  | (sensor_name, history) :: items' =>
      match get_readings_for_timeframe (clock n) history minutes with
      | Raised e => Raised e
      | Returned window =>
          collect_histories clock (S n) items' minutes (setitem result sensor_name window)
      end
  end.

Definition get_all_historical_readings (clock : nat -> datetime)
    (s : ThermalMonitoringService) (minutes : Z)
  : outcome (dict (list SensorReading.t)) :=
  collect_histories clock 0 (history s) minutes [].

(** *** The background thread and the lifecycle

    Threads take turns; a block under [with self._state_lock] is one turn.
    A worker is at one of four places of [_monitor_loop]. *)
Inductive WorkerPc : Type :=
| AtLoopTest   (** about to evaluate [not self._stop_event.is_set()] *)
| InWait       (** inside [self._stop_event.wait(self.polling_interval)] *)
| Finishing    (** left the loop, about to set [is_running = False] *)
| Terminated.  (** [run] has returned or raised: [is_alive()] is false *)

(** A caller is outside the lifecycle methods, or inside [stop_monitoring]
    between its two locked blocks. *)
Inductive CallerPc : Type :=
| Outside
| StopJoining (thread : option nat)  (** before [thread.join()] returns *)
| StopJoined.                        (** before the second locked block *)

Record System : Type := mkSystem {
  world : World;
  threads : list WorkerPc;
  callers : list CallerPc
}.

Definition is_alive (sys : System) (t : nat) : bool :=
  match nth_error (threads sys) t with
  | Some Terminated | None => false
  | Some _ => true
  end.

(** The number of threads that are inside [_monitor_loop]. *)
Definition live_loops (sys : System) : nat :=
  length (filter (fun pc => match pc with Terminated => false | _ => true end)
                 (threads sys)).

Fixpoint replace_nth {A : Type} (n : nat) (x : A) (l : list A) : list A :=
  match l, n with
  | [], _ => []
  | _ :: l', O => x :: l'
  | y :: l', S n' => y :: replace_nth n' x l'
  end.

Definition with_world (w : World) (sys : System) : System :=
  {| world := w; threads := threads sys; callers := callers sys |}.

Definition set_worker (t : nat) (pc : WorkerPc) (sys : System) : System :=
  {| world := world sys; threads := replace_nth t pc (threads sys);
     callers := callers sys |}.

Definition set_caller (c : nat) (pc : CallerPc) (sys : System) : System :=
  {| world := world sys; threads := threads sys;
     callers := replace_nth c pc (callers sys) |}.

Definition update_service (f : ThermalMonitoringService -> ThermalMonitoringService)
    (sys : System) : System :=
  with_world (with_service (f (service (world sys))) (world sys)) sys.

(** [start_monitoring], all of it under the lock. *)
Definition start_monitoring (sys : System) : System :=
  let s := service (world sys) in
  if match _thread s with
     | Some t => is_alive sys t
     | None => false
     end
  then sys
  else
    let t := length (threads sys) in
    {| world := with_service (with_lifecycle false (Some t) true s) (world sys);
       threads := threads sys ++ [AtLoopTest];
       callers := callers sys |}.

(** [stop_monitoring], first locked block; returns the local [thread]. *)
Definition stop_monitoring_signal (sys : System) : System * option nat :=
  let s := service (world sys) in
  (update_service (with_lifecycle true (_thread s) false) sys, _thread s).

(** [stop_monitoring], second locked block. *)
Definition stop_monitoring_clear (sys : System) : System :=
  update_service (fun s => with_lifecycle (_stop_event s) None (is_running s) s) sys.

(** One pass through the body of the [while] of [_monitor_loop], up to the
    wait. *)
Definition poll_once : M unit :=
  try_except_class "RuntimeError"
    (batch <- get_current_readings ;;
     _record_readings batch ;;
     put_readings batch)%stmt
    (fun exc => put_error exc).

(** What can happen to the data of a service, one operation at a time:
    the public methods, [_record_readings], and a pass of the background
    loop. *)
Inductive Operation : Type :=
| RecordReadings (batch : list SensorReading.t)
| PollOnce
| ProcessPendingCallbacks
| GetCurrentReadings
| RegisterReadingCallback (callback : ReadingCallback)
| RegisterErrorCallback (callback : ErrorCallback).

(** The world after an operation, and the readings the operation recorded
    in the history map. *)
Definition perform (op : Operation) (w : World) : World * list SensorReading.t :=
  match op with
  | RecordReadings batch => (snd (_record_readings batch w), batch)
  | PollOnce =>
      (snd (poll_once w),
       match fst (get_current_readings w) with
       | Returned batch => batch
       | Raised _ => []
       end)
  | ProcessPendingCallbacks => (snd (process_pending_callbacks w), [])
  | GetCurrentReadings => (snd (get_current_readings w), [])
  | RegisterReadingCallback callback => (snd (register_reading_callback callback w), [])
  | RegisterErrorCallback callback => (snd (register_error_callback callback w), [])
  end.

(** A service after a sequence of operations, and all that was recorded on
    the way. *)
Fixpoint perform_all (ops : list Operation) (w : World) : World * list SensorReading.t :=
  match ops with
  | [] => (w, [])
  | op :: ops' =>
      let (w1, recorded) := perform op w in
      let (w', recorded') := perform_all ops' w1 in
      (w', recorded ++ recorded')
  end.

Inductive Action : Type :=
| Start (c : nat)       (** caller [c] runs [start_monitoring] *)
| StopSignal (c : nat)  (** caller [c] enters [stop_monitoring] *)
| StopJoin (c : nat)    (** [thread.join()] returns in caller [c] *)
| StopClear (c : nat)   (** caller [c] finishes [stop_monitoring] *)
| Worker (t : nat).     (** thread [t] runs to its next place *)

Definition worker_step (t : nat) (sys : System) : option System :=
  match nth_error (threads sys) t with
  | Some AtLoopTest =>
      if _stop_event (service (world sys))
      then Some (set_worker t Finishing sys)
      else match poll_once (world sys) with
           | (Returned _, w') => Some (set_worker t InWait (with_world w' sys))
           | (Raised _, w') => Some (set_worker t Terminated (with_world w' sys))
           end
  | Some InWait => Some (set_worker t AtLoopTest sys)
  | Some Finishing =>
      Some (set_worker t Terminated
              (update_service (fun s => with_lifecycle (_stop_event s) (_thread s) false s) sys))
  | Some Terminated | None => None
  end.

Definition step (a : Action) (sys : System) : option System :=
  match a with
  | Start c =>
      match nth_error (callers sys) c with
      | Some Outside => Some (start_monitoring sys)
      | _ => None
      end
  | StopSignal c =>
      match nth_error (callers sys) c with
      | Some Outside =>
          let (sys', thread) := stop_monitoring_signal sys in
          Some (set_caller c (StopJoining thread) sys')
      | _ => None
      end
  | StopJoin c =>
      match nth_error (callers sys) c with
      | Some (StopJoining None) => Some (set_caller c StopJoined sys)
      | Some (StopJoining (Some t)) =>
          if is_alive sys t then None else Some (set_caller c StopJoined sys)
      | _ => None
      end
  | StopClear c =>
      match nth_error (callers sys) c with
      | Some StopJoined => Some (set_caller c Outside (stop_monitoring_clear sys))
      | _ => None
      end
  | Worker t => worker_step t sys
  end.

Fixpoint run (schedule : list Action) (sys : System) : option System :=
  match schedule with
  | [] => Some sys
  | a :: schedule' =>
      match step a sys with
      | Some sys' => run schedule' sys'
      | None => None
      end
  end.

(** The system a schedule leads to; the system itself when the schedule
    cannot be run. *)
Definition after (schedule : list Action) (sys : System) : System :=
  match run schedule sys with
  | Some sys' => sys'
  | None => sys
  end.

(** A service right after [__init__], with [n] callers. *)
Definition boot (w : World) (n : nat) : System :=
  {| world := w; threads := []; callers := repeat Outside n |}.

End Model.

Arguments ThermalMonitoringService : clear implicits.
Arguments World : clear implicits.
Arguments System : clear implicits.
Arguments M : clear implicits.
Arguments ReadingCallback : clear implicits.
Arguments ErrorCallback : clear implicits.
Arguments Call : clear implicits.
Arguments Operation : clear implicits.

Notation "x <- m ;; k" := (bind m (fun x => k)) : stmt_scope.
Notation "m ;; k" := (bind m (fun _ => k)) : stmt_scope.

(** ** Reading the record of calls *)

(** The calls made to reading-callbacks: which registration, which batch. *)
Definition reading_deliveries (log : list Call) : list (nat * list SensorReading.t) :=
  flat_map (fun c => match c with
                     | ReadingCall i batch _ => [(i, batch)]
                     | ErrorCall _ _ _ => []
                     end) log.

(** The calls made to error-callbacks: which registration, which error. *)
Definition error_deliveries (log : list Call) : list (nat * Exception) :=
  flat_map (fun c => match c with
                     | ReadingCall _ _ _ => []
                     | ErrorCall j error _ => [(j, error)]
                     end) log.

(** What the reading-callbacks raised, one item per call that raised. *)
Definition raised_by_reading_callbacks (log : list Call) : list Exception :=
  flat_map (fun c => match c with
                     | ReadingCall _ _ (Raised e) => [e]
                     | _ => []
                     end) log.

(** The batches registration [i] was called with, in the order of the
    calls. *)
Definition delivered_to (i : nat) (log : list Call) : list (list SensorReading.t) :=
  map snd (filter (fun d => Nat.eqb (fst d) i) (reading_deliveries log)).

(** The errors error-registration [j] was called with. *)
Definition errors_delivered_to (j : nat) (log : list Call) : list Exception :=
  map snd (filter (fun d => Nat.eqb (fst d) j) (error_deliveries log)).

(** The calls an operation makes when it is run in [w]: what it adds to the
    record. *)
Definition calls_made_by {W Env A : Type} (op : M W Env A) (w : World W Env)
  : list Call :=
  skipn (length (calls w)) (calls (snd (op w))).

(** Every item in turn, each to the registrations [0 .. n-1] in turn. *)
Definition each_to_all {A : Type} (n : nat) (xs : list A) : list (nat * A) :=
  flat_map (fun x => map (fun i => (i, x)) (seq 0 n)) xs.

(** ** Schedules of the lifecycle *)

(** The schedule that breaks the lifecycle: caller 0 starts the service and
    stops it; the worker sees the signal and ends; [join] returns in caller
    0; before caller 0 takes the lock again caller 1 starts the service;
    caller 0 then forgets the thread caller 1 has just launched; the next
    [start_monitoring] finds no thread and launches another. *)
Definition race_schedule : list Action :=
  [Start 0; StopSignal 0; Worker 0; Worker 0; StopJoin 0;
   Start 1; StopClear 0; Start 1].

(** What holds of a service that a single caller drives: a thread that is
    alive is the one [self._thread] names; between the two blocks of
    [stop_monitoring] the local [thread] is still [self._thread], and after
    [join] nothing is alive. *)
Definition single_caller_invariant {W Env : Type} (sys : System W Env) : Prop :=
  exists pc : CallerPc,
    callers sys = [pc]
    /\ (forall t, is_alive sys t = true -> _thread (service (world sys)) = Some t)
    /\ match pc with
       | Outside => True
       | StopJoining thread => thread = _thread (service (world sys))
       | StopJoined => forall t, is_alive sys t = false
       end.

(** ** What a history map should look like *)

(** Readings in the order of their timestamps. *)
Definition chronological (l : list SensorReading.t) : Prop :=
  StronglySorted (fun a b => (SensorReading.timestamp a <= SensorReading.timestamp b)%Z) l.

(** [reading.name == k] *)
Definition named (k : string) (reading : SensorReading.t) : bool :=
  String.eqb (SensorReading.name reading) k.

(** The history a reading is appended to: the stored one, or a new one. *)
Definition history_or_new (o : option TemperatureHistory) : TemperatureHistory :=
  match o with
  | Some h => h
  | None => new_history
  end.

(** Every history the map holds has the default capacity, respects it, and
    only holds readings of the sensor it is stored under; no key occurs
    twice. *)
Definition tidy (hist : dict TemperatureHistory) : Prop :=
  NoDup (map fst hist)
  /\ forall k h, In (k, h) hist ->
       max_size h = 1000%Z
       /\ length (readings h) <= 1000
       /\ forall r, In r (readings h) -> SensorReading.name r = k.

(** ** Sample data *)

(** A reading of one sensor, as the unit tests build it. *)
Definition sample_reading (v : float) (t : datetime) : SensorReading.t :=
  {| SensorReading.name := "chip_temp1_input"; SensorReading.label := "CPU";
     SensorReading.value := v; SensorReading.unit := "C";
     SensorReading.timestamp := t; SensorReading.sensor_type := "CPU" |}.

(** 2026-11-04T12:00:00 *)
Definition sample_now : datetime := 63929390400000000%Z.

(** A consumer that keeps what it was handed: the batches and the errors. *)
Definition Consumer : Type := (list (list SensorReading.t) * list Exception)%type.

Definition record_batch : ReadingCallback Consumer :=
  fun batch c => (Returned tt, (fst c ++ [batch], snd c)).

Definition broken_reader : ReadingCallback Consumer :=
  fun _ c => (Raised (ValueError "cannot show reading"), c).

Definition record_error : ErrorCallback Consumer :=
  fun error c => (Returned tt, (fst c, snd c ++ [error])).

Definition broken_handler : ErrorCallback Consumer :=
  fun _ c => (Raised (RuntimeError "handler failed"), c).

(** A sensor source that finds no sensor, as the lifecycle test installs. *)
Definition quiet_monitor : Datatypes.unit -> outcome (list SensorReading.t) * Datatypes.unit :=
  fun env => (Returned [], env).

Definition fresh_world : World Consumer Datatypes.unit :=
  {| service := init quiet_monitor 5; consumer := ([], []); machine := tt;
     calls := [] |}.

(** Two reading-callbacks, the first of which always raises, and two
    error-callbacks, the first of which always raises. *)
Definition sample_world : World Consumer Datatypes.unit :=
  snd ((register_reading_callback broken_reader ;;
        register_reading_callback record_batch ;;
        register_error_callback broken_handler ;;
        register_error_callback record_error)%stmt fresh_world).

(** A source without the sensors tool, and one that fails in an unforeseen
    way. *)
Definition unavailable_monitor
  : Datatypes.unit -> outcome (list SensorReading.t) * Datatypes.unit :=
  fun env => (Raised (RuntimeError "lm_sensors is not available on this system"), env).

Definition broken_monitor
  : Datatypes.unit -> outcome (list SensorReading.t) * Datatypes.unit :=
  fun env => (Raised (ValueError "unexpected output"), env).

Definition world_with (source : Datatypes.unit -> outcome (list SensorReading.t) * Datatypes.unit)
  : World Consumer Datatypes.unit :=
  {| service := init source 5; consumer := ([], []); machine := tt; calls := [] |}.

(** One caller, the service started. *)
Definition started (w : World Consumer Datatypes.unit) : System Consumer Datatypes.unit :=
  start_monitoring (boot w 1).

Definition batch_a : list SensorReading.t := [sample_reading 44 sample_now].
Definition batch_b : list SensorReading.t := [sample_reading 45 (sample_now + 5000000)%Z].

(** ** hardware_monitor.py: HardwareMonitor as written

    A [str] is held as its UTF-8 bytes.  The tests the module makes on
    names look for ASCII text ([in], [startswith], [endswith]) and give the
    same answer on the bytes as on the characters; [+] on strings is [++]
    on the bytes.  What depends on the Unicode tables ([str.lower],
    [str.strip]) or on the machine is a function of the [Runtime]. *)

Module Str.

(** [s.startswith(p)] *)
Definition startswith (s p : string) : bool := String.prefix p s.

(** [s.endswith(suffix)] *)
Fixpoint endswith (s suffix : string) : bool :=
  String.eqb s suffix
  || match s with
     | EmptyString => false
     | String _ s' => endswith s' suffix
     end.

(** [sub in s] *)
Fixpoint contains (s sub : string) : bool :=
  String.prefix sub s
  || match s with
     | EmptyString => false
     | String _ s' => contains s' sub
     end.

(** [str.lower] on ASCII text: [A-Z] to [a-z], the rest as it is. *)
Definition ascii_lower_char (c : Ascii.ascii) : Ascii.ascii :=
  let n := Ascii.nat_of_ascii c in
  if ((65 <=? n) && (n <=? 90))%nat then Ascii.ascii_of_nat (n + 32) else c.

Fixpoint ascii_lower (s : string) : string :=
  match s with
  | EmptyString => EmptyString
  | String c s' => String (ascii_lower_char c) (ascii_lower s')
  end.

(** [s.isascii()] *)
Fixpoint isascii (s : string) : bool :=
  match s with
  | EmptyString => true
  | String c s' => (Ascii.nat_of_ascii c <? 128)%nat && isascii s'
  end.

(** [str.strip] on ASCII text: the blanks are the characters 9 to 13 and
    28 to 32. *)
Definition ascii_isspace (c : Ascii.ascii) : bool :=
  let n := Ascii.nat_of_ascii c in
  (((9 <=? n) && (n <=? 13)) || ((28 <=? n) && (n <=? 32)))%nat.

Fixpoint lstrip (s : string) : string :=
  match s with
  | EmptyString => EmptyString
  | String c s' => if ascii_isspace c then lstrip s' else s
  end.

Fixpoint rstrip (s : string) : string :=
  match s with
  | EmptyString => EmptyString
  | String c s' =>
      match rstrip s' with
      | EmptyString => if ascii_isspace c then EmptyString else String c EmptyString
      | kept => String c kept
      end
  end.

Definition ascii_strip (s : string) : string := rstrip (lstrip s).

End Str.

(** The class [HardwareMonitor], method by method; the module
    [HardwareMonitor] above is what the service needs to know of it. *)
Module LmSensors.

(** What [json.loads] returns. *)
#[warnings="-register-all"]
Inductive Json : Type :=
| JNull
| JBool (b : bool)
| JInt (z : Z)
| JFloat (f : float)
| JStr (s : string)
| JList (items : list Json)
| JDict (items : list (string * Json)).

(** [subprocess.CompletedProcess], run with [capture_output=True] and
    [text=True]. *)
Record CompletedProcess : Type := mkCompletedProcess {
  returncode : Z;
  stdout : string;
  stderr : string
}.

(** The library calls of the module.  [Env] is the state of the machine. *)
Record Runtime (Env : Type) : Type := mkRuntime {
  (** [shutil.which(cmd)] *)
  shutil_which : string -> Env -> option string;
  (** [subprocess.run(args, check=False, capture_output=True, text=True,
      timeout=10)] *)
  subprocess_run : list string -> Env -> outcome CompletedProcess * Env;
  (** [json.loads(s)] *)
  json_loads : string -> outcome Json;
  (** [datetime.now()] *)
  datetime_now : Env -> datetime * Env;
  (** [s.lower()] and [s.strip()] *)
  str_lower : string -> string;
  str_strip : string -> string;
  (** [str(value)] for a decoded value that is not a [str] *)
  str_of : Json -> string
}.

(** [float(n)] for an [int]: the nearest double, ties to even;
    [OverflowError] when that is beyond the largest double. *)
Definition float_of_int (n : Z) : outcome float :=
  let f := SF2Prim (binary_normalize prec emax n 0 false) in
  if is_infinity f
  then Raised (OverflowError "int too large to convert to float")
  else Returned f.

(** The object: [lm_sensors_available] is set by [__init__] and never
    assigned again. *)
Record t : Type := mk {
  lm_sensors_available : bool
}.

Section Monitor.
Context {Env : Type}.
Variable rt : Runtime Env.

Definition _check_lm_sensors_availability (env : Env) : bool :=
  match shutil_which rt "sensors" env with
  | Some _ => true
  | None => false
  end.

(** [HardwareMonitor()] *)
Definition init (env : Env) : t :=
  {| lm_sensors_available := _check_lm_sensors_availability env |}.

(** [raise RuntimeError(...) from exc] keeps [exc] as the cause of the new
    exception; the cause is not part of an [Exception] here.  [f"{exc}"] is
    the message of [exc]. *)
Definition _execute_sensors_command (self : t) (env : Env) : outcome string * Env :=
  if negb (lm_sensors_available self)
  then (Raised (RuntimeError "lm_sensors is not available on this system"), env)
  else
    match subprocess_run rt ["sensors"; "-j"] env with
    | (Raised exc, env') =>
        if isinstance exc "TimeoutExpired"
        then (Raised (RuntimeError "Timeout while executing sensors command"), env')
        else if isinstance exc "OSError"
        then (Raised (RuntimeError ("Error executing sensors command: " ++ exc_msg exc)),
              env')
        else (Raised exc, env')
    | (Returned result, env') =>
        if negb (returncode result =? 0)%Z
        then (Raised (RuntimeError ("sensors command failed: "
                                    ++ str_strip rt (stderr result))), env')
        else (Returned (stdout result), env')
    end.

Definition get_raw_sensor_data (self : t) (env : Env)
  : outcome (option (dict Json)) * Env :=
  match _execute_sensors_command self env with
  | (Raised exc, env') => (Raised exc, env')
  | (Returned output, env') =>
      if String.eqb output ""
      then (Returned None, env')
      else
        match json_loads rt output with
        | Raised exc =>
            if isinstance exc "JSONDecodeError"
            then (Raised (RuntimeError ("Failed to parse sensor data as JSON: "
                                        ++ exc_msg exc)), env')
            else (Raised exc, env')
        | Returned (JDict data) => (Returned (Some data), env')
        | Returned _ =>
            (Raised (RuntimeError
                       "Unexpected sensors output format: expected top-level JSON object"),
             env')
        end
  end.

Definition _is_temperature_input (feature_name subfeature_name : string) : bool :=
  let subfeature := str_lower rt subfeature_name in
  let feature := str_lower rt feature_name in
  if negb (Str.endswith subfeature "_input")
  then false
  else if Str.contains subfeature "temp" || Str.startswith feature "temp"
  then true
  else Str.startswith feature "tctl" || Str.startswith feature "tdie".

Definition _determine_sensor_type (chip_name : string) : string :=
  let chip_lower := str_lower rt chip_name in
  if Str.contains chip_lower "cpu" || Str.contains chip_lower "core"
     || Str.contains chip_lower "k10temp"
  then "CPU"
  else if Str.contains chip_lower "gpu" || Str.contains chip_lower "nvidia"
          || Str.contains chip_lower "amdgpu"
  then "GPU"
  else if Str.contains chip_lower "nvme" || Str.contains chip_lower "drivetemp"
  then "HDD/SSD"
  else "Motherboard".

(** [str(feature_data.get("label", feature_name))] *)
Definition label_of (feature_data : dict Json) (feature_name : string) : string :=
  match get feature_data "label" with
  | None => feature_name
  | Some (JStr s) => s
  | Some value => str_of rt value
  end.

(** [float(value)] for a [value] with [isinstance(value, (int, float))],
    [None] for any other: a [bool] is an [int], [True] being 1. *)
Definition number_to_float (value : Json) : option (outcome float) :=
  match value with
  | JInt z => Some (float_of_int z)
  | JBool b => Some (float_of_int (if b then 1 else 0))
  | JFloat f => Some (Returned f)
  | _ => None
  end.

(** The innermost [for] of [parse_sensor_data].  The arguments of
    [SensorReading(...)] are evaluated in the order written: [float(value)]
    before [datetime.now()]. *)
Fixpoint for_subfeatures (chip_name sensor_type feature_name label : string)
    (items : dict Json) (readings : list SensorReading.t) (env : Env)
  : outcome (list SensorReading.t) * Env :=
  match items with
  | [] => (Returned readings, env)
  | (subfeature_name, value) :: rest =>
      if negb (_is_temperature_input feature_name subfeature_name)
      then for_subfeatures chip_name sensor_type feature_name label rest readings env
      else
        match number_to_float value with
        | None => for_subfeatures chip_name sensor_type feature_name label rest readings env
        | Some (Raised exc) => (Raised exc, env)
        | Some (Returned v) =>
            let (timestamp, env') := datetime_now rt env in
            for_subfeatures chip_name sensor_type feature_name label rest
              (readings
               ++ [{| SensorReading.name :=
                        chip_name ++ "_" ++ feature_name ++ "_" ++ subfeature_name;
                      SensorReading.label := label;
                      SensorReading.value := v;
                      SensorReading.unit := "Â°C";
                      SensorReading.timestamp := timestamp;
                      SensorReading.sensor_type := sensor_type |}])
              env'
        end
  end.

(** The [for] over [chip_data.items()]. *)
Fixpoint for_features (chip_name sensor_type : string)
    (items : dict Json) (readings : list SensorReading.t) (env : Env)
  : outcome (list SensorReading.t) * Env :=
  match items with
  | [] => (Returned readings, env)
  | (feature_name, JDict feature_data) :: rest =>
      match for_subfeatures chip_name sensor_type feature_name
              (label_of feature_data feature_name) feature_data readings env with
      | (Raised exc, env') => (Raised exc, env')
      | (Returned readings', env') =>
          for_features chip_name sensor_type rest readings' env'
      end
  | _ :: rest => for_features chip_name sensor_type rest readings env
  end.

(** The [for] over [raw_data.items()]. *)
Fixpoint for_chips (items : dict Json) (readings : list SensorReading.t) (env : Env)
  : outcome (list SensorReading.t) * Env :=
  match items with
  | [] => (Returned readings, env)
  | (chip_name, JDict chip_data) :: rest =>
      match for_features chip_name (_determine_sensor_type chip_name) chip_data
              readings env with
      | (Raised exc, env') => (Raised exc, env')
      | (Returned readings', env') => for_chips rest readings' env'
      end
  | _ :: rest => for_chips rest readings env
  end.

Definition parse_sensor_data (raw_data : dict Json) (env : Env)
  : outcome (list SensorReading.t) * Env :=
  for_chips raw_data [] env.

(** [if raw_data:] holds for a dict with an item. *)
Definition get_current_readings (self : t) (env : Env)
  : outcome (list SensorReading.t) * Env :=
  match get_raw_sensor_data self env with
  | (Raised exc, env') => (Raised exc, env')
  | (Returned (Some (item :: items)), env') => parse_sensor_data (item :: items) env'
  | (Returned _, env') => (Returned [], env')
  end.

(** *** What a parse is made of *)

(** A temperature input of a document: where it stands, the label of its
    feature and what [float(value)] gives. *)
Record Input : Type := mkInput {
  in_chip : string;
  in_feature : string;
  in_subfeature : string;
  in_label : string;
  in_value : outcome float
}.

Definition inputs_of_feature (chip_name feature_name : string) (feature_data : dict Json)
  : list Input :=
  flat_map
    (fun item : string * Json =>
       if _is_temperature_input feature_name (fst item)
       then match number_to_float (snd item) with
            | Some v => [mkInput chip_name feature_name (fst item)
                                 (label_of feature_data feature_name) v]
            | None => []
            end
       else [])
    feature_data.

Definition inputs_of_chip (chip_name : string) (chip_data : dict Json) : list Input :=
  flat_map
    (fun item : string * Json =>
       match snd item with
       | JDict feature_data => inputs_of_feature chip_name (fst item) feature_data
       | _ => []
       end)
    chip_data.

(** The temperature inputs of a document that are numbers, in the order of
    the document. *)
Definition temperature_inputs (raw_data : dict Json) : list Input :=
  flat_map
    (fun item : string * Json =>
       match snd item with
       | JDict chip_data => inputs_of_chip (fst item) chip_data
       | _ => []
       end)
    raw_data.

(** The reading of an input whose value is [v], stamped [timestamp]. *)
Definition reading_of (i : Input) (v : float) (timestamp : datetime) : SensorReading.t :=
  {| SensorReading.name := in_chip i ++ "_" ++ in_feature i ++ "_" ++ in_subfeature i;
     SensorReading.label := in_label i;
     SensorReading.value := v;
     SensorReading.unit := "Â°C";
     SensorReading.timestamp := timestamp;
     SensorReading.sensor_type := _determine_sensor_type (in_chip i) |}.

(** One pass over inputs: convert, read the clock, build the reading; stop
    at the first value that does not convert. *)
Fixpoint stamp (inputs : list Input) (env : Env) : outcome (list SensorReading.t) * Env :=
  match inputs with
  | [] => (Returned [], env)
  | i :: rest =>
      match in_value i with
      | Raised exc => (Raised exc, env)
      | Returned v =>
          let (timestamp, env') := datetime_now rt env in
          match stamp rest env' with
          | (Raised exc, env'') => (Raised exc, env'')
          | (Returned readings, env'') => (Returned (reading_of i v timestamp :: readings), env'')
          end
      end
  end.

(** [n] readings of the clock in a row. *)
Fixpoint clock_reads (n : nat) (env : Env) : list datetime * Env :=
  match n with
  | O => ([], env)
  | S n' =>
      let (timestamp, env') := datetime_now rt env in
      let (later, env'') := clock_reads n' env' in
      (timestamp :: later, env'')
  end.

(** Two readings of the clock in a row never go back in time. *)
Definition clock_never_goes_back : Prop :=
  forall env,
    (fst (datetime_now rt env) <= fst (datetime_now rt (snd (datetime_now rt env))))%Z.

(** [str.lower] does on ASCII text what it is known to do there. *)
Definition lowers_ascii : Prop :=
  forall s, Str.isascii s = true -> str_lower rt s = Str.ascii_lower s.

(** The lowered name of a chip has [marker] in it. *)
Definition mentions (chip_name marker : string) : Prop :=
  exists head tail : string, str_lower rt chip_name = (head ++ marker ++ tail)%string.

(** No document the decoder gives holds a temperature input that [float]
    rejects. *)
Definition decoded_numbers_fit_a_double : Prop :=
  forall text data i,
    json_loads rt text = Returned (JDict data) ->
    In i (temperature_inputs data) ->
    exists v, in_value i = Returned v.

(** The failures of the library calls are those their documentation gives:
    [subprocess.run] raises [TimeoutExpired] or an [OSError], [json.loads]
    raises [JSONDecodeError]. *)
Definition documented_failures : Prop :=
  (forall args env exc env',
     subprocess_run rt args env = (Raised exc, env') ->
     isinstance exc "TimeoutExpired" = true \/ isinstance exc "OSError" = true)
  /\ (forall text exc,
        json_loads rt text = Raised exc -> isinstance exc "JSONDecodeError" = true).

End Monitor.
End LmSensors.

(** ** A sample machine for the sensor source *)

Definition TimeoutExpired (msg : string) : Exception :=
  mkException "TimeoutExpired" ["SubprocessError"] msg.

Definition FileNotFoundError (msg : string) : Exception :=
  mkException "FileNotFoundError" ["OSError"] msg.

Definition JSONDecodeError (msg : string) : Exception :=
  mkException "JSONDecodeError" ["ValueError"] msg.

(** What running [sensors -j] comes to. *)
Inductive ToolRun : Type :=
| Exits (result : LmSensors.CompletedProcess)
| HangsTooLong
| CannotStart.

Record Machine : Type := mkMachine {
  sensors_installed : bool;
  clock : datetime;
  sensors_run : ToolRun
}.

(** [s] between double quotes. *)
Definition quoted (s : string) : string :=
  String (Ascii.ascii_of_nat 34) (s ++ String (Ascii.ascii_of_nat 34) EmptyString).

(** The output of [sensors -j] on a machine with an AMD processor and an
    NVMe drive, and what [json.loads] makes of it. *)
Definition sample_output : string :=
  "{" ++ quoted "k10temp-pci-00c3" ++ ": {" ++ quoted "Adapter" ++ ": "
  ++ quoted "PCI adapter" ++ ", " ++ quoted "Tctl" ++ ": {" ++ quoted "temp1_input"
  ++ ": 45.5}}, " ++ quoted "nvme-pci-0100" ++ ": {" ++ quoted "Composite" ++ ": {"
  ++ quoted "temp1_input" ++ ": 38, " ++ quoted "temp1_max" ++ ": 81.5}}}".

Definition sample_document : dict LmSensors.Json :=
  [("k10temp-pci-00c3",
    LmSensors.JDict [("Adapter", LmSensors.JStr "PCI adapter");
                     ("Tctl", LmSensors.JDict [("temp1_input", LmSensors.JFloat 45.5)])]);
   ("nvme-pci-0100",
    LmSensors.JDict [("Composite",
                      LmSensors.JDict [("temp1_input", LmSensors.JInt 38);
                                       ("temp1_max", LmSensors.JFloat 81.5)])])].

(** An output with a temperature of 1 followed by 400 zeros. *)
Definition oversized_output : string :=
  "{" ++ quoted "k10temp-pci-00c3" ++ ": {" ++ quoted "Tctl" ++ ": {"
  ++ quoted "temp1_input" ++ ": 1" ++ String.concat "" (repeat "0" 400) ++ "}}}".

Definition oversized_document : dict LmSensors.Json :=
  [("k10temp-pci-00c3",
    LmSensors.JDict [("Tctl", LmSensors.JDict [("temp1_input",
                                               LmSensors.JInt (10 ^ 400))])])].

(** [json.loads] on the texts above. *)
Definition sample_loads (text : string) : outcome LmSensors.Json :=
  if String.eqb text sample_output then Returned (LmSensors.JDict sample_document)
  else if String.eqb text "{}" then Returned (LmSensors.JDict [])
  else if String.eqb text "[]" then Returned (LmSensors.JList [])
  else Raised (JSONDecodeError "Expecting value: line 1 column 1 (char 0)").

Definition oversized_loads (text : string) : outcome LmSensors.Json :=
  if String.eqb text oversized_output then Returned (LmSensors.JDict oversized_document)
  else sample_loads text.

Definition runtime_with (loads : string -> outcome LmSensors.Json)
  : LmSensors.Runtime Machine :=
  {| LmSensors.shutil_which :=
       fun cmd m => if sensors_installed m then Some ("/usr/bin/" ++ cmd)%string else None;
     LmSensors.subprocess_run :=
       fun _ m =>
         (match sensors_run m with
          | Exits result => Returned result
          | HangsTooLong => Raised (TimeoutExpired "Command timed out after 10 seconds")
          | CannotStart =>
              Raised (FileNotFoundError "[Errno 2] No such file or directory")
          end, m);
     LmSensors.json_loads := loads;
     LmSensors.datetime_now :=
       fun m => (clock m,
                 {| sensors_installed := sensors_installed m;
                    clock := (clock m + 1000)%Z;
                    sensors_run := sensors_run m |});
     LmSensors.str_lower := Str.ascii_lower;
     LmSensors.str_strip := Str.ascii_strip;
     LmSensors.str_of := fun _ => "None" |}.

Definition sample_runtime : LmSensors.Runtime Machine := runtime_with sample_loads.

(** A machine whose tool prints [output] and exits with code 0. *)
Definition machine_printing (output : string) : Machine :=
  {| sensors_installed := true; clock := sample_now;
     sensors_run := Exits {| LmSensors.returncode := 0; LmSensors.stdout := output;
                             LmSensors.stderr := "" |} |}.

(** A machine without the tool. *)
Definition bare_machine : Machine :=
  {| sensors_installed := false; clock := sample_now; sensors_run := CannotStart |}.

(** A service on a monitor built on [built_on], now on the machine [m]. *)
Definition service_on (rt : LmSensors.Runtime Machine) (built_on m : Machine)
  : World Consumer Machine :=
  {| service := init (LmSensors.get_current_readings rt (LmSensors.init rt built_on)) 5;
     consumer := ([], []); machine := m; calls := [] |}.

(** The machine [us] microseconds later. *)
Definition later (m : Machine) (us : Z) : Machine :=
  {| sensors_installed := sensors_installed m; clock := (clock m + us)%Z;
     sensors_run := sensors_run m |}.

(** The readings of [sample_document] taken at [sample_now]. *)
Definition sample_readings : list SensorReading.t :=
  [{| SensorReading.name := "k10temp-pci-00c3_Tctl_temp1_input";
      SensorReading.label := "Tctl"; SensorReading.value := 45.5;
      SensorReading.unit := "Â°C"; SensorReading.timestamp := sample_now;
      SensorReading.sensor_type := "CPU" |};
   {| SensorReading.name := "nvme-pci-0100_Composite_temp1_input";
      SensorReading.label := "Composite"; SensorReading.value := 38;
      SensorReading.unit := "Â°C"; SensorReading.timestamp := (sample_now + 1000)%Z;
      SensorReading.sensor_type := "HDD/SSD" |}].

(** A machine whose tool does not answer in time. *)
Definition stuck_machine : Machine :=
  {| sensors_installed := true; clock := sample_now; sensors_run := HangsTooLong |}.

(** * Properties *)

Unset Implicit Arguments.

(** ** TemperatureHistory *)

Section HistoryFacts.

Lemma slice_stop_negative (c len : nat) :
  1 <= c -> slice_stop (- Z.of_nat c) len = len - c.
Proof.
  intros Hc. unfold slice_stop.
  destruct (Z.ltb_spec (- Z.of_nat c) 0) as [_|Hge]; [|lia].
  lia.
Qed.

Lemma slice_stop_zero (len : nat) : slice_stop (- 0) len = 0.
Proof. reflexivity. Qed.

Lemma add_reading_max_size h r : max_size (add_reading h r) = max_size h.
Proof. unfold add_reading. destruct (_ >? _)%Z; reflexivity. Qed.

Lemma fold_add_reading_max_size rs :
  forall h, max_size (fold_left add_reading rs h) = max_size h.
Proof.
  induction rs as [|r rs IH]; intros h; simpl; [reflexivity|].
  rewrite IH. apply add_reading_max_size.
Qed.

(** One append keeps the last [c] of what the list would be without a
    bound, whatever its length was before. *)
Lemma add_reading_last_n (c : nat) h r :
  1 <= c -> max_size h = Z.of_nat c ->
  readings (add_reading h r) = last_n c (readings h ++ [r]).
Proof.
  intros Hc Hm. unfold add_reading, last_n, del_slice_to.
  rewrite Hm.
  destruct (Z.gtb_spec (Z.of_nat (length (readings h ++ [r]))) (Z.of_nat c)) as [Hgt|Hle];
    simpl.
  - rewrite slice_stop_negative by exact Hc. reflexivity.
  - replace (length (readings h ++ [r]) - c) with 0 by lia. reflexivity.
Qed.

Lemma last_n_app_last_n {A : Type} (c : nat) (l rs : list A) :
  last_n c (last_n c l ++ rs) = last_n c (l ++ rs).
Proof.
  unfold last_n.
  assert (Hsk : skipn (length l - c) l ++ rs = skipn (length l - c) (l ++ rs)).
  { rewrite skipn_app. replace (length l - c - length l) with 0 by lia. reflexivity. }
  rewrite Hsk, skipn_skipn. f_equal.
  rewrite length_skipn, !length_app. lia.
Qed.

Lemma length_last_n {A : Type} (c : nat) (l : list A) :
  length (last_n c l) = Nat.min (length l) c.
Proof. unfold last_n. rewrite length_skipn. lia. Qed.

Lemma last_n_fits {A : Type} (c : nat) (l : list A) :
  length l <= c -> last_n c l = l.
Proof.
  intros Hl. unfold last_n. replace (length l - c) with 0 by lia. reflexivity.
Qed.

Lemma fold_add_reading_last_n (c : nat) rs :
  1 <= c -> forall h, max_size h = Z.of_nat c -> length (readings h) <= c ->
  readings (fold_left add_reading rs h) = last_n c (readings h ++ rs).
Proof.
  intros Hc. induction rs as [|r rs IH]; intros h Hm Hl; simpl.
  - rewrite app_nil_r. symmetry. apply last_n_fits, Hl.
  - rewrite IH.
    + rewrite (add_reading_last_n c h r Hc Hm), last_n_app_last_n, <- app_assoc.
      reflexivity.
    + rewrite add_reading_max_size. exact Hm.
    + rewrite (add_reading_last_n c h r Hc Hm), length_last_n. lia.
Qed.

(** With a capacity of at least one, a history that starts empty is a
    sliding window over what was appended. *)
Lemma appended_all_sliding_window (C : Z) (rs : list SensorReading.t) :
  (1 <= C)%Z ->
  readings (appended_all C rs) = last_n (Z.to_nat C) rs
  /\ length (readings (appended_all C rs)) = Nat.min (length rs) (Z.to_nat C)
  /\ forall k, (Z.of_nat (length (readings (appended_all C (firstn k rs)))) <= C)%Z.
Proof.
  intros HC.
  assert (Hw : forall l, readings (appended_all C l) = last_n (Z.to_nat C) l).
  { intros l. unfold appended_all.
    rewrite (fold_add_reading_last_n (Z.to_nat C)); simpl; try lia.
    reflexivity. }
  split; [apply Hw|]. split.
  - rewrite Hw. apply length_last_n.
  - intros k. rewrite Hw, length_last_n. lia.
Qed.

(** The scenario of the specification: capacity 3, values 1 to 5. *)
Example capacity_three_keeps_3_4_5 :
  map SensorReading.value
      (readings (appended_all 3 (map (fun v => sample_reading v sample_now)
                                     [1; 2; 3; 4; 5]%float)))
  = [3; 4; 5]%float.
Proof. reflexivity. Qed.

(** C4, at capacity 0: [-self.max_size] is [0], the slice [[:0]] is empty
    and nothing is ever evicted; the history holds every reading it was
    given and is longer than its capacity from the first append on. *)
Theorem add_reading_capacity_zero_never_evicts (rs : list SensorReading.t) :
  readings (appended_all 0 rs) = rs
  /\ forall r, (Z.of_nat (length (readings (appended_all 0 (r :: rs))))
                > max_size (appended_all 0 (r :: rs)))%Z.
Proof.
  assert (Hstep : forall h r, max_size h = 0%Z ->
                    readings (add_reading h r) = readings h ++ [r]).
  { intros h r Hm. unfold add_reading. rewrite Hm.
    destruct (_ >? _)%Z; reflexivity. }
  assert (Hall : forall l h, max_size h = 0%Z ->
                   readings (fold_left add_reading l h) = readings h ++ l).
  { induction l as [|r l IH]; intros h Hm; simpl.
    - symmetry. apply app_nil_r.
    - rewrite IH by (rewrite add_reading_max_size; exact Hm).
      rewrite (Hstep h r Hm), <- app_assoc. reflexivity. }
  split.
  - unfold appended_all. rewrite Hall by reflexivity. reflexivity.
  - intros r. unfold appended_all.
    rewrite fold_add_reading_max_size, Hall by reflexivity. simpl. lia.
Qed.

(** *** The window query *)

Lemma div_bounds (a b D : Z) :
  (0 < b)%Z -> (- (D * b) <= a <= D * b)%Z -> (- D <= a / b <= D)%Z.
Proof.
  intros Hb Ha.
  pose proof (Z.mul_div_le a b Hb) as Hlo.
  pose proof (Z.mul_succ_div_gt a b Hb) as Hhi.
  revert Hlo Hhi. generalize (a / b)%Z. intros q Hlo Hhi. nia.
Qed.

Lemma timedelta_of_minutes_in_range (now : datetime) (minutes : Z) :
  representable now -> representable (minutes_before now minutes) ->
  timedelta_of_minutes minutes = Returned (minutes * us_per_minute)%Z.
Proof.
  intros Hnow Hthen. unfold timedelta_of_minutes. cbv zeta.
  assert (Hdays : (- timedelta_max_days <= minutes * us_per_minute / us_per_day
                   <= timedelta_max_days)%Z).
  { apply div_bounds; [reflexivity|].
    unfold representable, minutes_before in Hnow, Hthen.
    revert Hnow Hthen. generalize (minutes * us_per_minute)%Z. intros us Hnow Hthen.
    unfold datetime_max, timedelta_max_days, us_per_day in *. lia. }
  destruct Hdays as [Hlo Hhi].
  apply Z.leb_le in Hlo. apply Z.leb_le in Hhi.
  rewrite Hlo, Hhi. reflexivity.
Qed.

Lemma datetime_sub_in_range (now : datetime) (td : timedelta) :
  representable (now - td)%Z -> datetime_sub now td = Returned (now - td)%Z.
Proof.
  unfold representable, datetime_sub. intros [Hlo Hhi].
  destruct (Z.leb_spec 0 (now - td)) as [_|Hbad]; [|lia].
  destruct (Z.leb_spec (now - td) datetime_max) as [_|Hbad]; [|lia].
  reflexivity.
Qed.

Lemma get_readings_for_timeframe_in_range now h minutes :
  representable now -> representable (minutes_before now minutes) ->
  get_readings_for_timeframe now h minutes
  = Returned (filter (fun r => (minutes_before now minutes <=? SensorReading.timestamp r)%Z)
                     (readings h)).
Proof.
  intros Hnow Hthen. unfold get_readings_for_timeframe.
  rewrite (timedelta_of_minutes_in_range now minutes Hnow Hthen).
  rewrite datetime_sub_in_range by exact Hthen. reflexivity.
Qed.

Lemma filter_none {A : Type} (f : A -> bool) (l : list A) :
  (forall x, In x l -> f x = false) -> filter f l = [].
Proof.
  induction l as [|x l IH]; intros H; simpl; [reflexivity|].
  rewrite (H x (or_introl eq_refl)). apply IH. intros y Hy. apply H. right. exact Hy.
Qed.

Lemma filter_all {A : Type} (f : A -> bool) (l : list A) :
  (forall x, In x l -> f x = true) -> filter f l = l.
Proof.
  induction l as [|x l IH]; intros H; simpl; [reflexivity|].
  rewrite (H x (or_introl eq_refl)). f_equal. apply IH. intros y Hy. apply H. right. exact Hy.
Qed.

(** C5, amended: when [now - d] is an instant a [datetime] can hold, the
    query returns the entries stamped at or after it, in their order, so
    nothing when every entry is older than that instant; at [d = 0] it
    returns nothing provided every entry was stamped strictly before [now];
    when no entry is older than [now - d] it returns all of them. *)
Theorem window_query_in_range (now : datetime) (h : TemperatureHistory) (d : Z) :
  representable now -> representable (minutes_before now d) ->
  get_readings_for_timeframe now h d
  = Returned (filter (fun r => (minutes_before now d <=? SensorReading.timestamp r)%Z)
                     (readings h))
  /\ ((forall r, In r (readings h) ->
                 (SensorReading.timestamp r < minutes_before now d)%Z) ->
      get_readings_for_timeframe now h d = Returned [])
  /\ (d = 0%Z ->
      (forall r, In r (readings h) -> (SensorReading.timestamp r < now)%Z) ->
      get_readings_for_timeframe now h d = Returned [])
  /\ ((forall r, In r (readings h) ->
                 (minutes_before now d <= SensorReading.timestamp r)%Z) ->
      get_readings_for_timeframe now h d = Returned (readings h)).
Proof.
  intros Hnow Hthen.
  pose proof (get_readings_for_timeframe_in_range now h d Hnow Hthen) as Heq.
  assert (Hnone : (forall r, In r (readings h) ->
                             (SensorReading.timestamp r < minutes_before now d)%Z) ->
                  get_readings_for_timeframe now h d = Returned []).
  { intros Hold. rewrite Heq. f_equal. apply filter_none.
    intros r Hr. apply Z.leb_gt. apply Hold, Hr. }
  split; [exact Heq|]. split; [exact Hnone|]. split.
  - intros Hd Hold. apply Hnone. intros r Hr. specialize (Hold r Hr).
    subst d. unfold minutes_before. lia.
  - intros Hcover. rewrite Heq. f_equal. apply filter_all.
    intros r Hr. apply Z.leb_le. apply Hcover, Hr.
Qed.

Lemma window_query_in_range_witness :
  let h := appended_all 3 [sample_reading 41 (sample_now - 1)%Z] in
  get_readings_for_timeframe sample_now h 0 = Returned []
  /\ get_readings_for_timeframe sample_now h 60 = Returned (readings h).
Proof.
  assert (Hnow : representable sample_now)
    by (unfold representable; vm_compute; split; discriminate).
  assert (Hzero : representable (minutes_before sample_now 0))
    by (unfold representable; vm_compute; split; discriminate).
  assert (Hhour : representable (minutes_before sample_now 60))
    by (unfold representable; vm_compute; split; discriminate).
  split.
  - apply (proj1 (proj2 (proj2
             (window_query_in_range sample_now
                (appended_all 3 [sample_reading 41 (sample_now - 1)%Z]) 0 Hnow Hzero)))).
    + reflexivity.
    + intros r [Hr|[]]. subst r. vm_compute. reflexivity.
  - apply (proj2 (proj2 (proj2
             (window_query_in_range sample_now
                (appended_all 3 [sample_reading 41 (sample_now - 1)%Z]) 60 Hnow Hhour)))).
    intros r [Hr|[]]. subst r. vm_compute. discriminate.
Defined.

(** C5 as stated fails twice: a reading stamped at the very instant the
    clock shows is returned for [d = 0], and a duration that reaches
    before year 1 makes [datetime.now() - timedelta(...)] raise. *)
Lemma window_query_counterexample :
  get_readings_for_timeframe sample_now
    {| readings := [sample_reading 41 sample_now]; max_size := 1000 |} 0
  = Returned [sample_reading 41 sample_now]
  /\ get_readings_for_timeframe sample_now
       {| readings := [sample_reading 41 sample_now]; max_size := 1000 |} 2000000000
     = Raised (OverflowError "date value out of range").
Proof. split; reflexivity. Qed.

End HistoryFacts.

(** ** Delivery of pending batches and errors *)

Section DrainFacts.
Context {W Env : Type}.
Implicit Types (w : World W Env) (s : ThermalMonitoringService W Env).

Lemma drain_readings_step w :
  drain_readings w =
  match _pending_readings (service w) with
  | [] => (Returned tt, w)
  | batch :: rest =>
      match deliver_readings batch
              (with_service (with_pending_readings rest (service w)) w) with
      | (Returned _, w') => drain_readings w'
      | (Raised e, w') => (Raised e, w')
      end
  end.
Proof.
  funelim (drain_readings w);
    match goal with Heq : _pending_readings _ = _ |- _ => rewrite Heq end;
    try match goal with Heq : deliver_readings _ _ = _ |- _ => rewrite Heq end;
    reflexivity.
Qed.

Lemma drain_errors_step w :
  drain_errors w =
  match _pending_errors (service w) with
  | [] => (Returned tt, w)
  | error :: rest =>
      match deliver_error error
              (with_service (with_pending_errors rest (service w)) w) with
      | (Returned _, w') => drain_errors w'
      | (Raised e, w') => (Raised e, w')
      end
  end.
Proof.
  funelim (drain_errors w);
    match goal with Heq : _pending_errors _ = _ |- _ => rewrite Heq end;
    try match goal with Heq : deliver_error _ _ = _ |- _ => rewrite Heq end;
    reflexivity.
Qed.

Lemma with_pending_errors_same s :
  with_pending_errors (_pending_errors s) s = s.
Proof. destruct s; reflexivity. Qed.

Lemma with_pending_readings_same s :
  with_pending_readings (_pending_readings s) s = s.
Proof. destruct s; reflexivity. Qed.

(** The [for] loop over the reading-callbacks, from registration [start]
    on: it returns, every callback is called once with the batch, and what
    the callbacks raise is appended to the pending errors. *)
Lemma for_reading_callbacks_trace (batch : list SensorReading.t)
    (cbs : list (ReadingCallback W)) :
  forall (start : nat) w,
  exists (tr : list Call) (w' : World W Env),
    for_each (fun ic : nat * ReadingCallback W =>
                try_except (call_reading_callback (fst ic) (snd ic) batch)
                           (fun exc => put_error exc))
             (combine (seq start (length cbs)) cbs) w = (Returned tt, w')
    /\ calls w' = calls w ++ tr
    /\ service w'
       = with_pending_errors
           (_pending_errors (service w) ++ raised_by_reading_callbacks tr) (service w)
    /\ machine w' = machine w
    /\ reading_deliveries tr = map (fun i => (i, batch)) (seq start (length cbs))
    /\ error_deliveries tr = [].
Proof.
  induction cbs as [|cb cbs IH]; intros start w.
  - exists [], w. simpl. unfold ret. rewrite !app_nil_r, with_pending_errors_same.
    repeat split; reflexivity.
  - simpl. unfold bind, try_except, call_reading_callback. simpl.
    destruct (cb batch (consumer w)) as [[[]|e] c].
    + match goal with
      | |- context [for_each ?f ?l ?w1] =>
          destruct (IH (S start) w1) as (tr & w' & Hrun & Hcalls & Hsvc & Hm & Hrd & Herr)
      end.
      exists (ReadingCall start batch (Returned tt) :: tr), w'.
      split; [exact Hrun|].
      simpl in *. rewrite Hcalls, Hsvc, Hm, Hrd, Herr, <- app_assoc.
      repeat split; reflexivity.
    + simpl.
      match goal with
      | |- context [for_each ?f ?l ?w1] =>
          destruct (IH (S start) w1) as (tr & w' & Hrun & Hcalls & Hsvc & Hm & Hrd & Herr)
      end.
      exists (ReadingCall start batch (Raised e) :: tr), w'.
      split; [exact Hrun|].
      simpl in *. rewrite Hcalls, Hsvc, Hm, Hrd, Herr, <- !app_assoc.
      repeat split; reflexivity.
Qed.

(** The same for the error-callbacks; what they raise goes nowhere. *)
Lemma for_error_callbacks_trace (error : Exception) (cbs : list (ErrorCallback W)) :
  forall (start : nat) w,
  exists (tr : list Call) (w' : World W Env),
    for_each (fun jc : nat * ErrorCallback W =>
                try_except (call_error_callback (fst jc) (snd jc) error)
                           (fun _ => ret tt))
             (combine (seq start (length cbs)) cbs) w = (Returned tt, w')
    /\ calls w' = calls w ++ tr
    /\ service w' = service w
    /\ machine w' = machine w
    /\ error_deliveries tr = map (fun j => (j, error)) (seq start (length cbs))
    /\ reading_deliveries tr = []
    /\ raised_by_reading_callbacks tr = [].
Proof.
  induction cbs as [|cb cbs IH]; intros start w.
  - exists [], w. simpl. unfold ret. rewrite !app_nil_r.
    repeat split; reflexivity.
  - simpl. unfold bind, try_except, call_error_callback. simpl.
    destruct (cb error (consumer w)) as [[[]|e] c].
    + match goal with
      | |- context [for_each ?f ?l ?w1] =>
          destruct (IH (S start) w1)
            as (tr & w' & Hrun & Hcalls & Hsvc & Hm & Herr & Hrd & Hraised)
      end.
      exists (ErrorCall start error (Returned tt) :: tr), w'.
      split; [exact Hrun|].
      simpl in *. rewrite Hcalls, Hsvc, Hm, Hrd, Herr, Hraised, <- app_assoc.
      repeat split; reflexivity.
    + unfold ret at 1.
      match goal with
      | |- context [for_each ?f ?l ?w1] =>
          destruct (IH (S start) w1)
            as (tr & w' & Hrun & Hcalls & Hsvc & Hm & Herr & Hrd & Hraised)
      end.
      exists (ErrorCall start error (Raised e) :: tr), w'.
      split; [exact Hrun|].
      simpl in *. rewrite Hcalls, Hsvc, Hm, Hrd, Herr, Hraised, <- app_assoc.
      repeat split; reflexivity.
Qed.

Lemma raised_app (l1 l2 : list Call) :
  raised_by_reading_callbacks (l1 ++ l2)
  = raised_by_reading_callbacks l1 ++ raised_by_reading_callbacks l2.
Proof. apply flat_map_app. Qed.

Lemma reading_deliveries_app (l1 l2 : list Call) :
  reading_deliveries (l1 ++ l2) = reading_deliveries l1 ++ reading_deliveries l2.
Proof. apply flat_map_app. Qed.

Lemma error_deliveries_app (l1 l2 : list Call) :
  error_deliveries (l1 ++ l2) = error_deliveries l1 ++ error_deliveries l2.
Proof. apply flat_map_app. Qed.

(** The first loop: it returns with the queue of batches empty, having
    called every reading-callback with every batch, batch by batch, and
    having queued what was raised. *)
Lemma drain_readings_trace (q : list (list SensorReading.t)) :
  forall w, _pending_readings (service w) = q ->
  exists (tr : list Call) (w' : World W Env),
    drain_readings w = (Returned tt, w')
    /\ calls w' = calls w ++ tr
    /\ service w'
       = with_pending_errors
           (_pending_errors (service w) ++ raised_by_reading_callbacks tr)
           (with_pending_readings [] (service w))
    /\ machine w' = machine w
    /\ reading_deliveries tr
       = each_to_all (length (reading_callbacks (service w))) q
    /\ error_deliveries tr = [].
Proof.
  induction q as [|batch rest IH]; intros w Hq; rewrite drain_readings_step, Hq.
  - exists [], w. destruct w as [s c m l]; destruct s; simpl in *; subst.
    rewrite !app_nil_r. repeat split; reflexivity.
  - unfold deliver_readings, indexed.
    destruct (for_reading_callbacks_trace batch
                (reading_callbacks (service w)) 0
                (with_service (with_pending_readings rest (service w)) w))
      as (tr1 & w2 & Hrun & Hcalls1 & Hsvc1 & Hm1 & Hrd1 & Herr1).
    cbn [service with_service reading_callbacks with_pending_readings].
    rewrite Hrun.
    destruct (IH w2) as (tr2 & w' & Hdrain & Hcalls2 & Hsvc2 & Hm2 & Hrd2 & Herr2).
    { rewrite Hsvc1. reflexivity. }
    rewrite Hsvc1 in Hsvc2, Hrd2. simpl in Hsvc2, Hrd2.
    exists (tr1 ++ tr2), w'. split; [exact Hdrain|].
    rewrite Hcalls2, Hcalls1, Hsvc2, Hm2, Hm1.
    rewrite raised_app, reading_deliveries_app, error_deliveries_app.
    rewrite Hrd1, Hrd2, Herr1, Herr2.
    simpl. rewrite <- !app_assoc.
    repeat split; reflexivity.
Qed.

(** The second loop: it returns with the queue of errors empty, having
    called every error-callback with every error, error by error. *)
Lemma drain_errors_trace (q : list Exception) :
  forall w, _pending_errors (service w) = q ->
  exists (tr : list Call) (w' : World W Env),
    drain_errors w = (Returned tt, w')
    /\ calls w' = calls w ++ tr
    /\ service w' = with_pending_errors [] (service w)
    /\ machine w' = machine w
    /\ error_deliveries tr
       = each_to_all (length (error_callbacks (service w))) q
    /\ reading_deliveries tr = [].
Proof.
  induction q as [|error rest IH]; intros w Hq; rewrite drain_errors_step, Hq.
  - exists [], w. destruct w as [s c m l]; destruct s; simpl in *; subst.
    rewrite !app_nil_r. repeat split; reflexivity.
  - unfold deliver_error, indexed.
    destruct (for_error_callbacks_trace error
                (error_callbacks (service w)) 0
                (with_service (with_pending_errors rest (service w)) w))
      as (tr1 & w2 & Hrun & Hcalls1 & Hsvc1 & Hm1 & Herr1 & Hrd1 & _).
    cbn [service with_service error_callbacks with_pending_errors].
    rewrite Hrun.
    destruct (IH w2) as (tr2 & w' & Hdrain & Hcalls2 & Hsvc2 & Hm2 & Herr2 & Hrd2).
    { rewrite Hsvc1. reflexivity. }
    rewrite Hsvc1 in Hsvc2, Herr2. simpl in Hsvc2, Herr2.
    exists (tr1 ++ tr2), w'. split; [exact Hdrain|].
    rewrite Hcalls2, Hcalls1, Hsvc2, Hm2, Hm1.
    rewrite reading_deliveries_app, error_deliveries_app.
    rewrite Hrd1, Hrd2, Herr1, Herr2.
    simpl. rewrite <- !app_assoc.
    repeat split; reflexivity.
Qed.

(** A drain as a whole. *)
Lemma process_pending_callbacks_trace w :
  exists (rtr etr : list Call) (w' : World W Env),
    process_pending_callbacks w = (Returned tt, w')
    /\ calls w' = calls w ++ rtr ++ etr
    /\ service w' = with_pending_errors [] (with_pending_readings [] (service w))
    /\ machine w' = machine w
    /\ reading_deliveries rtr
       = each_to_all (length (reading_callbacks (service w))) (_pending_readings (service w))
    /\ error_deliveries rtr = []
    /\ reading_deliveries etr = []
    /\ error_deliveries etr
       = each_to_all (length (error_callbacks (service w)))
           (_pending_errors (service w) ++ raised_by_reading_callbacks rtr).
Proof.
  destruct (drain_readings_trace (_pending_readings (service w)) w eq_refl)
    as (rtr & w1 & Hrun1 & Hcalls1 & Hsvc1 & Hm1 & Hrd1 & Herr1).
  destruct (drain_errors_trace (_pending_errors (service w1)) w1 eq_refl)
    as (etr & w' & Hrun2 & Hcalls2 & Hsvc2 & Hm2 & Herr2 & Hrd2).
  exists rtr, etr, w'.
  unfold process_pending_callbacks, bind. rewrite Hrun1, Hrun2.
  rewrite Hsvc1 in Hsvc2, Herr2. simpl in Hsvc2, Herr2.
  rewrite Hcalls2, Hcalls1, Hsvc2, Hm2, Hm1, Hrd1, Herr1, Hrd2, Herr2, <- app_assoc.
  repeat split; reflexivity.
Qed.

Lemma no_delivery_no_call (tr : list Call) :
  reading_deliveries tr = [] -> error_deliveries tr = [] -> tr = [].
Proof.
  destruct tr as [|[i batch o|j error o] tr]; simpl; intros Hr He;
    [reflexivity | discriminate Hr | discriminate He].
Qed.

Lemma filter_seq_eqb (i start len : nat) :
  start <= i < start + len ->
  filter (fun k => Nat.eqb k i) (seq start len) = [i].
Proof.
  revert start. induction len as [|len IH]; intros start Hi; [lia|].
  simpl. destruct (Nat.eqb_spec start i) as [->|Hne].
  - f_equal. apply filter_none. intros k Hk. apply in_seq in Hk.
    apply Nat.eqb_neq. lia.
  - apply IH. lia.
Qed.

(** Of the calls [each_to_all] lists, registration [i] gets every item once,
    in order. *)
Lemma each_to_all_at {A : Type} (n i : nat) (xs : list A) :
  i < n ->
  map snd (filter (fun d => Nat.eqb (fst d) i) (each_to_all n xs)) = xs.
Proof.
  intros Hi. unfold each_to_all. induction xs as [|x xs IH]; [reflexivity|].
  simpl. rewrite filter_app, map_app, IH. 
  assert (Hx : filter (fun d : nat * A => Nat.eqb (fst d) i)
                      (map (fun k => (k, x)) (seq 0 n)) = [(i, x)]).
  { assert (Hmap : forall l, filter (fun d : nat * A => Nat.eqb (fst d) i)
                                    (map (fun k => (k, x)) l)
                             = map (fun k => (k, x)) (filter (fun k => Nat.eqb k i) l)).
    { induction l as [|k l IHl]; [reflexivity|]. simpl.
      destruct (Nat.eqb k i); simpl; rewrite IHl; reflexivity. }
    rewrite Hmap, filter_seq_eqb by lia. reflexivity. }
  rewrite Hx. reflexivity.
Qed.

Lemma for_each_put_readings (batches : list (list SensorReading.t)) :
  forall w,
    for_each put_readings batches w
    = (Returned tt,
       with_service (with_pending_readings (_pending_readings (service w) ++ batches)
                                           (service w)) w).
Proof.
  induction batches as [|batch batches IH]; intros w; simpl.
  - unfold ret. rewrite app_nil_r, with_pending_readings_same.
    destruct w; reflexivity.
  - unfold bind, put_readings, modify_service. rewrite IH. simpl.
    rewrite <- app_assoc. reflexivity.
Qed.

Lemma skipn_length_app {A : Type} (l tr : list A) :
  skipn (length l) (l ++ tr) = tr.
Proof.
  rewrite skipn_app, skipn_all, Nat.sub_diag. reflexivity.
Qed.

Lemma in_each_to_all {A : Type} (n j : nat) (x : A) (xs : list A) :
  j < n -> In x xs -> In (j, x) (each_to_all n xs).
Proof.
  intros Hj Hx. unfold each_to_all. apply in_flat_map. exists x. split; [exact Hx|].
  apply in_map_iff. exists j. split; [reflexivity|]. apply in_seq. lia.
Qed.

Lemma in_raised (i : nat) (batch : list SensorReading.t) (e : Exception)
    (tr : list Call) :
  In (ReadingCall i batch (Raised e)) tr -> In e (raised_by_reading_callbacks tr).
Proof.
  intros Hin. unfold raised_by_reading_callbacks. apply in_flat_map.
  exists (ReadingCall i batch (Raised e)). split; [exact Hin|]. left. reflexivity.
Qed.

(** A call to a reading-callback is none of the calls of a part of the
    record that holds no reading delivery. *)
Lemma reading_call_not_in (i : nat) (batch : list SensorReading.t) (o : outcome unit)
    (tr : list Call) :
  reading_deliveries tr = [] -> ~ In (ReadingCall i batch o) tr.
Proof.
  intros Hnone Hin.
  assert (Hd : In (i, batch) (reading_deliveries tr)).
  { unfold reading_deliveries. apply in_flat_map.
    exists (ReadingCall i batch o). split; [exact Hin|]. left. reflexivity. }
  rewrite Hnone in Hd. exact Hd.
Qed.

(** C1: after the batches were put on the queue, one drain calls every
    registration of a reading-callback once with each batch waiting, oldest
    first (with an empty queue before the puts: exactly the [N] batches put,
    in the order of the puts), and a second drain right after makes no
    call at all. *)
Theorem drain_calls_each_reading_callback_once_per_batch
    (w0 : World W Env) (batches : list (list SensorReading.t)) (i : nat) :
  i < length (reading_callbacks (service w0)) ->
  let w := snd (for_each put_readings batches w0) in
  let w' := snd (process_pending_callbacks w) in
  fst (process_pending_callbacks w) = Returned tt
  /\ calls w' = calls w ++ calls_made_by process_pending_callbacks w
  /\ delivered_to i (calls_made_by process_pending_callbacks w)
     = _pending_readings (service w0) ++ batches
  /\ fst (process_pending_callbacks w') = Returned tt
  /\ calls_made_by process_pending_callbacks w' = [].
Proof.
  intros Hi. rewrite for_each_put_readings. cbn zeta. cbn [snd].
  set (w := with_service _ w0).
  destruct (process_pending_callbacks_trace w)
    as (rtr & etr & w' & Hrun & Hcalls & Hsvc & Hm & Hrd & Her & Hrd' & Her').
  destruct (process_pending_callbacks_trace w')
    as (rtr2 & etr2 & w'' & Hrun2 & Hcalls2 & Hsvc2 & Hm2 & Hrd2 & Her2 & Hrd2' & Her2').
  unfold calls_made_by. rewrite Hrun. cbn [fst snd]. rewrite Hrun2. cbn [fst snd].
  rewrite Hcalls2, Hcalls, !skipn_length_app.
  rewrite Hsvc in Hrd2, Her2'. cbn in Hrd2, Her2'.
  assert (Hnil : rtr2 = []) by (apply no_delivery_no_call; assumption).
  subst rtr2. cbn in Her2'.
  assert (Hnil : etr2 = []) by (apply no_delivery_no_call; assumption).
  subst etr2.
  repeat split.
  unfold delivered_to. rewrite reading_deliveries_app, Hrd, Hrd', app_nil_r.
  subst w. cbn [service with_service reading_callbacks with_pending_readings
                _pending_readings].
  apply each_to_all_at, Hi.
Qed.

(** C2: whatever the reading-callbacks raise, the first loop of a drain
    returns with every waiting batch delivered to every registration, batch by
    batch, and with the pending errors extended by what was raised, one
    error for each call that raised, in the order of the calls; the drain
    goes on from there with the errors. *)
Theorem raising_reading_callback_is_queued_once_and_skipped (w : World W Env) :
  let w1 := snd (drain_readings w) in
  fst (drain_readings w) = Returned tt
  /\ process_pending_callbacks w = drain_errors w1
  /\ calls w1 = calls w ++ calls_made_by drain_readings w
  /\ reading_deliveries (calls_made_by drain_readings w)
     = each_to_all (length (reading_callbacks (service w))) (_pending_readings (service w))
  /\ _pending_errors (service w1)
     = _pending_errors (service w)
       ++ raised_by_reading_callbacks (calls_made_by drain_readings w)
  /\ _pending_readings (service w1) = [].
Proof.
  destruct (drain_readings_trace (_pending_readings (service w)) w eq_refl)
    as (tr & w1 & Hrun & Hcalls & Hsvc & Hm & Hrd & Herr).
  unfold process_pending_callbacks, bind, calls_made_by.
  rewrite Hrun. cbn [fst snd]. rewrite Hcalls, skipn_length_app, Hsvc.
  repeat split. exact Hrd.
Qed.

(** C3: whatever the error-callbacks raise, the second loop of a drain
    returns, having called every registration of an error-callback with every
    waiting error, error by error; nothing of what they raised is kept, and
    the drain itself returns. *)
Theorem raising_error_callback_is_discarded (w : World W Env) :
  let w' := snd (drain_errors w) in
  fst (drain_errors w) = Returned tt
  /\ fst (process_pending_callbacks w) = Returned tt
  /\ calls w' = calls w ++ calls_made_by drain_errors w
  /\ error_deliveries (calls_made_by drain_errors w)
     = each_to_all (length (error_callbacks (service w))) (_pending_errors (service w))
  /\ _pending_errors (service w') = []
  /\ _pending_readings (service w') = _pending_readings (service w).
Proof.
  destruct (drain_errors_trace (_pending_errors (service w)) w eq_refl)
    as (tr & w' & Hrun & Hcalls & Hsvc & Hm & Herr & Hrd).
  destruct (process_pending_callbacks_trace w) as (rtr & etr & w2 & Hall & _).
  unfold calls_made_by.
  rewrite Hrun, Hall. cbn [fst snd]. rewrite Hcalls, skipn_length_app, Hsvc.
  repeat split. exact Herr.
Qed.

(** C10: an error that a reading-callback raised during a drain is handed
    to every registration of an error-callback by that same drain, after all
    the calls to reading-callbacks, and no error is left waiting when the
    drain returns. *)
Theorem callback_error_is_delivered_by_the_same_drain
    (w : World W Env) (i : nat) (batch : list SensorReading.t) (e : Exception)
    (j : nat) :
  In (ReadingCall i batch (Raised e)) (calls_made_by process_pending_callbacks w) ->
  j < length (error_callbacks (service w)) ->
  In e (errors_delivered_to j (calls_made_by process_pending_callbacks w))
  /\ _pending_errors (service (snd (process_pending_callbacks w))) = []
  /\ exists rtr etr : list Call,
       calls_made_by process_pending_callbacks w = rtr ++ etr
       /\ In (ReadingCall i batch (Raised e)) rtr
       /\ error_deliveries rtr = []
       /\ reading_deliveries etr = []
       /\ In (j, e) (error_deliveries etr).
Proof.
  intros Hin Hj.
  destruct (process_pending_callbacks_trace w)
    as (rtr & etr & w' & Hrun & Hcalls & Hsvc & Hm & Hrd & Her & Hrd' & Her').
  unfold calls_made_by in *. rewrite Hrun in *. cbn [fst snd] in *.
  rewrite Hcalls, skipn_length_app in *. rewrite Hsvc.
  assert (Hin' : In (ReadingCall i batch (Raised e)) rtr).
  { apply in_app_or in Hin. destruct Hin as [H|H]; [exact H|].
    exfalso. exact (reading_call_not_in i batch (Raised e) etr Hrd' H). }
  assert (Hdel : In (j, e) (error_deliveries etr)).
  { rewrite Her'. apply in_each_to_all; [exact Hj|].
    apply in_or_app. right. exact (in_raised i batch e rtr Hin'). }
  split; [|split; [reflexivity|]].
  - unfold errors_delivered_to. rewrite error_deliveries_app, Her. cbn [app].
    apply in_map_iff. exists (j, e). split; [reflexivity|].
    apply filter_In. split; [exact Hdel|]. apply Nat.eqb_refl.
  - exists rtr, etr. repeat split; assumption.
Qed.

End DrainFacts.

Lemma drain_calls_each_reading_callback_once_per_batch_witness :
  delivered_to 1
    (calls_made_by process_pending_callbacks
       (snd (for_each put_readings [batch_a; batch_b] sample_world)))
  = [batch_a; batch_b].
Proof.
  apply (drain_calls_each_reading_callback_once_per_batch
           sample_world [batch_a; batch_b] 1).
  simpl. lia.
Defined.

Lemma callback_error_is_delivered_by_the_same_drain_witness :
  In (ValueError "cannot show reading")
     (errors_delivered_to 1
        (calls_made_by process_pending_callbacks
           (snd (put_readings batch_a sample_world)))).
Proof.
  apply (callback_error_is_delivered_by_the_same_drain
           (snd (put_readings batch_a sample_world)) 0 batch_a
           (ValueError "cannot show reading") 1).
  - vm_compute. left. reflexivity.
  - simpl. lia.
Defined.


(** The unit test of the drain, and the scenario of the specification for
    error-callbacks: the recorder registered after a callback that raises
    still records what was waiting. *)
Example drain_hands_batches_and_errors_to_the_recorders :
  consumer (snd (process_pending_callbacks
                   (snd ((put_error (RuntimeError "sensors command failed: ") ;;
                          for_each put_readings [batch_a; batch_b])%stmt
                         sample_world))))
  = ([batch_a; batch_b],
     [RuntimeError "sensors command failed: ";
      ValueError "cannot show reading";
      ValueError "cannot show reading"]).
Proof. vm_compute. reflexivity. Qed.

(** ** Direct reads and the history map *)

Section ServiceFacts.
Context {W Env : Type}.
Implicit Types (w : World W Env) (s : ThermalMonitoringService W Env).

Lemma get_current_readings_keeps_service w :
  service (snd (get_current_readings w)) = service w
  /\ consumer (snd (get_current_readings w)) = consumer w
  /\ calls (snd (get_current_readings w)) = calls w.
Proof.
  unfold get_current_readings.
  destruct (monitor (service w) (machine w)) as [o env]. cbn.
  repeat split; reflexivity.
Qed.

(** C7: [get_current_readings] hands back what the source returned or
    raised, lets the source act on the machine, and leaves the service, and
    with it the history map and both queues, as they were. *)
Theorem get_current_readings_is_a_passthrough w :
  fst (get_current_readings w) = fst (monitor (service w) (machine w))
  /\ machine (snd (get_current_readings w)) = snd (monitor (service w) (machine w))
  /\ service (snd (get_current_readings w)) = service w
  /\ history (service (snd (get_current_readings w))) = history (service w)
  /\ _pending_readings (service (snd (get_current_readings w)))
     = _pending_readings (service w)
  /\ _pending_errors (service (snd (get_current_readings w)))
     = _pending_errors (service w)
  /\ consumer (snd (get_current_readings w)) = consumer w
  /\ calls (snd (get_current_readings w)) = calls w.
Proof.
  unfold get_current_readings.
  destruct (monitor (service w) (machine w)) as [o env]. cbn.
  repeat split; reflexivity.
Qed.

(** The source of the repository raises what the sensor tool made it
    raise. *)
Lemma hardware_monitor_failure_is_raised {RawData : Type}
    (hm : HardwareMonitor.t Env RawData) (env env' : Env) (e : Exception) :
  HardwareMonitor.get_raw_sensor_data hm env = (Raised e, env') ->
  HardwareMonitor.get_current_readings hm env = (Raised e, env').
Proof.
  intros Hraw. unfold HardwareMonitor.get_current_readings. rewrite Hraw. reflexivity.
Qed.

Lemma get_setitem_same {V : Type} (d : dict V) (k : string) (v : V) :
  get (setitem d k v) k = Some v.
Proof.
  induction d as [|[k' v'] d IH]; simpl.
  - rewrite String.eqb_refl. reflexivity.
  - destruct (String.eqb k' k) eqn:Hk; simpl; rewrite Hk; [reflexivity|exact IH].
Qed.

Lemma get_setitem_other {V : Type} (d : dict V) (k k' : string) (v : V) :
  k <> k' -> get (setitem d k v) k' = get d k'.
Proof.
  intros Hne. induction d as [|[k0 v0] d IH]; simpl.
  - destruct (String.eqb_spec k k'); [contradiction|reflexivity].
  - destruct (String.eqb_spec k0 k) as [->|Hk0]; simpl.
    + destruct (String.eqb_spec k k'); [contradiction|reflexivity].
    + destruct (String.eqb_spec k0 k'); [reflexivity|exact IH].
Qed.

Lemma record_one_other (hist : dict TemperatureHistory) (r : SensorReading.t)
    (k : string) :
  SensorReading.name r <> k -> get (record_one hist r) k = get hist k.
Proof.
  intros Hne. unfold record_one.
  destruct (get hist (SensorReading.name r)); apply get_setitem_other, Hne.
Qed.

Lemma record_batch_other (batch : list SensorReading.t) (k : string) :
  (forall r, In r batch -> SensorReading.name r <> k) ->
  forall hist, get (fold_left record_one batch hist) k = get hist k.
Proof.
  induction batch as [|r batch IH]; intros Hne hist; simpl; [reflexivity|].
  rewrite IH by (intros r' Hr'; apply Hne; right; exact Hr').
  apply record_one_other, Hne. left. reflexivity.
Qed.

(** [get_all_historical_readings] puts no key in its result that is not a
    key of the history map. *)
Lemma collect_histories_other (clock : nat -> datetime) (minutes : Z) (k : string)
    (items : dict TemperatureHistory) :
  get items k = None ->
  forall n acc result,
    get acc k = None ->
    collect_histories clock n items minutes acc = Returned result ->
    get result k = None.
Proof.
  induction items as [|[k' h] items IH]; simpl; intros Hk n acc result Hacc Hrun.
  - inversion Hrun. subst result. exact Hacc.
  - destruct (String.eqb_spec k' k) as [Heq|Hne]; [discriminate Hk|].
    destruct (get_readings_for_timeframe (clock n) h minutes) as [window|e];
      [|discriminate Hrun].
    apply (IH Hk (S n) (setitem acc k' window) result); [|exact Hrun].
    rewrite get_setitem_other by exact Hne. exact Hacc.
Qed.

Lemma collect_histories_returns (clock : nat -> datetime) (minutes : Z)
    (items : dict TemperatureHistory) :
  (forall n, representable (clock n)
             /\ representable (minutes_before (clock n) minutes)) ->
  forall n acc, exists result,
    collect_histories clock n items minutes acc = Returned result.
Proof.
  intros Hclock. induction items as [|[k' h] items IH]; simpl; intros n acc.
  - exists acc. reflexivity.
  - destruct (Hclock n) as [Hnow Hthen].
    rewrite (get_readings_for_timeframe_in_range (clock n) h minutes Hnow Hthen).
    apply IH.
Qed.

(** C6, amended: on a service whose history map is empty, after
    [_record_readings([r])] the history of [r]'s sensor, asked for a window
    that reaches back to the instant [r] was stamped, is [[r]]. *)
Theorem recorded_reading_is_returned_within_its_window
    w (r : SensorReading.t) (now : datetime) (minutes : Z) :
  history (service w) = [] ->
  representable now ->
  representable (minutes_before now minutes) ->
  (minutes_before now minutes <= SensorReading.timestamp r)%Z ->
  fst (_record_readings [r] w) = Returned tt
  /\ get_historical_readings now (service (snd (_record_readings [r] w)))
       (SensorReading.name r) minutes
     = Returned [r].
Proof.
  intros Hempty Hnow Hthen Hin. split; [reflexivity|].
  unfold _record_readings, modify_service. cbn [snd service with_service].
  unfold get_historical_readings. cbn [history with_history fold_left].
  rewrite Hempty. unfold record_one. cbn [get].
  rewrite get_setitem_same.
  rewrite (get_readings_for_timeframe_in_range now _ minutes Hnow Hthen).
  cbn. apply Z.leb_le in Hin. rewrite Hin. reflexivity.
Qed.

Lemma poll_once_history w :
  history (service (snd (poll_once w)))
  = fold_left record_one
      match fst (get_current_readings w) with
      | Returned batch => batch
      | Raised _ => []
      end
      (history (service w)).
Proof.
  unfold poll_once, try_except_class, bind, get_current_readings.
  destruct (monitor (service w) (machine w)) as [[batch|e] env]; cbn.
  - reflexivity.
  - destruct (isinstance e "RuntimeError"); reflexivity.
Qed.

(** An operation changes the history of a key only by recording a reading
    of that key. *)
Lemma perform_other (op : Operation W) w (k : string) :
  (forall r, In r (snd (perform op w)) -> SensorReading.name r <> k) ->
  get (history (service (fst (perform op w)))) k = get (history (service w)) k.
Proof.
  destruct op as [batch| | | |cb|cb]; cbn [perform fst snd]; intros Hne.
  - cbn. apply record_batch_other, Hne.
  - rewrite poll_once_history. apply record_batch_other, Hne.
  - destruct (process_pending_callbacks_trace w) as (rtr & etr & w' & Hrun & _ & Hsvc & _).
    rewrite Hrun. cbn [snd]. rewrite Hsvc. reflexivity.
  - destruct (get_current_readings_keeps_service w) as [Hsvc _].
    rewrite Hsvc. reflexivity.
  - reflexivity.
  - reflexivity.
Qed.

Lemma perform_all_other (ops : list (Operation W)) (k : string) :
  forall w,
    (forall r, In r (snd (perform_all ops w)) -> SensorReading.name r <> k) ->
    get (history (service (fst (perform_all ops w)))) k = get (history (service w)) k.
Proof.
  induction ops as [|op ops IH]; intros w Hne; [reflexivity|].
  cbn [perform_all] in *.
  destruct (perform op w) as [w1 recorded] eqn:Hop.
  specialize (IH w1).
  destruct (perform_all ops w1) as [w' recorded'] eqn:Hops.
  cbn [fst snd] in *.
  rewrite IH by (intros r Hr; apply Hne, in_or_app; right; exact Hr).
  replace w1 with (fst (perform op w)) by (rewrite Hop; reflexivity).
  apply perform_other. rewrite Hop. cbn [snd].
  intros r Hr. apply Hne, in_or_app. left. exact Hr.
Qed.

(** C9: whatever was done to a service since its history map was empty, a
    key under which no reading was recorded has no history: the query for
    it returns the empty list whatever the window, without reading the
    clock, and the result of [get_all_historical_readings], which it
    returns whenever the window is one the clock readings allow, has no
    entry for it. *)
Theorem unrecorded_key_has_no_history
    w (ops : list (Operation W)) (k : string) :
  history (service w) = [] ->
  (forall r, In r (snd (perform_all ops w)) -> SensorReading.name r <> k) ->
  let s := service (fst (perform_all ops w)) in
  (forall now minutes, get_historical_readings now s k minutes = Returned [])
  /\ (forall clock minutes result,
        get_all_historical_readings clock s minutes = Returned result ->
        get result k = None)
  /\ (forall clock minutes,
        (forall n, representable (clock n)
                   /\ representable (minutes_before (clock n) minutes)) ->
        exists result, get_all_historical_readings clock s minutes = Returned result).
Proof.
  intros Hempty Hne. cbn zeta.
  assert (Hk : get (history (service (fst (perform_all ops w)))) k = None).
  { rewrite (perform_all_other ops k w Hne), Hempty. reflexivity. }
  split; [|split].
  - intros now minutes. unfold get_historical_readings. rewrite Hk. reflexivity.
  - intros clock minutes result Hrun. unfold get_all_historical_readings in Hrun.
    exact (collect_histories_other clock minutes k _ Hk 0 [] result eq_refl Hrun).
  - intros clock minutes Hclock. unfold get_all_historical_readings.
    apply collect_histories_returns, Hclock.
Qed.

End ServiceFacts.

Lemma recorded_reading_is_returned_within_its_window_witness :
  get_historical_readings sample_now
    (service (snd (_record_readings [sample_reading 42 (sample_now - 1)%Z] fresh_world)))
    "chip_temp1_input" 60
  = Returned [sample_reading 42 (sample_now - 1)%Z].
Proof.
  apply (recorded_reading_is_returned_within_its_window
           fresh_world (sample_reading 42 (sample_now - 1)%Z) sample_now 60).
  - reflexivity.
  - unfold representable. vm_compute. split; discriminate.
  - unfold representable. vm_compute. split; discriminate.
  - vm_compute. discriminate.
Defined.

(** C6 as stated fails: a window of no minutes leaves out a reading taken a
    microsecond earlier, and a window of an hour one taken two hours
    earlier. *)
Lemma recorded_reading_outside_window_counterexample :
  get_historical_readings sample_now
    (service (snd (_record_readings [sample_reading 42 (sample_now - 1)%Z] fresh_world)))
    "chip_temp1_input" 0
  = Returned []
  /\ get_historical_readings sample_now
       (service (snd (_record_readings
                        [sample_reading 42 (sample_now - 120 * us_per_minute)%Z]
                        fresh_world)))
       "chip_temp1_input" 60
     = Returned [].
Proof. split; reflexivity. Qed.

Lemma unrecorded_key_has_no_history_witness :
  get_historical_readings sample_now
    (service (fst (perform_all
                     [RegisterReadingCallback record_batch; RecordReadings batch_a;
                      PollOnce; ProcessPendingCallbacks; RecordReadings batch_b]
                     fresh_world)))
    "nvme_composite_temp1_input" 60
  = Returned [].
Proof.
  apply (unrecorded_key_has_no_history fresh_world
           [RegisterReadingCallback record_batch; RecordReadings batch_a;
            PollOnce; ProcessPendingCallbacks; RecordReadings batch_b]
           "nvme_composite_temp1_input").
  - reflexivity.
  - intros r Hr. vm_compute in Hr.
    destruct Hr as [<-|[<-|[]]]; discriminate.
Defined.

(** ** The lifecycle *)

Section LifecycleFacts.
Context {W Env : Type}.
Implicit Types (w : World W Env) (sys : System W Env).

(** C8, on [race_schedule], with two callers: when the schedule ends every
    call has returned, the last two threads launched are both inside
    [_monitor_loop], and the service only knows the second of them. *)
Theorem start_stop_race_leaves_two_loops
    (source : Env -> outcome (list SensorReading.t) * Env) (interval : float)
    (c : W) (env : Env) :
  exists sys,
    run race_schedule
        (boot {| service := init source interval; consumer := c; machine := env;
                 calls := [] |} 2)
    = Some sys
    /\ callers sys = [Outside; Outside]
    /\ threads sys = [Terminated; AtLoopTest; AtLoopTest]
    /\ live_loops sys = 2
    /\ _thread (service (world sys)) = Some 2.
Proof.
  eexists. split; [reflexivity|]. cbn. repeat split; reflexivity.
Qed.

(** *** One caller *)

Lemma nth_error_replace_same {A : Type} (n : nat) (x y : A) (l : list A) :
  nth_error l n = Some y -> nth_error (replace_nth n x l) n = Some x.
Proof.
  revert n. induction l as [|z l IH]; intros [|n] H; simpl in *;
    try discriminate; [reflexivity|]. apply IH, H.
Qed.

Lemma nth_error_replace_other {A : Type} (n m : nat) (x : A) (l : list A) :
  n <> m -> nth_error (replace_nth n x l) m = nth_error l m.
Proof.
  revert n m. induction l as [|z l IH]; intros [|n] [|m] H; simpl;
    try reflexivity; try contradiction. apply IH. congruence.
Qed.

Lemma poll_once_keeps_lifecycle w :
  _thread (service (snd (poll_once w))) = _thread (service w)
  /\ _stop_event (service (snd (poll_once w))) = _stop_event (service w).
Proof.
  unfold poll_once, try_except_class, bind, get_current_readings.
  destruct (monitor (service w) (machine w)) as [[batch|e] env]; cbn.
  - split; reflexivity.
  - destruct (isinstance e "RuntimeError"); cbn; split; reflexivity.
Qed.

(** A turn of a worker changes neither the callers nor [self._thread], and
    brings no thread to life. *)
Lemma worker_step_effect (t : nat) sys sys' :
  worker_step t sys = Some sys' ->
  callers sys' = callers sys
  /\ _thread (service (world sys')) = _thread (service (world sys))
  /\ (forall t', is_alive sys' t' = true -> is_alive sys t' = true).
Proof.
  unfold worker_step. intros Hstep.
  assert (Hset : forall pc sys0,
             threads sys0 = threads sys -> is_alive sys t = true ->
             forall t', is_alive (set_worker t pc sys0) t' = true ->
                        is_alive sys t' = true).
  { intros pc sys0 Hth Halive t' H'. destruct (Nat.eq_dec t t') as [<-|Hne];
      [exact Halive|].
    unfold is_alive, set_worker in H'. cbn [threads] in H'.
    rewrite nth_error_replace_other, Hth in H' by exact Hne. exact H'. }
  destruct (nth_error (threads sys) t) as [[| | |]|] eqn:Hpc; try discriminate.
  - assert (Halive : is_alive sys t = true) by (unfold is_alive; rewrite Hpc; reflexivity).
    destruct (_stop_event (service (world sys))).
    + inversion Hstep; subst sys'. cbn. repeat split. apply Hset; [reflexivity|exact Halive].
    + pose proof (poll_once_keeps_lifecycle (world sys)) as [Hthread _].
      destruct (poll_once (world sys)) as [[[]|e] w']; cbn [snd] in Hthread;
        inversion Hstep; subst sys'; cbn; (split; [reflexivity|]);
        (split; [exact Hthread|]); apply Hset; try reflexivity; exact Halive.
  - assert (Halive : is_alive sys t = true) by (unfold is_alive; rewrite Hpc; reflexivity).
    inversion Hstep; subst sys'. cbn. repeat split. apply Hset; [reflexivity|exact Halive].
  - assert (Halive : is_alive sys t = true) by (unfold is_alive; rewrite Hpc; reflexivity).
    inversion Hstep; subst sys'. cbn. repeat split. apply Hset; [reflexivity|exact Halive].
Qed.

Lemma boot_single_caller_invariant w :
  _thread (service w) = None -> single_caller_invariant (boot w 1).
Proof.
  intros Hnone. exists Outside. cbn. repeat split.
  intros t Halive. unfold is_alive in Halive. cbn in Halive.
  destruct t; discriminate.
Qed.

Lemma step_keeps_single_caller_invariant (a : Action) sys sys' :
  single_caller_invariant sys -> step a sys = Some sys' ->
  single_caller_invariant sys'.
Proof.
  intros (pc & Hcallers & Hnamed & Hpc) Hstep.
  assert (Hother : forall c, nth_error (callers sys) (S c) = None).
  { intros c. rewrite Hcallers. destruct c; reflexivity. }
  assert (Hzero : nth_error (callers sys) 0 = Some pc).
  { rewrite Hcallers. reflexivity. }
  destruct a as [c|c|c|c|t]; cbn [step] in Hstep.
  - (* Start *)
    destruct c as [|c]; [rewrite Hzero in Hstep | rewrite Hother in Hstep; discriminate].
    destruct pc; try discriminate. inversion Hstep; subst sys'; clear Hstep.
    unfold start_monitoring.
    destruct (match _thread (service (world sys)) with
              | Some t => is_alive sys t
              | None => false
              end) eqn:Hcheck.
    + exists Outside. repeat split; assumption.
    + exists Outside. cbn. split; [exact Hcallers|]. split; [|exact I].
      intros t Halive. unfold is_alive in Halive. cbn [threads] in Halive.
      destruct (Nat.lt_ge_cases t (length (threads sys))) as [Hlt|Hge].
      * rewrite nth_error_app1 in Halive by exact Hlt.
        assert (Hold : is_alive sys t = true) by exact Halive.
        pose proof (Hnamed t Hold) as Hthread. rewrite Hthread in Hcheck.
        rewrite Hcheck in Hold. discriminate.
      * rewrite nth_error_app2 in Halive by exact Hge.
        destruct (t - length (threads sys)) as [|d] eqn:Hd;
          [|destruct d; discriminate].
        f_equal. lia.
  - (* StopSignal *)
    destruct c as [|c]; [rewrite Hzero in Hstep | rewrite Hother in Hstep; discriminate].
    destruct pc; try discriminate. cbn in Hstep. inversion Hstep; subst sys'; clear Hstep.
    exists (StopJoining (_thread (service (world sys)))). cbn. rewrite Hcallers.
    repeat split. exact Hnamed.
  - (* StopJoin *)
    destruct c as [|c]; [rewrite Hzero in Hstep | rewrite Hother in Hstep; discriminate].
    destruct pc as [|[t|]|]; try discriminate.
    + destruct (is_alive sys t) eqn:Hjoined; [discriminate|].
      inversion Hstep; subst sys'; clear Hstep.
      exists StopJoined. cbn. rewrite Hcallers. repeat split; [exact Hnamed|].
      intros t'. change (is_alive sys t' = false).
      destruct (is_alive sys t') eqn:Halive; [|reflexivity].
      pose proof (Hnamed t' Halive) as Hn. rewrite <- Hpc in Hn.
      inversion Hn; subst t'. rewrite Hjoined in Halive. discriminate.
    + inversion Hstep; subst sys'; clear Hstep.
      exists StopJoined. cbn. rewrite Hcallers. repeat split; [exact Hnamed|].
      intros t'. change (is_alive sys t' = false).
      destruct (is_alive sys t') eqn:Halive; [|reflexivity].
      apply Hnamed in Halive. rewrite <- Hpc in Halive. discriminate.
  - (* StopClear *)
    destruct c as [|c]; [rewrite Hzero in Hstep | rewrite Hother in Hstep; discriminate].
    destruct pc; try discriminate. inversion Hstep; subst sys'; clear Hstep.
    exists Outside. cbn. rewrite Hcallers. repeat split.
    intros t Halive. change (is_alive sys t = true) in Halive.
    rewrite (Hpc t) in Halive. discriminate.
  - (* Worker *)
    destruct (worker_step_effect t sys sys' Hstep) as (Hc & Hthread & Hshrink).
    exists pc. rewrite Hc, Hthread. split; [exact Hcallers|]. split.
    + intros t' Halive. apply Hnamed, Hshrink, Halive.
    + destruct pc; [exact I|exact Hpc|].
      intros t'. destruct (is_alive sys' t') eqn:Halive; [|reflexivity].
      apply Hshrink in Halive. rewrite (Hpc t') in Halive. discriminate.
Qed.

Lemma run_keeps_single_caller_invariant (schedule : list Action) :
  forall sys sys',
    single_caller_invariant sys -> run schedule sys = Some sys' ->
    single_caller_invariant sys'.
Proof.
  induction schedule as [|a schedule IH]; intros sys sys' Hinv Hrun; simpl in Hrun.
  - inversion Hrun; subst; exact Hinv.
  - destruct (step a sys) as [sys1|] eqn:Hstep; [|discriminate].
    apply (IH sys1 sys'); [|exact Hrun].
    exact (step_keeps_single_caller_invariant a sys sys1 Hinv Hstep).
Qed.

Lemma live_loops_none sys :
  (forall t, is_alive sys t = false) -> live_loops sys = 0.
Proof.
  intros Hdead. unfold live_loops. rewrite filter_none; [reflexivity|].
  intros pc Hin. apply In_nth_error in Hin. destruct Hin as [t Ht].
  specialize (Hdead t). unfold is_alive in Hdead. rewrite Ht in Hdead.
  destruct pc; (discriminate || reflexivity).
Qed.

Lemma live_loops_some sys (t : nat) :
  is_alive sys t = true -> 1 <= live_loops sys.
Proof.
  unfold is_alive, live_loops. intros Halive.
  destruct (nth_error (threads sys) t) as [pc|] eqn:Ht; [|discriminate].
  assert (Hin : In pc (filter (fun pc => match pc with Terminated => false | _ => true end)
                              (threads sys))).
  { apply filter_In. split; [exact (nth_error_In _ _ Ht)|].
    destruct pc; (discriminate || reflexivity). }
  destruct (filter _ (threads sys)); [destruct Hin|simpl; lia].
Qed.

Lemma at_most_one_alive (l : list WorkerPc) :
  (forall i j p q, nth_error l i = Some p -> nth_error l j = Some q ->
                   p <> Terminated -> q <> Terminated -> i = j) ->
  length (filter (fun pc => match pc with Terminated => false | _ => true end) l) <= 1.
Proof.
  induction l as [|p l IH]; intros Huniq; simpl; [lia|].
  assert (Htail : forall i j p q, nth_error l i = Some p -> nth_error l j = Some q ->
                    p <> Terminated -> q <> Terminated -> i = j).
  { intros i j p' q' Hi Hj Hp Hq.
    assert (H : S i = S j) by (apply (Huniq (S i) (S j) p' q'); assumption).
    congruence. }
  destruct p; try (apply IH, Htail);
    (rewrite filter_none; [simpl; lia|]);
    intros q Hin; apply In_nth_error in Hin; destruct Hin as [j Hj];
    (destruct q; try reflexivity);
    match goal with
    | |- _ = false =>
        exfalso;
        assert (H : 0 = S j)
          by (eapply (Huniq 0 (S j)); [reflexivity|exact Hj|discriminate|discriminate]);
        discriminate H
    end.
Qed.

Lemma live_loops_at_most_one sys :
  (forall t t', is_alive sys t = true -> is_alive sys t' = true -> t = t') ->
  live_loops sys <= 1.
Proof.
  intros Huniq. unfold live_loops. apply at_most_one_alive.
  intros i j p q Hi Hj Hp Hq. apply Huniq; unfold is_alive.
  - rewrite Hi. destruct p; (reflexivity || contradiction).
  - rewrite Hj. destruct q; (reflexivity || contradiction).
Qed.

(** What the lifecycle gives when one caller drives the service: never two
    loops; none once [stop_monitoring] has returned; and a second
    [start_monitoring] in a row changes nothing and leaves one loop. *)
Lemma single_caller_lifecycle w (schedule : list Action) sys :
  _thread (service w) = None ->
  run schedule (boot w 1) = Some sys ->
  live_loops sys <= 1
  /\ (forall sys', step (StopClear 0) sys = Some sys' -> live_loops sys' = 0)
  /\ (forall sys1 sys2,
        step (Start 0) sys = Some sys1 -> step (Start 0) sys1 = Some sys2 ->
        sys2 = sys1 /\ live_loops sys1 = 1).
Proof.
  intros Hnone Hrun.
  pose proof (run_keeps_single_caller_invariant schedule (boot w 1) sys
                (boot_single_caller_invariant w Hnone) Hrun) as Hinv.
  assert (Hbound : forall sys0, single_caller_invariant sys0 -> live_loops sys0 <= 1).
  { intros sys0 (pc & _ & Hnamed & _). apply live_loops_at_most_one.
    intros t t' Ht Ht'. apply Hnamed in Ht. apply Hnamed in Ht'. congruence. }
  split; [exact (Hbound sys Hinv)|]. split.
  - intros sys' Hstep.
    pose proof (step_keeps_single_caller_invariant _ _ _ Hinv Hstep) as Hinv'.
    destruct Hinv as (pc & Hcallers & Hnamed & Hpc).
    cbn [step] in Hstep. rewrite Hcallers in Hstep. cbn in Hstep.
    destruct pc; try discriminate. inversion Hstep; subst sys'.
    apply live_loops_none. exact Hpc.
  - intros sys1 sys2 Hstep1 Hstep2.
    pose proof (step_keeps_single_caller_invariant _ _ _ Hinv Hstep1) as Hinv1.
    destruct Hinv as (pc & Hcallers & Hnamed & Hpc).
    cbn [step] in Hstep1. rewrite Hcallers in Hstep1. cbn in Hstep1.
    destruct pc; try discriminate. inversion Hstep1; subst sys1; clear Hstep1.
    assert (Hlive : exists t, _thread (service (world (start_monitoring sys))) = Some t
                              /\ is_alive (start_monitoring sys) t = true).
    { unfold start_monitoring.
      destruct (_thread (service (world sys))) as [t|] eqn:Hthread.
      - destruct (is_alive sys t) eqn:Halive.
        + exists t. split; assumption.
        + exists (length (threads sys)). cbn. split; [reflexivity|].
          unfold is_alive. cbn [threads].
          rewrite nth_error_app2, Nat.sub_diag by lia. reflexivity.
      - exists (length (threads sys)). cbn. split; [reflexivity|].
        unfold is_alive. cbn [threads].
        rewrite nth_error_app2, Nat.sub_diag by lia. reflexivity. }
    destruct Hlive as (t & Hthread & Halive).
    split.
    + cbn [step] in Hstep2.
      assert (Hc : callers (start_monitoring sys) = [Outside]).
      { unfold start_monitoring. destruct (match _thread _ with Some _ => _ | None => _ end);
          exact Hcallers. }
      rewrite Hc in Hstep2. cbn in Hstep2. inversion Hstep2.
      unfold start_monitoring at 1. rewrite Hthread, Halive. reflexivity.
    + pose proof (Hbound _ Hinv1). pose proof (live_loops_some _ t Halive). lia.
Qed.

End LifecycleFacts.

(** * Further properties *)

(** ** TemperatureHistory, beyond the claims *)

Section MoreHistoryFacts.

Lemma skipn_min_length {A : Type} (a : nat) (l : list A) :
  skipn (Nat.min a (length l)) l = skipn a l.
Proof.
  destruct (Nat.le_gt_cases a (length l)) as [Hle|Hgt].
  - rewrite Nat.min_l by exact Hle. reflexivity.
  - rewrite Nat.min_r by lia. rewrite skipn_all, skipn_all2 by lia. reflexivity.
Qed.

(** A history built with a list already in it, longer than the capacity or
    not: from the first append on it is the last [max_size] readings of the
    list followed by the appends, and within its capacity. *)
Theorem add_reading_window_from_any_history (h : TemperatureHistory)
    (r : SensorReading.t) (rs : list SensorReading.t) :
  (1 <= max_size h)%Z ->
  readings (fold_left add_reading (r :: rs) h)
  = last_n (Z.to_nat (max_size h)) (readings h ++ r :: rs)
  /\ (Z.of_nat (length (readings (fold_left add_reading (r :: rs) h))) <= max_size h)%Z
  /\ max_size (fold_left add_reading (r :: rs) h) = max_size h.
Proof.
  intros HC. set (c := Z.to_nat (max_size h)).
  assert (Hc : 1 <= c) by (unfold c; lia).
  assert (Hm : max_size h = Z.of_nat c) by (unfold c; lia).
  assert (Heq : readings (fold_left add_reading (r :: rs) h)
                = last_n c (readings h ++ r :: rs)).
  { cbn [fold_left]. rewrite (fold_add_reading_last_n c rs Hc).
    - rewrite (add_reading_last_n c h r Hc Hm), last_n_app_last_n, <- app_assoc.
      reflexivity.
    - rewrite add_reading_max_size. exact Hm.
    - rewrite (add_reading_last_n c h r Hc Hm), length_last_n. lia. }
  split; [exact Heq|]. split.
  - rewrite Heq, length_last_n. lia.
  - apply fold_add_reading_max_size.
Qed.

Lemma add_reading_window_from_any_history_witness :
  readings (fold_left add_reading [sample_reading 3 sample_now]
              {| readings := [sample_reading 1 sample_now; sample_reading 2 sample_now];
                 max_size := 1 |})
  = [sample_reading 3 sample_now].
Proof.
  apply (add_reading_window_from_any_history
           {| readings := [sample_reading 1 sample_now; sample_reading 2 sample_now];
              max_size := 1 |} (sample_reading 3 sample_now) []).
  simpl. lia.
Defined.

Lemma fold_add_reading_skipn (rs : list SensorReading.t) :
  forall h : TemperatureHistory,
  exists k : nat,
    readings (fold_left add_reading rs h) = skipn k (readings h ++ rs).
Proof.
  induction rs as [|r rs IH]; intros h.
  - exists 0. simpl. rewrite app_nil_r. reflexivity.
  - cbn [fold_left]. destruct (IH (add_reading h r)) as [k' Hk'].
    assert (Hone : exists k, readings (add_reading h r) = skipn k (readings h ++ [r])
                             /\ k <= length (readings h ++ [r])).
    { unfold add_reading. destruct (_ >? _)%Z; cbn [readings].
      - unfold del_slice_to. exists (slice_stop (- max_size h) (length (readings h ++ [r]))).
        split; [reflexivity|]. unfold slice_stop.
        destruct (Z.ltb_spec (- max_size h) 0); lia.
      - exists 0. split; [reflexivity|lia]. }
    destruct Hone as (k & Hk & Hle).
    exists (k' + k). rewrite Hk', Hk.
    replace (readings h ++ r :: rs) with ((readings h ++ [r]) ++ rs)
      by (rewrite <- app_assoc; reflexivity).
    rewrite <- skipn_skipn. f_equal.
    rewrite (skipn_app k (readings h ++ [r]) rs).
    replace (k - length (readings h ++ [r])) with 0 by lia.
    reflexivity.
Qed.

(** Whatever the capacity, zero and negative included, and whatever the list
    the history was built with, eviction only takes from the front: the
    history is always what is left of the old list followed by the appends
    after dropping some of the oldest. *)
Theorem add_reading_keeps_a_suffix (h : TemperatureHistory)
    (rs : list SensorReading.t) :
  exists k : nat,
    readings (fold_left add_reading rs h) = skipn k (readings h ++ rs).
Proof. apply fold_add_reading_skipn. Qed.

(** A negative capacity: every append is followed by the deletion of the
    first [-max_size] items, so a history that starts empty stays empty. *)
Theorem add_reading_negative_capacity (h : TemperatureHistory) (r : SensorReading.t)
    (rs : list SensorReading.t) :
  (max_size h < 0)%Z ->
  readings (add_reading h r) = skipn (Z.to_nat (- max_size h)) (readings h ++ [r])
  /\ readings (appended_all (max_size h) rs) = [].
Proof.
  intros Hneg.
  assert (Hstep : forall h0 r0, (max_size h0 < 0)%Z ->
            readings (add_reading h0 r0)
            = skipn (Z.to_nat (- max_size h0)) (readings h0 ++ [r0])).
  { intros h0 r0 H0. unfold add_reading.
    destruct (Z.gtb_spec (Z.of_nat (length (readings h0 ++ [r0]))) (max_size h0)) as [_|Hle];
      [|lia].
    cbn [readings]. unfold del_slice_to, slice_stop.
    destruct (Z.ltb_spec (- max_size h0) 0) as [Hbad|_]; [lia|].
    apply skipn_min_length. }
  split; [apply Hstep, Hneg|].
  unfold appended_all.
  assert (Hall : forall l h0, (max_size h0 < 0)%Z -> readings h0 = [] ->
                   readings (fold_left add_reading l h0) = []).
  { induction l as [|r0 l IH]; intros h0 H0 He; simpl; [exact He|].
    apply IH.
    - rewrite add_reading_max_size. exact H0.
    - rewrite Hstep by exact H0. rewrite He. simpl.
      destruct (Z.to_nat (- max_size h0)) eqn:Hn; [lia|]. destruct n; reflexivity. }
  apply Hall; [exact Hneg|reflexivity].
Qed.

Lemma add_reading_negative_capacity_witness :
  readings (appended_all (-2) [sample_reading 1 sample_now; sample_reading 2 sample_now])
  = [].
Proof.
  apply (add_reading_negative_capacity {| readings := []; max_size := -2 |}
           (sample_reading 1 sample_now)
           [sample_reading 1 sample_now; sample_reading 2 sample_now]).
  simpl. lia.
Defined.

(** *** The window query, beyond the claim *)

(** The query returns exactly when [now - minutes] is an instant a
    [datetime] can hold; otherwise it raises [OverflowError]. *)
Theorem window_query_returns_iff_in_range (now : datetime) (h : TemperatureHistory)
    (minutes : Z) :
  representable now ->
  ((exists l, get_readings_for_timeframe now h minutes = Returned l)
   <-> representable (minutes_before now minutes))
  /\ (~ representable (minutes_before now minutes) ->
      exists msg, get_readings_for_timeframe now h minutes = Raised (OverflowError msg)).
Proof.
  intros Hnow.
  assert (Hout : ~ representable (minutes_before now minutes) ->
                 exists msg, get_readings_for_timeframe now h minutes
                             = Raised (OverflowError msg)).
  { intros Hnot. unfold get_readings_for_timeframe, timedelta_of_minutes. cbv zeta.
    destruct (_ && _)%bool; [|eexists; reflexivity].
    unfold datetime_sub. cbv zeta.
    destruct (Z.leb_spec 0 (now - minutes * us_per_minute));
      destruct (Z.leb_spec (now - minutes * us_per_minute) datetime_max);
      cbn [andb]; try (eexists; reflexivity).
    exfalso. apply Hnot. unfold representable, minutes_before. lia. }
  split; [|exact Hout]. split.
  - intros [l Hl].
    destruct (Z.le_gt_cases 0 (minutes_before now minutes)) as [Hlo|Hlo];
      [destruct (Z.le_gt_cases (minutes_before now minutes) datetime_max) as [Hhi|Hhi]|].
    + split; assumption.
    + destruct Hout as [msg Hmsg]; [unfold representable; lia|congruence].
    + destruct Hout as [msg Hmsg]; [unfold representable; lia|congruence].
  - intros Hthen. eexists.
    apply (get_readings_for_timeframe_in_range now h minutes Hnow Hthen).
Qed.

Lemma window_query_returns_iff_in_range_witness :
  exists msg,
    get_readings_for_timeframe sample_now (appended_all 3 []) (-600000000000)
    = Raised (OverflowError msg).
Proof.
  apply (window_query_returns_iff_in_range sample_now (appended_all 3 []) (-600000000000)).
  - unfold representable. vm_compute. split; discriminate.
  - unfold representable. vm_compute. intros [_ H]. apply H. reflexivity.
Defined.

Lemma filter_filter_implied {A : Type} (p q : A -> bool) (l : list A) :
  (forall x, p x = true -> q x = true) -> filter p (filter q l) = filter p l.
Proof.
  intros Himp. induction l as [|x l IH]; simpl; [reflexivity|].
  destruct (q x) eqn:Hq; simpl.
  - rewrite IH. reflexivity.
  - destruct (p x) eqn:Hp; [|exact IH].
    rewrite (Himp x Hp) in Hq. discriminate.
Qed.

(** A longer window only adds older readings: what the shorter window
    returns is what the longer one returns, cut at the later instant. *)
Theorem window_query_grows_with_the_window (now : datetime) (h : TemperatureHistory)
    (shorter longer : Z) :
  representable now ->
  representable (minutes_before now shorter) ->
  representable (minutes_before now longer) ->
  (shorter <= longer)%Z ->
  exists l_short l_long,
    get_readings_for_timeframe now h shorter = Returned l_short
    /\ get_readings_for_timeframe now h longer = Returned l_long
    /\ l_short
       = filter (fun r => (minutes_before now shorter <=? SensorReading.timestamp r)%Z) l_long
    /\ incl l_short l_long.
Proof.
  intros Hnow Hs Hl Hle.
  rewrite (get_readings_for_timeframe_in_range now h shorter Hnow Hs).
  rewrite (get_readings_for_timeframe_in_range now h longer Hnow Hl).
  do 2 eexists. split; [reflexivity|]. split; [reflexivity|].
  assert (Hcut : filter (fun r => (minutes_before now shorter <=? SensorReading.timestamp r)%Z)
                        (readings h)
                 = filter (fun r => (minutes_before now shorter <=? SensorReading.timestamp r)%Z)
                          (filter (fun r => (minutes_before now longer
                                             <=? SensorReading.timestamp r)%Z)
                                  (readings h))).
  { symmetry. apply filter_filter_implied. intros r Hr.
    apply Z.leb_le in Hr. apply Z.leb_le.
    unfold minutes_before, us_per_minute in *. lia. }
  split; [exact Hcut|].
  rewrite Hcut. intros r Hr. apply filter_In in Hr. exact (proj1 Hr).
Qed.

Lemma window_query_grows_with_the_window_witness :
  exists l_short l_long,
    get_readings_for_timeframe sample_now (appended_all 3 batch_a) 0 = Returned l_short
    /\ get_readings_for_timeframe sample_now (appended_all 3 batch_a) 60 = Returned l_long
    /\ incl l_short l_long.
Proof.
  destruct (window_query_grows_with_the_window sample_now (appended_all 3 batch_a) 0 60)
    as (l_short & l_long & Hs & Hl & _ & Hincl).
  - unfold representable. vm_compute. split; discriminate.
  - unfold representable. vm_compute. split; discriminate.
  - unfold representable. vm_compute. split; discriminate.
  - lia.
  - exists l_short, l_long. repeat split; assumption.
Defined.

Lemma chronological_skipn (k : nat) (l : list SensorReading.t) :
  chronological l -> chronological (skipn k l).
Proof.
  unfold chronological. revert l. induction k as [|k IH]; intros l Hl; [exact Hl|].
  destruct l as [|x l]; [exact Hl|]. simpl. apply IH.
  inversion Hl; assumption.
Qed.

Lemma filter_threshold_chronological (t : Z) (l : list SensorReading.t) :
  chronological l ->
  exists k, filter (fun r => (t <=? SensorReading.timestamp r)%Z) l = skipn k l.
Proof.
  unfold chronological. induction l as [|x l IH]; intros Hl.
  - exists 0. reflexivity.
  - inversion Hl as [|x' l' Htail Hhead]; subst.
    destruct (Z.leb_spec t (SensorReading.timestamp x)) as [Hin|Hout].
    + exists 0. cbn [skipn]. apply filter_all.
      intros y [<-|Hy]; apply Z.leb_le; [exact Hin|].
      rewrite Forall_forall in Hhead. specialize (Hhead y Hy). lia.
    + destruct (IH Htail) as [k Hk]. exists (S k). simpl.
      destruct (Z.leb_spec t (SensorReading.timestamp x)); [lia|]. exact Hk.
Qed.

(** Readings appended in the order of their timestamps are kept in that
    order, and every window is then a suffix of what was appended: the most
    recent readings, none skipped. *)
Theorem window_of_chronological_history_is_a_suffix
    (now : datetime) (h : TemperatureHistory) (rs : list SensorReading.t) (minutes : Z) :
  chronological (readings h ++ rs) ->
  representable now ->
  representable (minutes_before now minutes) ->
  chronological (readings (fold_left add_reading rs h))
  /\ exists k,
       get_readings_for_timeframe now (fold_left add_reading rs h) minutes
       = Returned (skipn k (readings h ++ rs)).
Proof.
  intros Hsorted Hnow Hthen.
  destruct (fold_add_reading_skipn rs h) as [k1 Hk1].
  assert (Hkept : chronological (readings (fold_left add_reading rs h))).
  { rewrite Hk1. apply chronological_skipn, Hsorted. }
  split; [exact Hkept|].
  rewrite (get_readings_for_timeframe_in_range now _ minutes Hnow Hthen).
  destruct (filter_threshold_chronological (minutes_before now minutes) _ Hkept) as [k2 Hk2].
  exists (k2 + k1). rewrite Hk2, Hk1, skipn_skipn. reflexivity.
Qed.

Lemma window_of_chronological_history_is_a_suffix_witness :
  exists k,
    get_readings_for_timeframe (sample_now + 5000000)%Z
      (fold_left add_reading (batch_a ++ batch_b) {| readings := []; max_size := 1 |}) 0
    = Returned (skipn k (batch_a ++ batch_b)).
Proof.
  apply (window_of_chronological_history_is_a_suffix (sample_now + 5000000)%Z
           {| readings := []; max_size := 1 |} (batch_a ++ batch_b) 0).
  - unfold chronological. cbn [app batch_a batch_b].
    apply SSorted_cons;
      [apply SSorted_cons; [apply SSorted_nil|apply Forall_nil]
      |apply Forall_cons; [vm_compute; discriminate|apply Forall_nil]].
  - unfold representable. vm_compute. split; discriminate.
  - unfold representable. vm_compute. split; discriminate.
Defined.

End MoreHistoryFacts.

(** ** The history map, beyond the claims *)

Section MoreServiceFacts.
Context {W Env : Type}.
Implicit Types (w : World W Env) (s : ThermalMonitoringService W Env).

Lemma get_setitem {V : Type} (d : dict V) (k k' : string) (v : V) :
  get (setitem d k v) k' = if String.eqb k k' then Some v else get d k'.
Proof.
  destruct (String.eqb_spec k k') as [<-|Hne].
  - apply get_setitem_same.
  - apply get_setitem_other, Hne.
Qed.

Lemma get_In {V : Type} (d : dict V) (k : string) (v : V) :
  get d k = Some v -> In (k, v) d.
Proof.
  induction d as [|[k' v'] d IH]; simpl; [discriminate|].
  destruct (String.eqb_spec k' k) as [->|Hne]; intros H.
  - inversion H. left. reflexivity.
  - right. apply IH, H.
Qed.

Lemma get_None_keys {V : Type} (d : dict V) (k : string) :
  get d k = None <-> ~ In k (map fst d).
Proof.
  induction d as [|[k' v'] d IH]; simpl.
  - split; [intros _ []|reflexivity].
  - destruct (String.eqb_spec k' k) as [->|Hne].
    + split; [discriminate|]. intros H. exfalso. apply H. left. reflexivity.
    + rewrite IH. split; [intros H [Hk|Hk]; [contradiction|exact (H Hk)]|].
      intros H Hk. apply H. right. exact Hk.
Qed.

Lemma setitem_fresh {V : Type} (d : dict V) (k : string) (v : V) :
  get d k = None -> setitem d k v = d ++ [(k, v)].
Proof.
  induction d as [|[k' v'] d IH]; simpl; [reflexivity|].
  destruct (String.eqb k' k); [discriminate|]. intros H. rewrite IH by exact H.
  reflexivity.
Qed.

Lemma setitem_keys_present {V : Type} (d : dict V) (k : string) (v v0 : V) :
  get d k = Some v0 -> map fst (setitem d k v) = map fst d.
Proof.
  induction d as [|[k' v'] d IH]; simpl; [discriminate|].
  destruct (String.eqb k' k); [reflexivity|]. intros H. simpl. rewrite IH by exact H.
  reflexivity.
Qed.

Lemma In_setitem {V : Type} (d : dict V) (k k0 : string) (v v0 : V) :
  In (k, v) (setitem d k0 v0) -> (k = k0 /\ v = v0) \/ In (k, v) d.
Proof.
  induction d as [|[k' v'] d IH]; simpl.
  - intros [H|[]]. inversion H. left. split; reflexivity.
  - destruct (String.eqb_spec k' k0) as [->|Hne]; simpl.
    + intros [H|H]; [inversion H; left; split; reflexivity|right; right; exact H].
    + intros [H|H]; [right; left; exact H|].
      destruct (IH H) as [Hnew|Hold]; [left; exact Hnew|right; right; exact Hold].
Qed.

Lemma get_record_one (hist : dict TemperatureHistory) (r : SensorReading.t) (k : string) :
  get (record_one hist r) k
  = if named k r then Some (add_reading (history_or_new (get hist k)) r)
    else get hist k.
Proof.
  unfold named, record_one.
  destruct (String.eqb_spec (SensorReading.name r) k) as [<-|Hne].
  - destruct (get hist (SensorReading.name r)); apply get_setitem_same.
  - destruct (get hist (SensorReading.name r)); apply get_setitem_other, Hne.
Qed.

Lemma get_record_batch (batch : list SensorReading.t) (k : string) :
  forall hist : dict TemperatureHistory,
    get (fold_left record_one batch hist) k
    = match filter (named k) batch with
      | [] => get hist k
      | rs => Some (fold_left add_reading rs (history_or_new (get hist k)))
      end.
Proof.
  induction batch as [|r batch IH]; intros hist; [reflexivity|].
  cbn [fold_left filter]. rewrite IH, get_record_one.
  destruct (named k r); cbn [history_or_new fold_left].
  - destruct (filter (named k) batch); reflexivity.
  - reflexivity.
Qed.

(** One call of [_record_readings] appends to the history of each sensor the
    readings of the batch that bear its name, in the order of the batch,
    creating the history when the sensor is new, and leaves the history of a
    sensor the batch does not mention as it was. *)
Theorem record_readings_appends_per_sensor
    w (batch : list SensorReading.t) (k : string) :
  fst (_record_readings batch w) = Returned tt
  /\ get (history (service (snd (_record_readings batch w)))) k
     = match filter (named k) batch with
       | [] => get (history (service w)) k
       | rs => Some (fold_left add_reading rs
                       (history_or_new (get (history (service w)) k)))
       end.
Proof.
  split; [reflexivity|]. cbn. apply get_record_batch.
Qed.

Lemma perform_history (op : Operation W) w :
  history (service (fst (perform op w)))
  = fold_left record_one (snd (perform op w)) (history (service w)).
Proof.
  destruct op as [batch| | | |cb|cb]; cbn [perform fst snd].
  - reflexivity.
  - apply poll_once_history.
  - destruct (process_pending_callbacks_trace w) as (rtr & etr & w' & Hrun & _ & Hsvc & _).
    rewrite Hrun. cbn [snd]. rewrite Hsvc. reflexivity.
  - destruct (get_current_readings_keeps_service w) as [Hsvc _].
    rewrite Hsvc. reflexivity.
  - reflexivity.
  - reflexivity.
Qed.

Lemma perform_all_history (ops : list (Operation W)) :
  forall w,
    history (service (fst (perform_all ops w)))
    = fold_left record_one (snd (perform_all ops w)) (history (service w)).
Proof.
  induction ops as [|op ops IH]; intros w; [reflexivity|].
  cbn [perform_all].
  pose proof (perform_history op w) as Hop.
  destruct (perform op w) as [w1 recorded]. cbn [fst snd] in Hop.
  specialize (IH w1).
  destruct (perform_all ops w1) as [w' recorded']. cbn [fst snd] in *.
  rewrite fold_left_app, <- Hop. exact IH.
Qed.

(** Whatever is done to a service that started with an empty history map,
    what it answers for a sensor is decided by the readings recorded under
    that sensor's name: the last 1000 of them, cut to the window. *)
Theorem history_is_the_last_1000_recorded
    w (ops : list (Operation W)) (k : string) (now : datetime) (minutes : Z) :
  history (service w) = [] ->
  representable now ->
  representable (minutes_before now minutes) ->
  get_historical_readings now (service (fst (perform_all ops w))) k minutes
  = Returned
      (filter (fun r => (minutes_before now minutes <=? SensorReading.timestamp r)%Z)
              (last_n 1000 (filter (named k) (snd (perform_all ops w))))).
Proof.
  intros Hempty Hnow Hthen. unfold get_historical_readings.
  rewrite perform_all_history, get_record_batch, Hempty. cbn [get history_or_new].
  destruct (filter (named k) (snd (perform_all ops w))) as [|r rs] eqn:Hrs.
  - reflexivity.
  - rewrite (get_readings_for_timeframe_in_range now _ minutes Hnow Hthen).
    change (fold_left add_reading (r :: rs) new_history) with (appended_all 1000 (r :: rs)).
    destruct (appended_all_sliding_window 1000 (r :: rs) ltac:(lia)) as [Hw _].
    rewrite Hw. reflexivity.
Qed.

Lemma In_skipn_In {A : Type} (n : nat) (x : A) (l : list A) :
  In x (skipn n l) -> In x l.
Proof.
  revert l. induction n as [|n IH]; intros l H; [exact H|].
  destruct l as [|y l]; [exact H|]. right. apply IH, H.
Qed.

Lemma record_one_tidy (hist : dict TemperatureHistory) (r : SensorReading.t) :
  tidy hist ->
  tidy (record_one hist r)
  /\ exists new, map fst (record_one hist r) = map fst hist ++ new.
Proof.
  intros [Hnodup Hentries]. unfold record_one.
  assert (Hnew : forall h0,
             max_size h0 = 1000%Z ->
             (forall x, In x (readings h0) -> SensorReading.name x = SensorReading.name r) ->
             max_size (add_reading h0 r) = 1000%Z
             /\ length (readings (add_reading h0 r)) <= 1000
             /\ forall x, In x (readings (add_reading h0 r)) ->
                          SensorReading.name x = SensorReading.name r).
  { intros h0 Hm Hnames. rewrite add_reading_max_size.
    rewrite (add_reading_last_n 1000 h0 r ltac:(lia) Hm), length_last_n.
    split; [exact Hm|]. split; [lia|].
    intros x Hx. apply In_skipn_In in Hx. apply in_app_or in Hx.
    destruct Hx as [Hx|[<-|[]]]; [apply Hnames, Hx|reflexivity]. }
  destruct (get hist (SensorReading.name r)) as [h0|] eqn:Hget.
  - destruct (Hentries _ _ (get_In _ _ _ Hget)) as (Hm & _ & Hnames).
    split; [split|].
    + rewrite (setitem_keys_present _ _ _ h0 Hget). exact Hnodup.
    + intros k h Hin. apply In_setitem in Hin. destruct Hin as [[-> ->]|Hold].
      * apply Hnew; assumption.
      * apply Hentries, Hold.
    + exists []. rewrite (setitem_keys_present _ _ _ h0 Hget), app_nil_r. reflexivity.
  - rewrite setitem_fresh by exact Hget.
    split; [split|].
    + rewrite map_app. apply NoDup_app; [exact Hnodup|repeat constructor; intros []|].
      intros a Ha [<-|[]]. apply get_None_keys in Hget. exact (Hget Ha).
    + intros k h Hin. apply in_app_or in Hin. destruct Hin as [Hold|[Heq|[]]].
      * apply Hentries, Hold.
      * inversion Heq; subst. apply Hnew; [reflexivity|intros x []].
    + exists [SensorReading.name r]. rewrite map_app. reflexivity.
Qed.

Lemma record_batch_tidy (batch : list SensorReading.t) :
  forall hist : dict TemperatureHistory,
    tidy hist ->
    tidy (fold_left record_one batch hist)
    /\ exists new, map fst (fold_left record_one batch hist) = map fst hist ++ new.
Proof.
  induction batch as [|r batch IH]; intros hist Htidy; cbn [fold_left].
  - split; [exact Htidy|]. exists []. rewrite app_nil_r. reflexivity.
  - destruct (record_one_tidy hist r Htidy) as [Htidy1 [new1 Hkeys1]].
    destruct (IH _ Htidy1) as [Htidy2 [new2 Hkeys2]].
    split; [exact Htidy2|]. exists (new1 ++ new2).
    rewrite Hkeys2, Hkeys1, app_assoc. reflexivity.
Qed.

(** Whatever is done to a service, its history map stays in shape: one entry
    per sensor, each history of capacity 1000 and within it, holding only
    readings of its own sensor; the sensors already known keep their place
    and new ones go to the end. *)
Theorem history_map_stays_tidy w (ops : list (Operation W)) :
  tidy (history (service w)) ->
  tidy (history (service (fst (perform_all ops w))))
  /\ exists new,
       map fst (history (service (fst (perform_all ops w))))
       = map fst (history (service w)) ++ new.
Proof.
  intros Htidy. rewrite perform_all_history. apply record_batch_tidy, Htidy.
Qed.

Lemma collect_histories_in_range (clock : nat -> datetime) (minutes : Z)
    (items : dict TemperatureHistory) :
  (forall n, representable (clock n)
             /\ representable (minutes_before (clock n) minutes)) ->
  forall (n : nat) (acc : dict (list SensorReading.t)),
    NoDup (map fst acc ++ map fst items) ->
    collect_histories clock n items minutes acc
    = Returned
        (acc ++ map (fun ih : nat * (string * TemperatureHistory) =>
                       (fst (snd ih),
                        filter (fun r => (minutes_before (clock (fst ih)) minutes
                                          <=? SensorReading.timestamp r)%Z)
                               (readings (snd (snd ih)))))
                    (combine (seq n (length items)) items)).
Proof.
  intros Hclock. induction items as [|[k h] items IH]; intros n acc Hnodup.
  - simpl. rewrite app_nil_r. reflexivity.
  - cbn [collect_histories]. destruct (Hclock n) as [Hnow Hthen].
    rewrite (get_readings_for_timeframe_in_range (clock n) h minutes Hnow Hthen).
    assert (Hfresh : get acc k = None).
    { apply get_None_keys. intros Hin. cbn [map fst] in Hnodup.
      apply NoDup_remove_2 in Hnodup. apply Hnodup, in_or_app. left. exact Hin. }
    rewrite setitem_fresh by exact Hfresh.
    rewrite IH.
    + cbn [length seq combine map fst snd]. rewrite <- app_assoc. reflexivity.
    + rewrite map_app. cbn [map fst]. rewrite <- app_assoc. exact Hnodup.
Qed.

(** [get_all_historical_readings] on a map without a repeated key, for a
    window the clock readings allow: one entry per sensor, in the order of
    the map, each the window of that sensor's history taken at the clock
    reading of its turn. *)
Theorem all_histories_are_the_windows_in_map_order
    (clock : nat -> datetime) s (minutes : Z) :
  NoDup (map fst (history s)) ->
  (forall n, representable (clock n)
             /\ representable (minutes_before (clock n) minutes)) ->
  get_all_historical_readings clock s minutes
  = Returned
      (map (fun ih : nat * (string * TemperatureHistory) =>
              (fst (snd ih),
               filter (fun r => (minutes_before (clock (fst ih)) minutes
                                 <=? SensorReading.timestamp r)%Z)
                      (readings (snd (snd ih)))))
           (indexed (history s))).
Proof.
  intros Hnodup Hclock. unfold get_all_historical_readings, indexed.
  rewrite (collect_histories_in_range clock minutes (history s) Hclock 0 []).
  - reflexivity.
  - exact Hnodup.
Qed.

End MoreServiceFacts.

Lemma history_is_the_last_1000_recorded_witness :
  get_historical_readings (sample_now + 5000000)%Z
    (service (fst (perform_all
                     [RecordReadings batch_a; ProcessPendingCallbacks;
                      RecordReadings batch_b]
                     fresh_world)))
    "chip_temp1_input" 60
  = Returned (batch_a ++ batch_b).
Proof.
  apply (history_is_the_last_1000_recorded fresh_world
           [RecordReadings batch_a; ProcessPendingCallbacks; RecordReadings batch_b]
           "chip_temp1_input" (sample_now + 5000000)%Z 60).
  - reflexivity.
  - unfold representable. vm_compute. split; discriminate.
  - unfold representable. vm_compute. split; discriminate.
Defined.

Lemma history_map_stays_tidy_witness :
  tidy (history (service (fst (perform_all
                                 [RecordReadings batch_a; PollOnce; RecordReadings batch_b]
                                 fresh_world)))).
Proof.
  apply (history_map_stays_tidy fresh_world
           [RecordReadings batch_a; PollOnce; RecordReadings batch_b]).
  split; [constructor|intros k h []].
Defined.

Lemma all_histories_are_the_windows_in_map_order_witness :
  get_all_historical_readings (fun _ => (sample_now + 5000000)%Z)
    (service (fst (perform_all [RecordReadings batch_a; RecordReadings batch_b]
                               fresh_world))) 60
  = Returned [("chip_temp1_input", batch_a ++ batch_b)].
Proof.
  apply (all_histories_are_the_windows_in_map_order
           (fun _ => (sample_now + 5000000)%Z)
           (service (fst (perform_all [RecordReadings batch_a; RecordReadings batch_b]
                                      fresh_world))) 60).
  - vm_compute. constructor; [intros []|constructor].
  - intros n. unfold representable. vm_compute. repeat split; discriminate.
Defined.

(** ** The drain, beyond the claims *)

Section MoreDrainFacts.
Context {W Env : Type}.
Implicit Types (w : World W Env) (s : ThermalMonitoringService W Env).

Lemma for_reading_callbacks_consumer (batch : list SensorReading.t)
    (cbs : list (ReadingCallback W)) :
  forall (start : nat) w,
    consumer (snd (for_each (fun ic : nat * ReadingCallback W =>
                               try_except (call_reading_callback (fst ic) (snd ic) batch)
                                          (fun exc => put_error exc))
                            (combine (seq start (length cbs)) cbs) w))
    = fold_left (fun c cb => snd (cb batch c)) cbs (consumer w).
Proof.
  induction cbs as [|cb cbs IH]; intros start w; [reflexivity|].
  simpl. unfold bind, try_except, call_reading_callback. simpl.
  destruct (cb batch (consumer w)) as [[[]|e] c]; simpl;
    match goal with
    | |- context [for_each ?f ?l ?w1] => exact (IH (S start) w1)
    end.
Qed.

Lemma for_error_callbacks_consumer (error : Exception) (cbs : list (ErrorCallback W)) :
  forall (start : nat) w,
    consumer (snd (for_each (fun jc : nat * ErrorCallback W =>
                               try_except (call_error_callback (fst jc) (snd jc) error)
                                          (fun _ => ret tt))
                            (combine (seq start (length cbs)) cbs) w))
    = fold_left (fun c cb => snd (cb error c)) cbs (consumer w).
Proof.
  induction cbs as [|cb cbs IH]; intros start w; [reflexivity|].
  simpl. unfold bind, try_except, call_error_callback. simpl.
  destruct (cb error (consumer w)) as [[[]|e] c]; simpl;
    match goal with
    | |- context [for_each ?f ?l ?w1] => exact (IH (S start) w1)
    end.
Qed.

Lemma drain_readings_consumer (q : list (list SensorReading.t)) :
  forall w, _pending_readings (service w) = q ->
    consumer (snd (drain_readings w))
    = fold_left (fun c batch =>
                   fold_left (fun c cb => snd (cb batch c))
                             (reading_callbacks (service w)) c)
                q (consumer w).
Proof.
  induction q as [|batch rest IH]; intros w Hq; rewrite drain_readings_step, Hq;
    [reflexivity|].
  unfold deliver_readings, indexed.
  destruct (for_reading_callbacks_trace batch (reading_callbacks (service w)) 0
              (with_service (with_pending_readings rest (service w)) w))
    as (tr & w2 & Hrun & _ & Hsvc & _).
  pose proof (for_reading_callbacks_consumer batch (reading_callbacks (service w)) 0
                (with_service (with_pending_readings rest (service w)) w)) as Hc.
  cbn [service with_service reading_callbacks with_pending_readings].
  rewrite Hrun in Hc |- *. cbn [snd consumer with_service] in Hc.
  rewrite (IH w2) by (rewrite Hsvc; reflexivity).
  rewrite Hsvc, Hc. reflexivity.
Qed.

Lemma drain_errors_consumer (q : list Exception) :
  forall w, _pending_errors (service w) = q ->
    consumer (snd (drain_errors w))
    = fold_left (fun c error =>
                   fold_left (fun c cb => snd (cb error c))
                             (error_callbacks (service w)) c)
                q (consumer w).
Proof.
  induction q as [|error rest IH]; intros w Hq; rewrite drain_errors_step, Hq;
    [reflexivity|].
  unfold deliver_error, indexed.
  destruct (for_error_callbacks_trace error (error_callbacks (service w)) 0
              (with_service (with_pending_errors rest (service w)) w))
    as (tr & w2 & Hrun & _ & Hsvc & _).
  pose proof (for_error_callbacks_consumer error (error_callbacks (service w)) 0
                (with_service (with_pending_errors rest (service w)) w)) as Hc.
  cbn [service with_service error_callbacks with_pending_errors].
  rewrite Hrun in Hc |- *. cbn [snd consumer with_service] in Hc.
  rewrite (IH w2) by (rewrite Hsvc; reflexivity).
  rewrite Hsvc, Hc. reflexivity.
Qed.

(** What a drain does to the consumer: batch after batch, oldest first, each
    reading-callback acts in the order of registration, whether it returns
    or raises; then error after error, those that were waiting first and
    those the reading-callbacks raised after them, each error-callback acts
    in the order of registration. *)
Theorem drain_runs_callbacks_in_registration_order w :
  let after_batches :=
    fold_left (fun c batch =>
                 fold_left (fun c cb => snd (cb batch c))
                           (reading_callbacks (service w)) c)
              (_pending_readings (service w)) (consumer w) in
  consumer (snd (drain_readings w)) = after_batches
  /\ consumer (snd (process_pending_callbacks w))
     = fold_left (fun c error =>
                    fold_left (fun c cb => snd (cb error c))
                              (error_callbacks (service w)) c)
                 (_pending_errors (service w)
                  ++ raised_by_reading_callbacks (calls_made_by drain_readings w))
                 after_batches.
Proof.
  cbn zeta.
  pose proof (drain_readings_consumer _ w eq_refl) as Hc1.
  split; [exact Hc1|].
  destruct (drain_readings_trace _ w eq_refl)
    as (tr & w1 & Hrun & Hcalls & Hsvc & _).
  unfold process_pending_callbacks, bind, calls_made_by.
  rewrite Hrun in Hc1 |- *. cbn [snd] in Hc1 |- *.
  rewrite (drain_errors_consumer _ w1 eq_refl), Hcalls, skipn_length_app, Hsvc, Hc1.
  reflexivity.
Qed.

(** A drain changes nothing of a service but its two queues, which it
    leaves empty, and does not touch the machine; a drain right after a
    drain changes nothing at all. *)
Theorem drain_only_empties_the_queues w :
  let w' := snd (process_pending_callbacks w) in
  service w' = with_pending_errors [] (with_pending_readings [] (service w))
  /\ history (service w') = history (service w)
  /\ length (reading_callbacks (service w')) = length (reading_callbacks (service w))
  /\ length (error_callbacks (service w')) = length (error_callbacks (service w))
  /\ _thread (service w') = _thread (service w)
  /\ _stop_event (service w') = _stop_event (service w)
  /\ is_running (service w') = is_running (service w)
  /\ machine w' = machine w
  /\ process_pending_callbacks w' = (Returned tt, w').
Proof.
  cbn zeta.
  destruct (process_pending_callbacks_trace w)
    as (rtr & etr & w' & Hrun & _ & Hsvc & Hm & _).
  rewrite Hrun. cbn [snd]. rewrite Hsvc, Hm. repeat split.
  unfold process_pending_callbacks, bind.
  rewrite drain_readings_step, Hsvc. cbn [_pending_readings with_pending_errors
                                          with_pending_readings].
  rewrite drain_errors_step, Hsvc. reflexivity.
Qed.

End MoreDrainFacts.

(** ** The background loop and the lifecycle, beyond the claim *)

Section MoreLifecycleFacts.
Context {W Env : Type}.
Implicit Types (w : World W Env) (sys : System W Env).

(** One pass of the loop body, by what the source does: a batch is recorded
    and then queued; a [RuntimeError] is queued as an error and nothing is
    recorded. *)
Theorem poll_once_records_or_queues_an_error w :
  (forall batch env,
     monitor (service w) (machine w) = (Returned batch, env) ->
     poll_once w
     = (Returned tt,
        {| service :=
             with_pending_readings (_pending_readings (service w) ++ [batch])
               (with_history (fold_left record_one batch (history (service w)))
                             (service w));
           consumer := consumer w; machine := env; calls := calls w |}))
  /\ (forall e env,
        monitor (service w) (machine w) = (Raised e, env) ->
        isinstance e "RuntimeError" = true ->
        poll_once w
        = (Returned tt,
           {| service := with_pending_errors (_pending_errors (service w) ++ [e])
                                            (service w);
              consumer := consumer w; machine := env; calls := calls w |})).
Proof.
  split.
  - intros batch env Hsrc.
    unfold poll_once, try_except_class, bind, get_current_readings. rewrite Hsrc.
    reflexivity.
  - intros e env Hsrc Hcls.
    unfold poll_once, try_except_class, bind, get_current_readings. rewrite Hsrc, Hcls.
    reflexivity.
Qed.

Lemma poll_once_keeps_consumer_side w :
  calls (snd (poll_once w)) = calls w
  /\ consumer (snd (poll_once w)) = consumer w
  /\ reading_callbacks (service (snd (poll_once w))) = reading_callbacks (service w)
  /\ error_callbacks (service (snd (poll_once w))) = error_callbacks (service w).
Proof.
  unfold poll_once, try_except_class, bind, get_current_readings.
  destruct (monitor (service w) (machine w)) as [[batch|e] env]; cbn.
  - repeat split; reflexivity.
  - destruct (isinstance e "RuntimeError"); cbn; repeat split; reflexivity.
Qed.

Lemma step_keeps_consumer_side (a : Action) sys sys' :
  step a sys = Some sys' ->
  calls (world sys') = calls (world sys)
  /\ consumer (world sys') = consumer (world sys)
  /\ reading_callbacks (service (world sys')) = reading_callbacks (service (world sys))
  /\ error_callbacks (service (world sys')) = error_callbacks (service (world sys)).
Proof.
  destruct a as [c|c|c|c|t]; cbn [step].
  - destruct (nth_error (callers sys) c) as [[| |]|]; try discriminate.
    intros H; inversion H; subst sys'. unfold start_monitoring.
    destruct (match _thread _ with Some _ => _ | None => _ end); cbn;
      repeat split; reflexivity.
  - destruct (nth_error (callers sys) c) as [[| |]|]; try discriminate.
    intros H; inversion H; subst sys'. cbn. repeat split; reflexivity.
  - destruct (nth_error (callers sys) c) as [[|[t|]|]|]; try discriminate.
    + destruct (is_alive sys t); [discriminate|].
      intros H; inversion H; subst sys'. cbn. repeat split; reflexivity.
    + intros H; inversion H; subst sys'. cbn. repeat split; reflexivity.
  - destruct (nth_error (callers sys) c) as [[| |]|]; try discriminate.
    intros H; inversion H; subst sys'. cbn. repeat split; reflexivity.
  - unfold worker_step.
    destruct (nth_error (threads sys) t) as [[| | |]|]; try discriminate.
    + destruct (_stop_event (service (world sys))).
      * intros H; inversion H; subst sys'. cbn. repeat split; reflexivity.
      * pose proof (poll_once_keeps_consumer_side (world sys)) as Hkeep.
        destruct (poll_once (world sys)) as [[[]|e] w']; cbn [snd] in Hkeep;
          intros H; inversion H; subst sys'; cbn; exact Hkeep.
    + intros H; inversion H; subst sys'. cbn. repeat split; reflexivity.
    + intros H; inversion H; subst sys'. cbn. repeat split; reflexivity.
Qed.

(** No caller in [start_monitoring] or [stop_monitoring] and no turn of a
    background thread ever calls a callback, touches the state of the
    consumer or changes the registries: callbacks only run in a drain. *)
Theorem lifecycle_never_runs_a_callback (schedule : list Action) :
  forall sys sys',
    run schedule sys = Some sys' ->
    calls (world sys') = calls (world sys)
    /\ consumer (world sys') = consumer (world sys)
    /\ reading_callbacks (service (world sys')) = reading_callbacks (service (world sys))
    /\ error_callbacks (service (world sys')) = error_callbacks (service (world sys)).
Proof.
  induction schedule as [|a schedule IH]; intros sys sys' Hrun; simpl in Hrun.
  - inversion Hrun; subst. repeat split; reflexivity.
  - destruct (step a sys) as [sys1|] eqn:Hstep; [|discriminate].
    destruct (step_keeps_consumer_side a sys sys1 Hstep) as (H1 & H2 & H3 & H4).
    destruct (IH sys1 sys' Hrun) as (H1' & H2' & H3' & H4').
    rewrite H1', H2', H3', H4'. repeat split; assumption.
Qed.

(** A source failure that is not a [RuntimeError] ends the loop: the thread
    is gone, [is_running] is left as it was, and the failure is in neither
    queue, so no error-callback will hear of it. *)
Theorem unexpected_source_failure_ends_the_loop_silently
    (t : nat) sys (e : Exception) (env : Env) :
  nth_error (threads sys) t = Some AtLoopTest ->
  _stop_event (service (world sys)) = false ->
  monitor (service (world sys)) (machine (world sys)) = (Raised e, env) ->
  isinstance e "RuntimeError" = false ->
  exists sys',
    worker_step t sys = Some sys'
    /\ is_alive sys' t = false
    /\ service (world sys') = service (world sys)
    /\ is_running (service (world sys')) = is_running (service (world sys))
    /\ _pending_errors (service (world sys')) = _pending_errors (service (world sys))
    /\ _pending_readings (service (world sys')) = _pending_readings (service (world sys)).
Proof.
  intros Hpc Hgo Hsrc Hcls. unfold worker_step. rewrite Hpc, Hgo.
  unfold poll_once, try_except_class, bind, get_current_readings. rewrite Hsrc, Hcls.
  eexists. split; [reflexivity|]. unfold is_alive. cbn.
  rewrite (nth_error_replace_same t Terminated AtLoopTest (threads sys) Hpc).
  repeat split; reflexivity.
Qed.





End MoreLifecycleFacts.

Lemma poll_once_records_or_queues_an_error_witness :
  fst (poll_once fresh_world) = Returned tt
  /\ _pending_errors (service (snd (poll_once (world_with unavailable_monitor))))
     = [RuntimeError "lm_sensors is not available on this system"].
Proof.
  split.
  - rewrite (proj1 (poll_once_records_or_queues_an_error fresh_world) [] tt eq_refl).
    reflexivity.
  - rewrite (proj2 (poll_once_records_or_queues_an_error (world_with unavailable_monitor))
               (RuntimeError "lm_sensors is not available on this system") tt
               eq_refl eq_refl).
    reflexivity.
Defined.

Lemma lifecycle_never_runs_a_callback_witness :
  calls (world (after [Start 0; Worker 0; Worker 0; StopSignal 0] (boot sample_world 1)))
  = calls (world (boot sample_world 1)).
Proof.
  apply (lifecycle_never_runs_a_callback [Start 0; Worker 0; Worker 0; StopSignal 0]
           (boot sample_world 1)
           (after [Start 0; Worker 0; Worker 0; StopSignal 0] (boot sample_world 1))).
  vm_compute. reflexivity.
Defined.

Lemma unexpected_source_failure_ends_the_loop_silently_witness :
  exists sys',
    worker_step 0 (started (world_with broken_monitor)) = Some sys'
    /\ is_alive sys' 0 = false
    /\ is_running (service (world sys')) = true
    /\ _pending_errors (service (world sys')) = [].
Proof.
  destruct (unexpected_source_failure_ends_the_loop_silently 0
              (started (world_with broken_monitor)) (ValueError "unexpected output") tt
              eq_refl eq_refl eq_refl eq_refl)
    as (sys' & Hstep & Hdead & _ & Hrunning & Herrors & _).
  exists sys'. repeat split; assumption.
Defined.



Lemma single_caller_lifecycle_witness :
  live_loops (after [Start 0; Worker 0; Start 0; StopSignal 0; Worker 0; Worker 0;
                     Worker 0; StopJoin 0; StopClear 0; Start 0] (boot fresh_world 1))
  <= 1.
Proof.
  apply (single_caller_lifecycle fresh_world
           [Start 0; Worker 0; Start 0; StopSignal 0; Worker 0; Worker 0; Worker 0;
            StopJoin 0; StopClear 0; Start 0]
           (after [Start 0; Worker 0; Start 0; StopSignal 0; Worker 0; Worker 0;
                   Worker 0; StopJoin 0; StopClear 0; Start 0] (boot fresh_world 1))).
  - reflexivity.
  - vm_compute. reflexivity.
Defined.

(** ** The sensor source: names *)

Section NameFacts.
Context {Env : Type}.
Variable rt : LmSensors.Runtime Env.

Lemma startswith_spec (s p : string) :
  Str.startswith s p = true <-> exists tail : string, s = (p ++ tail)%string.
Proof.
  unfold Str.startswith. revert s.
  induction p as [|c p IH]; intros s; simpl.
  - split; [intros _; exists s; reflexivity | intros _; destruct s; reflexivity].
  - destruct s as [|d s]; simpl.
    + split; [discriminate | intros [tail H]; discriminate].
    + destruct (Ascii.ascii_dec c d) as [->|Hne].
      * rewrite IH. split; intros [tail H]; exists tail.
        -- now rewrite H.
        -- now injection H.
      * split; [discriminate | intros [tail H]; injection H; intros; congruence].
Qed.

Lemma endswith_spec (s suffix : string) :
  Str.endswith s suffix = true <-> exists stem : string, s = (stem ++ suffix)%string.
Proof.
  induction s as [|c s IH]; cbn [Str.endswith].
  - rewrite orb_false_r, String.eqb_eq. split.
    + intros <-. exists ""%string. reflexivity.
    + intros [stem H]. destruct stem; [exact H | discriminate].
  - rewrite orb_true_iff, String.eqb_eq, IH. split.
    + intros [<- | [stem ->]].
      * exists ""%string. reflexivity.
      * exists (String c stem). reflexivity.
    + intros [stem H]. destruct stem as [|d stem]; simpl in H.
      * left. exact H.
      * right. exists stem. now injection H.
Qed.

Lemma contains_spec (s sub : string) :
  Str.contains s sub = true
  <-> exists head tail : string, s = (head ++ sub ++ tail)%string.
Proof.
  induction s as [|c s IH]; cbn [Str.contains].
  - rewrite orb_false_r. change (String.prefix sub "") with (Str.startswith "" sub).
    rewrite startswith_spec. split.
    + intros [tail H]. exists ""%string, tail. exact H.
    + intros [head [tail H]]. destruct head; [exists tail; exact H | discriminate].
  - rewrite orb_true_iff, IH.
    change (String.prefix sub (String c s)) with (Str.startswith (String c s) sub).
    rewrite startswith_spec. split.
    + intros [[tail H] | [head [tail ->]]].
      * exists ""%string, tail. exact H.
      * exists (String c head), tail. reflexivity.
    + intros [head [tail H]]. destruct head as [|d head]; simpl in H.
      * left. exists tail. exact H.
      * right. exists head, tail. now injection H.
Qed.

Lemma append_assoc (a b c : string) : ((a ++ b) ++ c = a ++ b ++ c)%string.
Proof. induction a as [|x a IH]; simpl; [reflexivity | now rewrite IH]. Qed.

(** A name with ["amdgpu"] in it has ["gpu"] in it. *)
Lemma contains_amdgpu_gpu (s : string) :
  Str.contains s "amdgpu" = true -> Str.contains s "gpu" = true.
Proof.
  rewrite !contains_spec. intros [head [tail ->]].
  exists (head ++ "amd")%string, tail. now rewrite append_assoc.
Qed.

(** The type of a chip is decided by the markers its lowered name
    holds, the first group that has one winning: CPU before GPU before
    HDD/SSD, and Motherboard for a name with none.  The test for
    ["amdgpu"] never decides: such a name has ["gpu"] in it. *)
Theorem sensor_type_is_decided_by_the_first_marker (chip_name : string) :
  let has := LmSensors.mentions rt chip_name in
  let cpu := has "cpu" \/ has "core" \/ has "k10temp" in
  let gpu := has "gpu" \/ has "nvidia" in
  let disk := has "nvme" \/ has "drivetemp" in
  (LmSensors._determine_sensor_type rt chip_name = "CPU" <-> cpu)
  /\ (LmSensors._determine_sensor_type rt chip_name = "GPU" <-> ~ cpu /\ gpu)
  /\ (LmSensors._determine_sensor_type rt chip_name = "HDD/SSD"
      <-> ~ cpu /\ ~ gpu /\ disk)
  /\ (LmSensors._determine_sensor_type rt chip_name = "Motherboard"
      <-> ~ cpu /\ ~ gpu /\ ~ disk).
Proof.
  unfold LmSensors.mentions, LmSensors._determine_sensor_type. cbv zeta.
  set (l := LmSensors.str_lower rt chip_name).
  pose proof (contains_amdgpu_gpu l) as Hamd.
  rewrite <- !(contains_spec l).
  destruct (Str.contains l "cpu"), (Str.contains l "core"), (Str.contains l "k10temp");
    cbn [orb];
    try (repeat split; intros; try discriminate; tauto).
  destruct (Str.contains l "gpu"), (Str.contains l "nvidia");
    cbn [orb];
    try (repeat split; intros; try discriminate; intuition discriminate).
  destruct (Str.contains l "amdgpu");
    [specialize (Hamd eq_refl); discriminate|].
  destruct (Str.contains l "nvme"), (Str.contains l "drivetemp");
    cbn [orb]; repeat split; intros; try discriminate; intuition discriminate.
Qed.

(** A pair of names is taken for a temperature input exactly when the
    lowered subfeature name ends in ["_input"] and either has ["temp"] in
    it or stands under a feature whose lowered name starts with ["temp"],
    ["tctl"] or ["tdie"]. *)
Theorem temperature_input_is_decided_by_the_lowered_names
    (feature_name subfeature_name : string) :
  let feature := LmSensors.str_lower rt feature_name in
  let subfeature := LmSensors.str_lower rt subfeature_name in
  LmSensors._is_temperature_input rt feature_name subfeature_name = true
  <-> (exists stem : string, subfeature = (stem ++ "_input")%string)
      /\ ((exists head tail : string, subfeature = (head ++ "temp" ++ tail)%string)
          \/ (exists tail : string, feature = ("temp" ++ tail)%string)
          \/ (exists tail : string, feature = ("tctl" ++ tail)%string)
          \/ (exists tail : string, feature = ("tdie" ++ tail)%string)).
Proof.
  cbv zeta. unfold LmSensors._is_temperature_input.
  rewrite <- endswith_spec, <- contains_spec, <- !startswith_spec.
  destruct (Str.endswith (LmSensors.str_lower rt subfeature_name) "_input");
    cbn [negb].
  - destruct (Str.contains (LmSensors.str_lower rt subfeature_name) "temp"),
             (Str.startswith (LmSensors.str_lower rt feature_name) "temp"),
             (Str.startswith (LmSensors.str_lower rt feature_name) "tctl"),
             (Str.startswith (LmSensors.str_lower rt feature_name) "tdie");
      cbn [orb]; intuition discriminate.
  - intuition discriminate.
Qed.

Lemma ascii_lower_app (a b : string) :
  Str.ascii_lower (a ++ b) = (Str.ascii_lower a ++ Str.ascii_lower b)%string.
Proof. induction a as [|c a IH]; simpl; [reflexivity | now rewrite IH]. Qed.

Lemma isascii_app (a b : string) :
  Str.isascii (a ++ b) = Str.isascii a && Str.isascii b.
Proof.
  induction a as [|c a IH]; cbn [Str.isascii append]; [reflexivity|].
  now rewrite IH, andb_assoc.
Qed.

(** A subfeature named [temp<anything>_input], in any mix of cases, is a
    temperature input under every feature: for the names the comment in the
    source gives, the test on ["tctl"] and ["tdie"] is not what decides. *)
Theorem standard_temperature_inputs_are_accepted
    (feature_name prefix number suffix : string) :
  LmSensors.lowers_ascii rt ->
  Str.isascii number = true ->
  Str.ascii_lower prefix = "temp" ->
  Str.ascii_lower suffix = "_input" ->
  Str.isascii prefix = true ->
  Str.isascii suffix = true ->
  LmSensors._is_temperature_input rt feature_name (prefix ++ number ++ suffix) = true.
Proof.
  intros Hlower Hnumber Hprefix Hsuffix Hp Hs.
  unfold LmSensors._is_temperature_input.
  rewrite (Hlower (prefix ++ number ++ suffix)%string)
    by (rewrite !isascii_app, Hnumber, Hp, Hs; reflexivity).
  rewrite !ascii_lower_app, Hprefix, Hsuffix.
  assert (Hend : Str.endswith ("temp" ++ Str.ascii_lower number ++ "_input") "_input"
                 = true).
  { apply endswith_spec. exists ("temp" ++ Str.ascii_lower number)%string.
    now rewrite append_assoc. }
  assert (Htemp : Str.contains ("temp" ++ Str.ascii_lower number ++ "_input") "temp"
                  = true).
  { apply contains_spec.
    exists ""%string, (Str.ascii_lower number ++ "_input")%string. reflexivity. }
  rewrite Hend, Htemp. reflexivity.
Qed.

End NameFacts.

(** ** The sensor source: parsing *)

Section ParseFacts.
Context {Env : Type}.
Variable rt : LmSensors.Runtime Env.

Lemma stamp_app (a b : list LmSensors.Input) :
  forall env,
    LmSensors.stamp rt (a ++ b) env
    = match LmSensors.stamp rt a env with
      | (Raised exc, env') => (Raised exc, env')
      | (Returned rs, env') =>
          match LmSensors.stamp rt b env' with
          | (Raised exc, env'') => (Raised exc, env'')
          | (Returned rs', env'') => (Returned (rs ++ rs'), env'')
          end
      end.
Proof.
  induction a as [|i a IH]; intros env; cbn [app LmSensors.stamp].
  - destruct (LmSensors.stamp rt b env) as [[rs|exc] env']; reflexivity.
  - destruct (LmSensors.in_value i) as [v|exc]; [|reflexivity].
    destruct (LmSensors.datetime_now rt env) as [timestamp env1].
    rewrite IH.
    destruct (LmSensors.stamp rt a env1) as [[rs|exc] env2]; [|reflexivity].
    destruct (LmSensors.stamp rt b env2) as [[rs'|exc] env3]; reflexivity.
Qed.

Lemma for_subfeatures_stamp (chip_name feature_name label : string)
    (items : dict LmSensors.Json) :
  forall readings env,
    LmSensors.for_subfeatures rt chip_name (LmSensors._determine_sensor_type rt chip_name)
      feature_name label items readings env
    = match LmSensors.stamp rt
              (flat_map
                 (fun item : string * LmSensors.Json =>
                    if LmSensors._is_temperature_input rt feature_name (fst item)
                    then match LmSensors.number_to_float (snd item) with
                         | Some v => [LmSensors.mkInput chip_name feature_name (fst item)
                                                        label v]
                         | None => []
                         end
                    else [])
                 items) env with
      | (Raised exc, env') => (Raised exc, env')
      | (Returned rs, env') => (Returned (readings ++ rs), env')
      end.
Proof.
  induction items as [|[subfeature_name value] rest IH]; intros readings env;
    cbn [LmSensors.for_subfeatures flat_map fst snd].
  - cbn [LmSensors.stamp]. now rewrite app_nil_r.
  - destruct (LmSensors._is_temperature_input rt feature_name subfeature_name);
      cbn [negb app]; [|apply IH].
    destruct (LmSensors.number_to_float value) as [[v|exc]|]; cbn [app]; [| |apply IH].
    + cbn [LmSensors.stamp LmSensors.in_value].
      destruct (LmSensors.datetime_now rt env) as [timestamp env1].
      rewrite IH.
      destruct (LmSensors.stamp rt _ env1) as [[rs|exc] env2]; [|reflexivity].
      now rewrite <- app_assoc.
    + reflexivity.
Qed.

Lemma for_features_stamp (chip_name : string) (items : dict LmSensors.Json) :
  forall readings env,
    LmSensors.for_features rt chip_name (LmSensors._determine_sensor_type rt chip_name)
      items readings env
    = match LmSensors.stamp rt (LmSensors.inputs_of_chip rt chip_name items) env with
      | (Raised exc, env') => (Raised exc, env')
      | (Returned rs, env') => (Returned (readings ++ rs), env')
      end.
Proof.
  unfold LmSensors.inputs_of_chip.
  induction items as [|[feature_name feature_data] rest IH]; intros readings env;
    cbn [LmSensors.for_features flat_map fst snd].
  - cbn [LmSensors.stamp]. now rewrite app_nil_r.
  - destruct feature_data; cbn [app]; try apply IH.
    rewrite for_subfeatures_stamp, stamp_app.
    unfold LmSensors.inputs_of_feature.
    destruct (LmSensors.stamp rt _ env) as [[rs|exc] env1]; [|reflexivity].
    rewrite IH.
    destruct (LmSensors.stamp rt _ env1) as [[rs'|exc] env2]; [|reflexivity].
    now rewrite app_assoc.
Qed.

Lemma for_chips_stamp (items : dict LmSensors.Json) :
  forall readings env,
    LmSensors.for_chips rt items readings env
    = match LmSensors.stamp rt (LmSensors.temperature_inputs rt items) env with
      | (Raised exc, env') => (Raised exc, env')
      | (Returned rs, env') => (Returned (readings ++ rs), env')
      end.
Proof.
  unfold LmSensors.temperature_inputs.
  induction items as [|[chip_name chip_data] rest IH]; intros readings env;
    cbn [LmSensors.for_chips flat_map fst snd].
  - cbn [LmSensors.stamp]. now rewrite app_nil_r.
  - destruct chip_data; cbn [app]; try apply IH.
    rewrite for_features_stamp, stamp_app.
    destruct (LmSensors.stamp rt _ env) as [[rs|exc] env1]; [|reflexivity].
    rewrite IH.
    destruct (LmSensors.stamp rt _ env1) as [[rs'|exc] env2]; [|reflexivity].
    now rewrite app_assoc.
Qed.

(** The three loops are one pass over the temperature inputs. *)
Lemma parse_sensor_data_stamp (raw_data : dict LmSensors.Json) (env : Env) :
  LmSensors.parse_sensor_data rt raw_data env
  = LmSensors.stamp rt (LmSensors.temperature_inputs rt raw_data) env.
Proof.
  unfold LmSensors.parse_sensor_data. rewrite for_chips_stamp.
  destruct (LmSensors.stamp rt _ env) as [[rs|exc] env']; reflexivity.
Qed.

(** Where the temperature inputs stand in the document. *)
Lemma In_temperature_inputs (raw_data : dict LmSensors.Json) (i : LmSensors.Input) :
  In i (LmSensors.temperature_inputs rt raw_data)
  <-> exists chip_data feature_data value,
        In (LmSensors.in_chip i, LmSensors.JDict chip_data) raw_data
        /\ In (LmSensors.in_feature i, LmSensors.JDict feature_data) chip_data
        /\ In (LmSensors.in_subfeature i, value) feature_data
        /\ LmSensors._is_temperature_input rt (LmSensors.in_feature i)
             (LmSensors.in_subfeature i) = true
        /\ LmSensors.number_to_float value = Some (LmSensors.in_value i)
        /\ LmSensors.in_label i
           = LmSensors.label_of rt feature_data (LmSensors.in_feature i).
Proof.
  unfold LmSensors.temperature_inputs, LmSensors.inputs_of_chip,
    LmSensors.inputs_of_feature.
  split.
  - intros H. apply in_flat_map in H as [[chip_name chip_data] [Hchip H]].
    cbn [fst snd] in H. destruct chip_data as [| | | | | |chip_items]; try contradiction.
    apply in_flat_map in H as [[feature_name feature_data] [Hfeature H]].
    cbn [fst snd] in H.
    destruct feature_data as [| | | | | |feature_items]; try contradiction.
    apply in_flat_map in H as [[subfeature_name value] [Hsub H]].
    cbn [fst snd] in H.
    destruct (LmSensors._is_temperature_input rt feature_name subfeature_name) eqn:Htemp;
      [|contradiction].
    destruct (LmSensors.number_to_float value) as [v|] eqn:Hvalue; [|contradiction].
    destruct H as [<-|[]]. cbn.
    exists chip_items, feature_items, value. repeat split; assumption.
  - intros (chip_data & feature_data & value & Hchip & Hfeature & Hsub & Htemp
            & Hvalue & Hlabel).
    apply in_flat_map. exists (LmSensors.in_chip i, LmSensors.JDict chip_data).
    split; [exact Hchip|]. cbn [fst snd].
    apply in_flat_map. exists (LmSensors.in_feature i, LmSensors.JDict feature_data).
    split; [exact Hfeature|]. cbn [fst snd].
    apply in_flat_map. exists (LmSensors.in_subfeature i, value).
    split; [exact Hsub|]. cbn [fst snd].
    rewrite Htemp, Hvalue, <- Hlabel. left. destruct i; reflexivity.
Qed.

Lemma stamp_returned (inputs : list LmSensors.Input) :
  forall env readings env',
    LmSensors.stamp rt inputs env = (Returned readings, env') ->
    Forall2 (fun i r =>
               LmSensors.in_value i = Returned (SensorReading.value r)
               /\ r = LmSensors.reading_of rt i (SensorReading.value r)
                        (SensorReading.timestamp r))
            inputs readings
    /\ (map SensorReading.timestamp readings, env')
       = LmSensors.clock_reads rt (length inputs) env.
Proof.
  induction inputs as [|i rest IH]; intros env readings env' H;
    cbn [LmSensors.stamp LmSensors.clock_reads length] in *.
  - injection H as <- <-. split; [constructor | reflexivity].
  - destruct (LmSensors.in_value i) as [v|exc] eqn:Hv; [|discriminate].
    destruct (LmSensors.datetime_now rt env) as [timestamp env1].
    destruct (LmSensors.stamp rt rest env1) as [[rs|exc] env2] eqn:Hrest;
      [|discriminate].
    injection H as <- <-.
    destruct (IH env1 rs env2 Hrest) as [Hall Hclock].
    rewrite <- Hclock. split; [|reflexivity].
    constructor; [|exact Hall]. cbn. split; [exact Hv | reflexivity].
Qed.

Lemma stamp_raised (inputs : list LmSensors.Input) :
  forall env exc env',
    LmSensors.stamp rt inputs env = (Raised exc, env') ->
    exists i, In i inputs /\ LmSensors.in_value i = Raised exc.
Proof.
  induction inputs as [|i rest IH]; intros env exc env' H; cbn [LmSensors.stamp] in H.
  - discriminate.
  - destruct (LmSensors.in_value i) as [v|exc0] eqn:Hv.
    + destruct (LmSensors.datetime_now rt env) as [timestamp env1].
      destruct (LmSensors.stamp rt rest env1) as [[rs|exc1] env2] eqn:Hrest;
        [discriminate|].
      injection H as <- <-.
      destruct (IH env1 exc1 env2 Hrest) as [j [Hin Hj]].
      exists j. split; [right; exact Hin | exact Hj].
    + injection H as <- <-. exists i. split; [left; reflexivity | exact Hv].
Qed.

Lemma stamp_returns (inputs : list LmSensors.Input) :
  (forall i, In i inputs -> exists v, LmSensors.in_value i = Returned v) ->
  forall env, exists readings env',
    LmSensors.stamp rt inputs env = (Returned readings, env').
Proof.
  induction inputs as [|i rest IH]; intros Hall env; cbn [LmSensors.stamp].
  - exists [], env. reflexivity.
  - destruct (Hall i (or_introl eq_refl)) as [v ->].
    destruct (LmSensors.datetime_now rt env) as [timestamp env1].
    destruct (IH (fun j Hj => Hall j (or_intror Hj)) env1) as (rs & env2 & ->).
    eexists _, _. reflexivity.
Qed.

(** [float(True)] and [float(False)] *)
Lemma float_of_bool (b : bool) :
  LmSensors.float_of_int (if b then 1 else 0)
  = Returned (if b then 1%float else 0%float).
Proof. destruct b; vm_compute; reflexivity. Qed.

Lemma float_of_int_raised (z : Z) (exc : Exception) :
  LmSensors.float_of_int z = Raised exc ->
  exc = OverflowError "int too large to convert to float".
Proof.
  unfold LmSensors.float_of_int.
  destruct (is_infinity _); intros H; [|discriminate H].
  injection H as <-. reflexivity.
Qed.

(** The only conversion that fails is that of an integer. *)
Lemma number_to_float_raised (value : LmSensors.Json) (exc : Exception) :
  LmSensors.number_to_float value = Some (Raised exc) ->
  exc = OverflowError "int too large to convert to float"
  /\ exists z, value = LmSensors.JInt z /\ LmSensors.float_of_int z = Raised exc.
Proof.
  destruct value as [|b|z|f|s|items|items]; cbn [LmSensors.number_to_float];
    intros H.
  - discriminate H.
  - rewrite float_of_bool in H. discriminate H.
  - injection H as H. split; [exact (float_of_int_raised z exc H)|].
    exists z. split; [reflexivity | exact H].
  - discriminate H.
  - discriminate H.
  - discriminate H.
  - discriminate H.
Qed.

(** When [parse_sensor_data] returns, its readings are the numeric
    temperature inputs of the document, one reading for each and in the
    order of the document: the name is chip, feature and subfeature joined
    by underscores, the label that of the feature, the value the number as a
    float, the unit the fixed text, the type that of the chip.  An input is
    a subfeature that [_is_temperature_input] accepts, holding a number,
    inside a feature that is an object, inside a chip that is an object;
    anything else in the document gives no reading. *)
Theorem parsed_readings_are_the_numeric_temperature_inputs
    (raw_data : dict LmSensors.Json) (env : Env)
    (readings : list SensorReading.t) (env' : Env) :
  LmSensors.parse_sensor_data rt raw_data env = (Returned readings, env') ->
  Forall2 (fun i r =>
             LmSensors.in_value i = Returned (SensorReading.value r)
             /\ SensorReading.name r
                = (LmSensors.in_chip i ++ "_" ++ LmSensors.in_feature i ++ "_"
                   ++ LmSensors.in_subfeature i)%string
             /\ SensorReading.label r = LmSensors.in_label i
             /\ SensorReading.unit r = "Â°C"
             /\ SensorReading.sensor_type r
                = LmSensors._determine_sensor_type rt (LmSensors.in_chip i))
          (LmSensors.temperature_inputs rt raw_data) readings
  /\ forall i,
       In i (LmSensors.temperature_inputs rt raw_data)
       <-> exists chip_data feature_data value,
             In (LmSensors.in_chip i, LmSensors.JDict chip_data) raw_data
             /\ In (LmSensors.in_feature i, LmSensors.JDict feature_data) chip_data
             /\ In (LmSensors.in_subfeature i, value) feature_data
             /\ LmSensors._is_temperature_input rt (LmSensors.in_feature i)
                  (LmSensors.in_subfeature i) = true
             /\ LmSensors.number_to_float value = Some (LmSensors.in_value i)
             /\ LmSensors.in_label i
                = LmSensors.label_of rt feature_data (LmSensors.in_feature i).
Proof.
  intros H. rewrite parse_sensor_data_stamp in H.
  split; [|intros i; apply In_temperature_inputs].
  destruct (stamp_returned _ _ _ _ H) as [Hall _].
  eapply Forall2_impl; [|exact Hall].
  intros i r [Hv Hr]. split; [exact Hv|].
  rewrite Hr. cbn. repeat split; reflexivity.
Qed.

(** [parse_sensor_data] raises nothing but the [OverflowError] of
    [float(value)], and only for a document with a temperature input that
    is an integer beyond the range of a double; it returns exactly when
    every numeric temperature input converts.  The readings made before the
    failure are lost with it. *)
Theorem parse_fails_only_on_an_integer_beyond_the_doubles
    (raw_data : dict LmSensors.Json) (env : Env) :
  (forall exc env',
     LmSensors.parse_sensor_data rt raw_data env = (Raised exc, env') ->
     exc = OverflowError "int too large to convert to float"
     /\ exists chip_name chip_data feature_name feature_data subfeature_name z,
          In (chip_name, LmSensors.JDict chip_data) raw_data
          /\ In (feature_name, LmSensors.JDict feature_data) chip_data
          /\ In (subfeature_name, LmSensors.JInt z) feature_data
          /\ LmSensors._is_temperature_input rt feature_name subfeature_name = true
          /\ LmSensors.float_of_int z = Raised exc)
  /\ ((exists readings env',
         LmSensors.parse_sensor_data rt raw_data env = (Returned readings, env'))
      <-> forall i, In i (LmSensors.temperature_inputs rt raw_data) ->
                    exists v, LmSensors.in_value i = Returned v).
Proof.
  rewrite parse_sensor_data_stamp. split.
  - intros exc env' H.
    destruct (stamp_raised _ _ _ _ H) as [i [Hin Hi]].
    apply In_temperature_inputs in Hin
      as (chip_data & feature_data & value & Hchip & Hfeature & Hsub & Htemp
          & Hvalue & _).
    rewrite Hi in Hvalue.
    destruct (number_to_float_raised _ _ Hvalue) as [Hexc [z [-> Hz]]].
    split; [exact Hexc|].
    exists (LmSensors.in_chip i), chip_data, (LmSensors.in_feature i), feature_data,
      (LmSensors.in_subfeature i), z.
    repeat split; assumption.
  - split.
    + intros (readings & env' & H) i Hin.
      destruct (stamp_returned _ _ _ _ H) as [Hall _].
      clear H. induction Hall as [|j r js rs [Hj _] _ IH]; [contradiction|].
      destruct Hin as [<-|Hin]; [eexists; exact Hj | exact (IH Hin)].
    + intros Hall. apply stamp_returns, Hall.
Qed.

Lemma clock_reads_sorted (n : nat) :
  LmSensors.clock_never_goes_back rt ->
  forall env,
    StronglySorted Z.le (fst (LmSensors.clock_reads rt n env))
    /\ forall x, In x (fst (LmSensors.clock_reads rt n env)) ->
                 (fst (LmSensors.datetime_now rt env) <= x)%Z.
Proof.
  intros Hclock. induction n as [|n IH]; intros env; cbn [LmSensors.clock_reads].
  - split; [constructor | intros x []].
  - pose proof (Hclock env) as Hnext.
    destruct (LmSensors.datetime_now rt env) as [timestamp env1]. cbn [fst snd] in *.
    destruct (IH env1) as [Hsorted Hlater].
    destruct (LmSensors.clock_reads rt n env1) as [later env2]. cbn [fst] in *.
    split.
    + constructor; [exact Hsorted|].
      apply Forall_forall. intros x Hx. specialize (Hlater x Hx). lia.
    + intros x [<-|Hx]; [lia | specialize (Hlater x Hx); lia].
Qed.

Lemma chronological_map (l : list SensorReading.t) :
  StronglySorted Z.le (map SensorReading.timestamp l) -> chronological l.
Proof.
  unfold chronological. induction l as [|r l IH]; cbn [map]; intros H.
  - constructor.
  - inversion H as [|? ? Hsorted Hall]; subst.
    constructor; [exact (IH Hsorted)|].
    rewrite Forall_map in Hall. exact Hall.
Qed.

(** A parse that returns has read the clock once for each reading, in the
    order of the readings, and has not touched the machine otherwise: the
    readings of one batch are stamped one by one, and are in the order of
    their timestamps when the clock does not go back meanwhile. *)
Theorem parse_reads_the_clock_once_per_reading
    (raw_data : dict LmSensors.Json) (env : Env)
    (readings : list SensorReading.t) (env' : Env) :
  LmSensors.parse_sensor_data rt raw_data env = (Returned readings, env') ->
  length readings = length (LmSensors.temperature_inputs rt raw_data)
  /\ (map SensorReading.timestamp readings, env')
     = LmSensors.clock_reads rt (length readings) env
  /\ (LmSensors.clock_never_goes_back rt -> chronological readings).
Proof.
  intros H. rewrite parse_sensor_data_stamp in H.
  destruct (stamp_returned _ _ _ _ H) as [Hall Hclock].
  pose proof (Forall2_length Hall) as Hlen.
  split; [symmetry; exact Hlen|].
  rewrite Hlen in Hclock. split; [exact Hclock|].
  intros Hback. apply chronological_map.
  destruct (clock_reads_sorted (length readings) Hback env) as [Hsorted _].
  rewrite <- Hclock in Hsorted. exact Hsorted.
Qed.

End ParseFacts.

(** ** The sensor source: from the tool to the readings *)

Section SourceFacts.
Context {Env : Type}.
Variable rt : LmSensors.Runtime Env.

(** [get_current_readings] returns exactly for a monitor that found the
    tool when it was built and a run of [sensors -j] that ends with code 0:
    no reading, and the clock not read, when the tool printed nothing;
    what [parse_sensor_data] makes of the decoded object when it printed
    one.  Nothing else makes it return. *)
Theorem readings_are_returned_exactly_for_a_clean_run
    (self : LmSensors.t) (env : Env) (readings : list SensorReading.t) (env' : Env) :
  LmSensors.get_current_readings rt self env = (Returned readings, env')
  <-> LmSensors.lm_sensors_available self = true
      /\ exists result env1,
           LmSensors.subprocess_run rt ["sensors"; "-j"] env = (Returned result, env1)
           /\ LmSensors.returncode result = 0%Z
           /\ ((LmSensors.stdout result = "" /\ readings = [] /\ env' = env1)
               \/ (LmSensors.stdout result <> ""
                   /\ exists data,
                        LmSensors.json_loads rt (LmSensors.stdout result)
                        = Returned (LmSensors.JDict data)
                        /\ LmSensors.parse_sensor_data rt data env1
                           = (Returned readings, env'))).
Proof.
  unfold LmSensors.get_current_readings, LmSensors.get_raw_sensor_data,
    LmSensors._execute_sensors_command.
  split.
  - destruct (LmSensors.lm_sensors_available self); cbn [negb]; [|discriminate].
    destruct (LmSensors.subprocess_run rt ["sensors"; "-j"] env)
      as [[result|exc] env1].
    + destruct (LmSensors.returncode result =? 0)%Z eqn:Hrc; cbn [negb];
        [|discriminate].
      apply Z.eqb_eq in Hrc.
      destruct (String.eqb (LmSensors.stdout result) "") eqn:Hout.
      * apply String.eqb_eq in Hout. intros [= <- <-].
        split; [reflexivity|]. exists result, env1.
        repeat split; try assumption. left. repeat split. exact Hout.
      * apply String.eqb_neq in Hout.
        destruct (LmSensors.json_loads rt (LmSensors.stdout result)) as [j|exc] eqn:Hj.
        -- destruct j as [| | | | | |data]; try discriminate.
           intros H. split; [reflexivity|]. exists result, env1.
           repeat split; try assumption. right. split; [exact Hout|].
           exists data. split; [exact Hj|].
           destruct data as [|item items]; [|exact H].
           injection H as <- <-. reflexivity.
        -- destruct (isinstance exc "JSONDecodeError"); discriminate.
    + destruct (isinstance exc "TimeoutExpired"); [discriminate|].
      destruct (isinstance exc "OSError"); discriminate.
  - intros (Havail & result & env1 & Hrun & Hrc & Hcases).
    rewrite Havail, Hrun, Hrc. cbn [negb Z.eqb].
    destruct Hcases as [(Hout & -> & ->) | (Hout & data & Hj & Hparse)].
    + rewrite Hout. reflexivity.
    + apply String.eqb_neq in Hout. rewrite Hout, Hj.
      destruct data as [|item items]; [|exact Hparse].
      cbn in Hparse. injection Hparse as <- <-. reflexivity.
Qed.

Lemma get_current_readings_raised
    (self : LmSensors.t) (env : Env) (exc : Exception) (env' : Env) :
  LmSensors.get_current_readings rt self env = (Raised exc, env') ->
  isinstance exc "RuntimeError" = true
  \/ (LmSensors.subprocess_run rt ["sensors"; "-j"] env = (Raised exc, env')
      /\ isinstance exc "TimeoutExpired" = false
      /\ isinstance exc "OSError" = false)
  \/ (exists text,
        LmSensors.json_loads rt text = Raised exc
        /\ isinstance exc "JSONDecodeError" = false)
  \/ (exists text data i,
        LmSensors.json_loads rt text = Returned (LmSensors.JDict data)
        /\ In i (LmSensors.temperature_inputs rt data)
        /\ LmSensors.in_value i = Raised exc).
Proof.
  unfold LmSensors.get_current_readings, LmSensors.get_raw_sensor_data,
    LmSensors._execute_sensors_command.
  destruct (LmSensors.lm_sensors_available self); cbn [negb];
    [|intros [= <- <-]; left; reflexivity].
  destruct (LmSensors.subprocess_run rt ["sensors"; "-j"] env)
    as [[result|exc0] env1].
  - destruct (LmSensors.returncode result =? 0)%Z; cbn [negb];
      [|intros [= <- <-]; left; reflexivity].
    destruct (String.eqb (LmSensors.stdout result) ""); [discriminate|].
    destruct (LmSensors.json_loads rt (LmSensors.stdout result)) as [j|exc1] eqn:Hj.
    + destruct j as [| | | | | |data];
        try (intros [= <- <-]; left; reflexivity).
      destruct data as [|item items]; [discriminate|].
      intros H. right. right. right.
      rewrite parse_sensor_data_stamp in H.
      destruct (stamp_raised _ _ _ _ _ H) as [i [Hin Hi]].
      exists (LmSensors.stdout result), (item :: items), i.
      repeat split; assumption.
    + destruct (isinstance exc1 "JSONDecodeError") eqn:Hcls.
      * intros [= <- <-]. left. reflexivity.
      * intros [= <- <-]. right. right. left.
        exists (LmSensors.stdout result). split; assumption.
  - destruct (isinstance exc0 "TimeoutExpired") eqn:Htimeout;
      [intros [= <- <-]; left; reflexivity|].
    destruct (isinstance exc0 "OSError") eqn:Hos;
      [intros [= <- <-]; left; reflexivity|].
    intros [= <- <-]. right. left. repeat split; assumption.
Qed.

(** Whatever [get_current_readings] raises is a [RuntimeError], or else one
    of three things that pass through it untouched: an exception of
    [subprocess.run] that is neither [TimeoutExpired] nor an [OSError], one
    of [json.loads] that is not a [JSONDecodeError], or the [OverflowError]
    of [float] on a temperature input of the decoded document. *)
Theorem sensor_source_raises_runtime_errors_but_for_three_leaks
    (self : LmSensors.t) (env : Env) (exc : Exception) (env' : Env) :
  LmSensors.get_current_readings rt self env = (Raised exc, env') ->
  isinstance exc "RuntimeError" = true
  \/ (LmSensors.subprocess_run rt ["sensors"; "-j"] env = (Raised exc, env')
      /\ isinstance exc "TimeoutExpired" = false
      /\ isinstance exc "OSError" = false)
  \/ (exists text,
        LmSensors.json_loads rt text = Raised exc
        /\ isinstance exc "JSONDecodeError" = false)
  \/ (exc = OverflowError "int too large to convert to float"
      /\ exists text data i,
           LmSensors.json_loads rt text = Returned (LmSensors.JDict data)
           /\ In i (LmSensors.temperature_inputs rt data)
           /\ LmSensors.in_value i = Raised exc).
Proof.
  intros H.
  destruct (get_current_readings_raised self env exc env' H)
    as [Hrt | [Hrun | [Hloads | (text & data & i & Hj & Hin & Hi)]]];
    [left; exact Hrt | right; left; exact Hrun | right; right; left; exact Hloads |].
  right. right. right. split; [|exists text, data, i; repeat split; assumption].
  apply In_temperature_inputs in Hin
    as (_ & _ & value & _ & _ & _ & _ & Hvalue & _).
  rewrite Hi in Hvalue.
  exact (proj1 (number_to_float_raised _ _ Hvalue)).
Qed.

End SourceFacts.

(** ** The service on top of the sensor source *)

Section ServiceOnSourceFacts.
Context {W Env : Type}.
Variable rt : LmSensors.Runtime Env.

Lemma poll_once_without_the_tool (env0 : Env) (w : World W Env) :
  LmSensors.shutil_which rt "sensors" env0 = None ->
  monitor (service w) = LmSensors.get_current_readings rt (LmSensors.init rt env0) ->
  poll_once w
  = (Returned tt,
     {| service :=
          with_pending_errors
            (_pending_errors (service w)
             ++ [RuntimeError "lm_sensors is not available on this system"])
            (service w);
        consumer := consumer w; machine := machine w; calls := calls w |})
  /\ fst (get_current_readings w)
     = Raised (RuntimeError "lm_sensors is not available on this system").
Proof.
  intros Hwhich Hmon.
  unfold poll_once, try_except_class, bind, get_current_readings.
  rewrite Hmon.
  unfold LmSensors.get_current_readings, LmSensors.get_raw_sensor_data,
    LmSensors._execute_sensors_command, LmSensors.init,
    LmSensors._check_lm_sensors_availability.
  rewrite Hwhich. split; reflexivity.
Qed.

(** A monitor built when [sensors] was not to be found stays without it:
    every pass of the loop, whatever the machine has become, queues one
    [RuntimeError] saying so and changes nothing else: the tool is not
    looked for again and not run, nothing is recorded or queued as a
    batch. *)
Theorem monitor_built_without_the_tool_only_queues_errors
    (env0 : Env) (n : nat) :
  LmSensors.shutil_which rt "sensors" env0 = None ->
  forall w : World W Env,
    monitor (service w) = LmSensors.get_current_readings rt (LmSensors.init rt env0) ->
    perform_all (repeat PollOnce n) w
    = ({| service :=
            with_pending_errors
              (_pending_errors (service w)
               ++ repeat (RuntimeError "lm_sensors is not available on this system") n)
              (service w);
          consumer := consumer w; machine := machine w; calls := calls w |},
       []).
Proof.
  intros Hwhich. induction n as [|n IH]; intros w Hmon; cbn [repeat perform_all].
  - rewrite app_nil_r, with_pending_errors_same. destruct w; reflexivity.
  - cbn [perform].
    destruct (poll_once_without_the_tool env0 w Hwhich Hmon) as [-> ->].
    cbn [snd]. rewrite IH by exact Hmon. cbn.
    rewrite <- app_assoc. reflexivity.
Qed.

Lemma stamp_fails (inputs : list LmSensors.Input) :
  (exists i exc0, In i inputs /\ LmSensors.in_value i = Raised exc0) ->
  forall env, exists exc env', LmSensors.stamp rt inputs env = (Raised exc, env').
Proof.
  induction inputs as [|i0 rest IH]; intros (i & exc0 & Hin & Hi) env;
    cbn [LmSensors.stamp].
  - contradiction.
  - destruct (LmSensors.in_value i0) as [v|exc1] eqn:Hv; [|eexists _, _; reflexivity].
    destruct (LmSensors.datetime_now rt env) as [timestamp env1].
    destruct Hin as [->|Hin]; [congruence|].
    destruct (IH (ex_intro _ i (ex_intro _ exc0 (conj Hin Hi))) env1)
      as (exc & env2 & ->).
    eexists _, _. reflexivity.
Qed.

(** With library calls that fail as documented and documents whose numbers
    fit a double, no pass of the loop ends the thread: whatever the tool
    does, the pass returns, having queued one thing, a batch or an error,
    and the thread goes on to wait. *)
Theorem loop_outlives_the_documented_failures
    (self : LmSensors.t) (t : nat) (sys : System W Env) :
  LmSensors.documented_failures rt ->
  LmSensors.decoded_numbers_fit_a_double rt ->
  monitor (service (world sys)) = LmSensors.get_current_readings rt self ->
  nth_error (threads sys) t = Some AtLoopTest ->
  _stop_event (service (world sys)) = false ->
  exists sys',
    worker_step t sys = Some sys'
    /\ nth_error (threads sys') t = Some InWait
    /\ length (_pending_readings (service (world sys')))
       + length (_pending_errors (service (world sys')))
       = S (length (_pending_readings (service (world sys)))
            + length (_pending_errors (service (world sys)))).
Proof.
  intros [Hrun Hloads] Hfit Hmon Hpc Hgo.
  unfold worker_step. rewrite Hpc, Hgo.
  unfold poll_once, try_except_class, bind, get_current_readings. rewrite Hmon.
  destruct (LmSensors.get_current_readings rt self (machine (world sys)))
    as [[batch|exc] env] eqn:Hsrc.
  - eexists. split; [reflexivity|]. cbn.
    split; [exact (nth_error_replace_same t InWait AtLoopTest (threads sys) Hpc)|].
    rewrite length_app. cbn. lia.
  - assert (Hcls : isinstance exc "RuntimeError" = true).
    { destruct (get_current_readings_raised rt self _ exc env Hsrc)
        as [Hrt | [(Hr & Htimeout & Hos) | [(text & Hj & Hcls)
                                            | (text & data & i & Hj & Hin & Hi)]]].
      - exact Hrt.
      - destruct (Hrun _ _ _ _ Hr); congruence.
      - specialize (Hloads _ _ Hj). congruence.
      - destruct (Hfit _ _ _ Hj Hin) as [v Hv]. congruence. }
    rewrite Hcls. eexists. split; [reflexivity|]. cbn.
    split; [exact (nth_error_replace_same t InWait AtLoopTest (threads sys) Hpc)|].
    rewrite length_app. cbn. lia.
Qed.

(** A temperature input that is an integer beyond the range of a double
    ends the loop: [float] raises [OverflowError], no handler takes it, the
    thread is gone and nothing is queued, so no error-callback hears of
    it. *)
Theorem integer_beyond_the_doubles_ends_the_loop
    (self : LmSensors.t) (t : nat) (sys : System W Env)
    (result : LmSensors.CompletedProcess) (env1 : Env) (data : dict LmSensors.Json)
    (chip_name feature_name subfeature_name : string)
    (chip_data feature_data : dict LmSensors.Json) (z : Z) (exc0 : Exception) :
  monitor (service (world sys)) = LmSensors.get_current_readings rt self ->
  nth_error (threads sys) t = Some AtLoopTest ->
  _stop_event (service (world sys)) = false ->
  LmSensors.lm_sensors_available self = true ->
  LmSensors.subprocess_run rt ["sensors"; "-j"] (machine (world sys))
  = (Returned result, env1) ->
  LmSensors.returncode result = 0%Z ->
  LmSensors.stdout result <> "" ->
  LmSensors.json_loads rt (LmSensors.stdout result) = Returned (LmSensors.JDict data) ->
  In (chip_name, LmSensors.JDict chip_data) data ->
  In (feature_name, LmSensors.JDict feature_data) chip_data ->
  In (subfeature_name, LmSensors.JInt z) feature_data ->
  LmSensors._is_temperature_input rt feature_name subfeature_name = true ->
  LmSensors.float_of_int z = Raised exc0 ->
  exists sys',
    worker_step t sys = Some sys'
    /\ is_alive sys' t = false
    /\ service (world sys') = service (world sys)
    /\ fst (poll_once (world sys))
       = Raised (OverflowError "int too large to convert to float").
Proof.
  intros Hmon Hpc Hgo Havail Hrun Hrc Hout Hj Hchip Hfeature Hsub Htemp Hz.
  assert (Hin : In (LmSensors.mkInput chip_name feature_name subfeature_name
                      (LmSensors.label_of rt feature_data feature_name)
                      (LmSensors.float_of_int z))
                   (LmSensors.temperature_inputs rt data)).
  { apply In_temperature_inputs. exists chip_data, feature_data, (LmSensors.JInt z).
    cbn. repeat split; assumption. }
  destruct (stamp_fails _ (ex_intro _ _ (ex_intro _ exc0 (conj Hin Hz))) env1)
    as (exc & env2 & Hstamp).
  assert (Hexc : exc = OverflowError "int too large to convert to float").
  { destruct (stamp_raised _ _ _ _ _ Hstamp) as [i [Hi Hvalue]].
    apply In_temperature_inputs in Hi
      as (_ & _ & value & _ & _ & _ & _ & Hnumber & _).
    rewrite Hvalue in Hnumber.
    exact (proj1 (number_to_float_raised _ _ Hnumber)). }
  assert (Hsrc : LmSensors.get_current_readings rt self (machine (world sys))
                 = (Raised exc, env2)).
  { unfold LmSensors.get_current_readings, LmSensors.get_raw_sensor_data,
      LmSensors._execute_sensors_command.
    apply String.eqb_neq in Hout.
    rewrite Havail, Hrun, Hrc. cbn [negb Z.eqb]. rewrite Hout, Hj.
    destruct data as [|item items]; [contradiction|].
    rewrite parse_sensor_data_stamp. exact Hstamp. }
  subst exc.
  unfold worker_step. rewrite Hpc, Hgo.
  unfold poll_once, try_except_class, bind, get_current_readings.
  rewrite Hmon, Hsrc. cbn.
  eexists. split; [reflexivity|]. unfold is_alive. cbn.
  rewrite (nth_error_replace_same t Terminated AtLoopTest (threads sys) Hpc).
  repeat split; reflexivity.
Qed.

End ServiceOnSourceFacts.

(** ** The sample machine *)

Lemma sample_runtime_lowers_ascii (loads : string -> outcome LmSensors.Json) :
  LmSensors.lowers_ascii (runtime_with loads).
Proof. intros s _. reflexivity. Qed.

Lemma sample_clock_never_goes_back (loads : string -> outcome LmSensors.Json) :
  LmSensors.clock_never_goes_back (runtime_with loads).
Proof. intros m. cbn. lia. Qed.

Lemma sample_runtime_documented_failures :
  LmSensors.documented_failures sample_runtime.
Proof.
  split.
  - intros args m exc m' H. cbn in H.
    destruct (sensors_run m); inversion H; subst; [left | right]; reflexivity.
  - intros text exc H. cbn in H. unfold sample_loads in H.
    destruct (String.eqb text sample_output); [discriminate H|].
    destruct (String.eqb text "{}"); [discriminate H|].
    destruct (String.eqb text "[]"); [discriminate H|].
    injection H as <-. reflexivity.
Qed.

Lemma sample_runtime_numbers_fit :
  LmSensors.decoded_numbers_fit_a_double sample_runtime.
Proof.
  intros text data i H Hin. cbn in H. unfold sample_loads in H.
  destruct (String.eqb text sample_output).
  - injection H as <-. vm_compute in Hin.
    destruct Hin as [<-|[<-|[]]]; eexists; vm_compute; reflexivity.
  - destruct (String.eqb text "{}"); [injection H as <-; destruct Hin|].
    destruct (String.eqb text "[]"); discriminate H.
Qed.

Lemma standard_temperature_inputs_are_accepted_witness :
  LmSensors._is_temperature_input sample_runtime "Composite"
    ("Temp" ++ "1" ++ "_Input") = true.
Proof.
  apply (standard_temperature_inputs_are_accepted sample_runtime "Composite"
           "Temp" "1" "_Input").
  - exact (sample_runtime_lowers_ascii sample_loads).
  - reflexivity.
  - reflexivity.
  - reflexivity.
  - reflexivity.
  - reflexivity.
Defined.

Lemma parsed_readings_are_the_numeric_temperature_inputs_witness :
  Forall2 (fun i r =>
             LmSensors.in_value i = Returned (SensorReading.value r)
             /\ SensorReading.name r
                = (LmSensors.in_chip i ++ "_" ++ LmSensors.in_feature i ++ "_"
                   ++ LmSensors.in_subfeature i)%string
             /\ SensorReading.label r = LmSensors.in_label i
             /\ SensorReading.unit r = "Â°C"
             /\ SensorReading.sensor_type r
                = LmSensors._determine_sensor_type sample_runtime (LmSensors.in_chip i))
          (LmSensors.temperature_inputs sample_runtime sample_document)
          sample_readings.
Proof.
  refine (proj1 (parsed_readings_are_the_numeric_temperature_inputs sample_runtime
                   sample_document (machine_printing sample_output) sample_readings
                   (later (machine_printing sample_output) 2000) _)).
  vm_compute. reflexivity.
Defined.

Lemma parse_fails_only_on_an_integer_beyond_the_doubles_witness :
  exists chip_name chip_data feature_name feature_data subfeature_name z,
    In (chip_name, LmSensors.JDict chip_data) oversized_document
    /\ In (feature_name, LmSensors.JDict feature_data) chip_data
    /\ In (subfeature_name, LmSensors.JInt z) feature_data
    /\ LmSensors._is_temperature_input sample_runtime feature_name subfeature_name = true
    /\ LmSensors.float_of_int z
       = Raised (OverflowError "int too large to convert to float").
Proof.
  refine (proj2 (proj1 (parse_fails_only_on_an_integer_beyond_the_doubles
                          sample_runtime oversized_document
                          (machine_printing oversized_output))
                       (OverflowError "int too large to convert to float")
                       (machine_printing oversized_output) _)).
  vm_compute. reflexivity.
Defined.

Lemma parse_reads_the_clock_once_per_reading_witness :
  chronological sample_readings.
Proof.
  refine (proj2 (proj2 (parse_reads_the_clock_once_per_reading sample_runtime
                          sample_document (machine_printing sample_output)
                          sample_readings
                          (later (machine_printing sample_output) 2000) _))
                (sample_clock_never_goes_back sample_loads)).
  vm_compute. reflexivity.
Defined.

Lemma readings_are_returned_exactly_for_a_clean_run_witness :
  LmSensors.get_current_readings sample_runtime
    (LmSensors.init sample_runtime (machine_printing sample_output))
    (machine_printing sample_output)
  = (Returned sample_readings, later (machine_printing sample_output) 2000).
Proof.
  apply (readings_are_returned_exactly_for_a_clean_run sample_runtime
           (LmSensors.init sample_runtime (machine_printing sample_output))
           (machine_printing sample_output) sample_readings
           (later (machine_printing sample_output) 2000)).
  split; [reflexivity|].
  exists {| LmSensors.returncode := 0; LmSensors.stdout := sample_output;
            LmSensors.stderr := "" |}, (machine_printing sample_output).
  split; [reflexivity|]. split; [reflexivity|]. right.
  split; [discriminate|]. exists sample_document.
  split; vm_compute; reflexivity.
Defined.

Lemma sensor_source_raises_runtime_errors_but_for_three_leaks_witness :
  isinstance (RuntimeError "Timeout while executing sensors command") "RuntimeError"
  = true
  \/ (LmSensors.subprocess_run sample_runtime ["sensors"; "-j"] stuck_machine
      = (Raised (RuntimeError "Timeout while executing sensors command"), stuck_machine)
      /\ isinstance (RuntimeError "Timeout while executing sensors command")
           "TimeoutExpired" = false
      /\ isinstance (RuntimeError "Timeout while executing sensors command")
           "OSError" = false)
  \/ (exists text,
        LmSensors.json_loads sample_runtime text
        = Raised (RuntimeError "Timeout while executing sensors command")
        /\ isinstance (RuntimeError "Timeout while executing sensors command")
             "JSONDecodeError" = false)
  \/ (RuntimeError "Timeout while executing sensors command"
      = OverflowError "int too large to convert to float"
      /\ exists text data i,
           LmSensors.json_loads sample_runtime text = Returned (LmSensors.JDict data)
           /\ In i (LmSensors.temperature_inputs sample_runtime data)
           /\ LmSensors.in_value i
              = Raised (RuntimeError "Timeout while executing sensors command")).
Proof.
  apply (sensor_source_raises_runtime_errors_but_for_three_leaks sample_runtime
           (LmSensors.init sample_runtime stuck_machine) stuck_machine
           (RuntimeError "Timeout while executing sensors command") stuck_machine).
  reflexivity.
Defined.

Lemma monitor_built_without_the_tool_only_queues_errors_witness :
  perform_all (repeat PollOnce 3)
    (service_on sample_runtime bare_machine (machine_printing sample_output))
  = ({| service :=
          with_pending_errors
            (repeat (RuntimeError "lm_sensors is not available on this system") 3)
            (service (service_on sample_runtime bare_machine
                        (machine_printing sample_output)));
        consumer := ([], []); machine := machine_printing sample_output;
        calls := [] |},
     []).
Proof.
  apply (monitor_built_without_the_tool_only_queues_errors sample_runtime
           bare_machine 3 eq_refl
           (service_on sample_runtime bare_machine (machine_printing sample_output))
           eq_refl).
Defined.

Lemma loop_outlives_the_documented_failures_witness :
  exists sys',
    worker_step 0 (start_monitoring
                     (boot (service_on sample_runtime stuck_machine stuck_machine) 1))
    = Some sys'
    /\ nth_error (threads sys') 0 = Some InWait
    /\ length (_pending_readings (service (world sys')))
       + length (_pending_errors (service (world sys'))) = 1.
Proof.
  destruct (loop_outlives_the_documented_failures sample_runtime
              (LmSensors.init sample_runtime stuck_machine) 0
              (start_monitoring
                 (boot (service_on sample_runtime stuck_machine stuck_machine) 1))
              sample_runtime_documented_failures sample_runtime_numbers_fit
              eq_refl eq_refl eq_refl)
    as (sys' & Hstep & Hwait & Hqueued).
  exists sys'. split; [exact Hstep|]. split; [exact Hwait | exact Hqueued].
Defined.

Lemma integer_beyond_the_doubles_ends_the_loop_witness :
  exists sys',
    worker_step 0
      (start_monitoring
         (boot (service_on (runtime_with oversized_loads)
                  (machine_printing oversized_output)
                  (machine_printing oversized_output)) 1))
    = Some sys'
    /\ is_alive sys' 0 = false
    /\ _pending_errors (service (world sys')) = []
    /\ _pending_readings (service (world sys')) = [].
Proof.
  destruct (integer_beyond_the_doubles_ends_the_loop (runtime_with oversized_loads)
              (LmSensors.init (runtime_with oversized_loads)
                 (machine_printing oversized_output))
              0
              (start_monitoring
                 (boot (service_on (runtime_with oversized_loads)
                          (machine_printing oversized_output)
                          (machine_printing oversized_output)) 1))
              {| LmSensors.returncode := 0; LmSensors.stdout := oversized_output;
                 LmSensors.stderr := "" |}
              (machine_printing oversized_output) oversized_document
              "k10temp-pci-00c3" "Tctl" "temp1_input"
              [("Tctl", LmSensors.JDict [("temp1_input", LmSensors.JInt (10 ^ 400))])]
              [("temp1_input", LmSensors.JInt (10 ^ 400))]
              (10 ^ 400)%Z (OverflowError "int too large to convert to float"))
    as (sys' & Hstep & Hdead & Hservice & _).
  - reflexivity.
  - reflexivity.
  - reflexivity.
  - reflexivity.
  - reflexivity.
  - reflexivity.
  - discriminate.
  - vm_compute. reflexivity.
  - left. reflexivity.
  - left. reflexivity.
  - left. reflexivity.
  - reflexivity.
  - vm_compute. reflexivity.
  - exists sys'. split; [exact Hstep|]. split; [exact Hdead|].
    rewrite Hservice. split; reflexivity.
Defined.
